(** * Meridian CLI: turn-tree navigation and streaming display

    A shallow embedding of the core of the terminal client:
    - [models.py]      : [Turn], [TurnBlock], [PaginatedTurnsResponse];
    - [navigation.py]  : [NavigationState] and its four direction queries;
    - [api_client.py]  : the line loop of [APIClient.stream_turn] (SSE parser);
    - [screens/turn_browser.py] : initial load, [_do_navigate],
      [navigate_to_turn] and the four key actions;
    - [screens/streaming.py]    : [start_streaming] and [action_cancel],
      and the user message box written by [on_mount];
    - [screens/turn_browser.py] : also [update_display], the submission
      of a message and [submit_message];
    - [app.py]                  : the double Ctrl+C;
    - [logger.py]               : [cleanup_old_logs];
    - [screens/params_editor.py]: what the provider and model selects
      open on;
    - [screens/chat_list.py]    : loading, reloading and selecting.

    Python integers are [Z]; a Python [str] is a [string]; [None] in an
    optional field is [None]; a raised exception is the [Raise] arm of
    [result].  Methods that mutate [self] are functions on the state of
    their object.  A coroutine is cut at its [await]s: what the awaited
    call hands back (a value, an exception, a [CancelledError]) is an
    argument of the part that follows.  The libraries are taken by their
    documented behaviour: [asyncio] tasks and cancellation, Textual's
    [reactive] attributes and [dismiss], [rich.text.Text.append], and
    [json.loads], which is a parameter. *)

From Stdlib Require Import ZArith String List Bool Lia DecimalString Sorted.
From stdpp Require Import base option list strings.
Import ListNotations.

Local Open Scope string_scope.
Local Open Scope list_scope.
Local Open Scope Z_scope.

(** ** Python runtime conventions *)

(** The exceptions the modelled code can meet.  [CancelledError] derives
    from [BaseException], every other one from [Exception]: this is what
    decides whether an [except Exception] clause catches it. *)
Inductive exn : Type :=
  | IndexError
  | ValueError
  | TypeError (msg : string)
  | AttributeError (msg : string)
  | NoMatches (selector : string)
  | JSONDecodeError (msg : string)
  | TransportError (msg : string)
  | CancelledError.

Definition is_Exception (e : exn) : bool :=
  match e with
  | CancelledError => false
  | _ => true
  end.

Inductive result (A : Type) : Type :=
  | Ok (a : A)
  | Raise (e : exn).
Arguments Ok {A} a.
Arguments Raise {A} e.

(** [l[i]] for a Python list: a negative index counts from the end, an
    index out of range raises [IndexError]. *)
Definition py_getitem {A} (l : list A) (i : Z) : result A :=
  let n := Z.of_nat (length l) in
  let j := if i <? 0 then i + n else i in
  if (0 <=? j) && (j <? n)
  then match l !! Z.to_nat j with
       | Some x => Ok x
       | None => Raise IndexError
       end
  else Raise IndexError.

(** [l.index(x)]: position of the first element equal to [x];
    [ValueError] when there is none. *)
Fixpoint py_index (l : list string) (x : string) : result Z :=
  match l with
  | [] => Raise ValueError
  | y :: l' =>
      if String.eqb y x then Ok 0
      else match py_index l' x with
           | Ok i => Ok (1 + i)
           | Raise e => Raise e
           end
  end.

(** [len(l)] *)
Definition len {A} (l : list A) : Z := Z.of_nat (length l).

(** The newline character and ["\n"]. *)
Definition nl : string := String (Ascii.ascii_of_nat 10) EmptyString.

(** [s[n:]] and [s[:n]] on a [str]. *)
Fixpoint str_drop (n : nat) (s : string) : string :=
  match n, s with
  | O, _ => s
  | S n', String _ s' => str_drop n' s'
  | S _, EmptyString => EmptyString
  end.

Fixpoint str_take (n : nat) (s : string) : string :=
  match n, s with
  | S n', String c s' => String c (str_take n' s')
  | _, _ => EmptyString
  end.

(** [str(n)] for an integer. *)
Definition str_of_Z (n : Z) : string := NilZero.string_of_int (Z.to_int n).

(** Truthiness of a [str] and of an optional [str]. *)
Definition str_truthy (s : string) : bool := negb (String.eqb s "").

Definition opt_truthy (o : option string) : bool :=
  match o with
  | Some s => str_truthy s
  | None => false
  end.

(** The values [json.loads] produces: [None], [bool], [int], [str],
    [list] and [dict] with [str] keys (a dict is kept as the list of its
    items; floats are not modelled). *)
#[warnings="-register-all"]
Inductive pyval : Type :=
  | PNone
  | PBool (b : bool)
  | PInt (n : Z)
  | PStr (s : string)
  | PList (xs : list pyval)
  | PDict (items : list (string * pyval)).

(** [d.get(k)] on the items of a dict. *)
Fixpoint items_get (items : list (string * pyval)) (k : string) : option pyval :=
  match items with
  | [] => None
  | (k', v) :: rest => if String.eqb k' k then Some v else items_get rest k
  end.

(** Python [==] on these values: [True == 1] and [False == 0] hold, lists
    compare element by element, dicts item by item whatever the order. *)
Fixpoint py_eqb (a b : pyval) {struct a} : bool :=
  match a, b with
  | PNone, PNone => true
  | PBool x, PBool y => Bool.eqb x y
  | PBool x, PInt y => Z.b2z x =? y
  | PInt x, PBool y => x =? Z.b2z y
  | PInt x, PInt y => x =? y
  | PStr x, PStr y => String.eqb x y
  | PList xs, PList ys =>
      (fix all2 (xs : list pyval) (ys : list pyval) : bool :=
         match xs, ys with
         | [], [] => true
         | x :: xs', y :: ys' => py_eqb x y && all2 xs' ys'
         | _, _ => false
         end) xs ys
  | PDict d1, PDict d2 =>
      (length d1 =? length d2)%nat &&
      (fix sub (d : list (string * pyval)) : bool :=
         match d with
         | [] => true
         | (k, v) :: d' =>
             match items_get d2 k with
             | Some v' => py_eqb v v'
             | None => false
             end && sub d'
         end) d1
  | _, _ => false
  end.

(** [bool(v)] *)
Definition py_truthy (v : pyval) : bool :=
  match v with
  | PNone => false
  | PBool b => b
  | PInt n => negb (n =? 0)
  | PStr s => str_truthy s
  | PList xs => match xs with [] => false | _ => true end
  | PDict d => match d with [] => false | _ => true end
  end.

(** [v == "literal"] *)
Definition py_is (v : pyval) (s : string) : bool := py_eqb v (PStr s).

(** [v in [s1, s2, ...]] for a list of string literals. *)
Definition py_in (v : pyval) (ss : list string) : bool :=
  existsb (py_is v) ss.

(** [d.get(key, default)] on the items of a dict. *)
Definition dict_get (items : list (string * pyval)) (key : string)
    (default : pyval) : pyval :=
  match items_get items key with
  | Some v => v
  | None => default
  end.

(** [d.get(key, default)]; a value that is not a dict has no [get]. *)
Definition py_get (d : pyval) (key : string) (default : pyval) : result pyval :=
  match d with
  | PDict items => Ok (dict_get items key default)
  | _ => Raise (AttributeError "get")
  end.

(** [d.keys()] *)
Definition py_keys (d : pyval) : result (list string) :=
  match d with
  | PDict items => Ok (map fst items)
  | _ => Raise (AttributeError "keys")
  end.

(** [len(v)] *)
Definition py_len (v : pyval) : result Z :=
  match v with
  | PStr s => Ok (Z.of_nat (String.length s))
  | PList xs => Ok (len xs)
  | PDict d => Ok (len d)
  | _ => Raise (TypeError "len")
  end.

(** [str(e)], as interpolated by [f"{e}"]. *)
Definition exn_str (e : exn) : string :=
  match e with
  | IndexError => "list index out of range"
  | ValueError => "value is not in list"
  | TypeError msg => msg
  | AttributeError msg => msg
  | NoMatches sel => sel
  | JSONDecodeError msg => msg
  | TransportError msg => msg
  | CancelledError => ""
  end.

(** [type(e).__name__] *)
Definition exn_name (e : exn) : string :=
  match e with
  | IndexError => "IndexError"
  | ValueError => "ValueError"
  | TypeError _ => "TypeError"
  | AttributeError _ => "AttributeError"
  | NoMatches _ => "NoMatches"
  | JSONDecodeError _ => "JSONDecodeError"
  | TransportError _ => "TransportError"
  | CancelledError => "CancelledError"
  end.

(** ** State and exceptions

    Methods that mutate [self] and may raise are functions
    [S -> S * result A]: the state carries on through a raise, as mutations
    made before a Python exception stay made. *)
Definition M (S A : Type) : Type := S -> S * result A.

#[global] Instance M_ret {S} : MRet (M S) := fun A a s => (s, Ok a).

#[global] Instance M_bind {S} : MBind (M S) := fun A B k m s =>
  match m s with
  | (s', Ok a) => k a s'
  | (s', Raise e) => (s', Raise e)
  end.

Definition raise {S A} (e : exn) : M S A := fun s => (s, Raise e).

Definition lift {S A} (r : result A) : M S A := fun s => (s, r).

Definition get_state {S} : M S S := fun s => (s, Ok s).

Definition modify {S} (f : S -> S) : M S unit := fun s => (f s, Ok tt).

(** [try: body  except Exception as e: handler(e)]: a [CancelledError]
    passes through. *)
Definition try_except {S A} (body : M S A) (handler : exn -> M S A) : M S A :=
  fun s =>
    match body s with
    | (s', Ok a) => (s', Ok a)
    | (s', Raise e) => if is_Exception e then handler e s' else (s', Raise e)
    end.

Definition when {S} (c : bool) (m : M S unit) : M S unit :=
  if c then m else mret tt.

(** [m] relates every state to the state it leaves, returning or
    raising. *)
Definition preserves {S A} (R : S -> S -> Prop) (m : M S A) : Prop :=
  forall s, R s (fst (m s)).

(** ** models.py *)

Module TurnBlock.
Record t : Type := mk {
  id : string;
  turn_id : string;
  block_type : string;
  sequence : Z;
  text_content : option string;
  content : pyval;
  created_at : string;
}.
End TurnBlock.

Module Turn.
Record t : Type := mk {
  id : string;
  chat_id : string;
  prev_turn_id : option string;
  role : string;
  status : string;
  error : option string;
  model : option string;
  input_tokens : option Z;
  output_tokens : option Z;
  created_at : string;
  completed_at : option string;
  request_params : pyval;
  stop_reason : option string;
  response_metadata : pyval;
  blocks : list TurnBlock.t;
  sibling_ids : list string;
}.

(** [Turn.sibling_index]:
    try: return self.sibling_ids.index(self.id)
    except ValueError: return 0 *)
Definition sibling_index (self : t) : result Z :=
  match py_index (sibling_ids self) (id self) with
  | Ok i => Ok i
  | Raise ValueError => Ok 0
  | Raise e => Raise e
  end.
End Turn.

Module PaginatedTurnsResponse.
Record t : Type := mk {
  turns : list Turn.t;
  has_more_before : bool;
  has_more_after : bool;
}.
End PaginatedTurnsResponse.

(** ** navigation.py *)

Module NavigationState.
Record t : Type := mk {
  current : Turn.t;
  response : PaginatedTurnsResponse.t;
}.

(** return self.current.prev_turn_id is not None *)
Definition can_go_up (self : t) : result bool :=
  Ok (match Turn.prev_turn_id (current self) with
      | Some _ => true
      | None => false
      end).

(** return self.current.prev_turn_id *)
Definition prev_turn_id (self : t) : result (option string) :=
  Ok (Turn.prev_turn_id (current self)).

(** return len(self.response.turns) > 1 *)
Definition can_go_down (self : t) : result bool :=
  Ok (1 <? len (PaginatedTurnsResponse.turns (response self))).

(** if len(self.response.turns) > 1: return self.response.turns[1].id
    return None *)
Definition next_turn_id (self : t) : result (option string) :=
  let turns := PaginatedTurnsResponse.turns (response self) in
  if 1 <? len turns
  then match py_getitem turns 1 with
       | Ok child => Ok (Some (Turn.id child))
       | Raise e => Raise e
       end
  else Ok None.

(** return self.current.sibling_index > 0 *)
Definition can_go_left (self : t) : result bool :=
  match Turn.sibling_index (current self) with
  | Ok idx => Ok (0 <? idx)
  | Raise e => Raise e
  end.

(** idx = self.current.sibling_index
    if idx > 0: return self.current.sibling_ids[idx - 1]
    return None *)
Definition prev_sibling_id (self : t) : result (option string) :=
  match Turn.sibling_index (current self) with
  | Ok idx =>
      if 0 <? idx
      then match py_getitem (Turn.sibling_ids (current self)) (idx - 1) with
           | Ok s => Ok (Some s)
           | Raise e => Raise e
           end
      else Ok None
  | Raise e => Raise e
  end.

(** idx = self.current.sibling_index
    return idx < len(self.current.sibling_ids) - 1 *)
Definition can_go_right (self : t) : result bool :=
  match Turn.sibling_index (current self) with
  | Ok idx => Ok (idx <? len (Turn.sibling_ids (current self)) - 1)
  | Raise e => Raise e
  end.

(** idx = self.current.sibling_index
    if idx < len(self.current.sibling_ids) - 1:
        return self.current.sibling_ids[idx + 1]
    return None *)
Definition next_sibling_id (self : t) : result (option string) :=
  match Turn.sibling_index (current self) with
  | Ok idx =>
      if idx <? len (Turn.sibling_ids (current self)) - 1
      then match py_getitem (Turn.sibling_ids (current self)) (idx + 1) with
           | Ok s => Ok (Some s)
           | Raise e => Raise e
           end
      else Ok None
  | Raise e => Raise e
  end.
End NavigationState.

(** A boolean query that answers, and answers [true] exactly when [P]. *)
Definition enabled_iff (q : result bool) (P : Prop) : Prop :=
  exists b, q = Ok b /\ (b = true <-> P).

(** ** Equality of models

    Pydantic models compare field by field with Python [==]; Textual's
    [reactive] attributes use that comparison to decide whether an
    assignment is a change. *)

Definition opt_eqb {A} (eqb : A -> A -> bool) (a b : option A) : bool :=
  match a, b with
  | Some x, Some y => eqb x y
  | None, None => true
  | _, _ => false
  end.

Fixpoint list_eqb {A} (eqb : A -> A -> bool) (xs ys : list A) : bool :=
  match xs, ys with
  | [], [] => true
  | x :: xs', y :: ys' => eqb x y && list_eqb eqb xs' ys'
  | _, _ => false
  end.

Definition TurnBlock_eqb (a b : TurnBlock.t) : bool :=
  String.eqb (TurnBlock.id a) (TurnBlock.id b)
  && String.eqb (TurnBlock.turn_id a) (TurnBlock.turn_id b)
  && String.eqb (TurnBlock.block_type a) (TurnBlock.block_type b)
  && (TurnBlock.sequence a =? TurnBlock.sequence b)
  && opt_eqb String.eqb (TurnBlock.text_content a) (TurnBlock.text_content b)
  && py_eqb (TurnBlock.content a) (TurnBlock.content b)
  && String.eqb (TurnBlock.created_at a) (TurnBlock.created_at b).

Definition Turn_eqb (a b : Turn.t) : bool :=
  String.eqb (Turn.id a) (Turn.id b)
  && String.eqb (Turn.chat_id a) (Turn.chat_id b)
  && opt_eqb String.eqb (Turn.prev_turn_id a) (Turn.prev_turn_id b)
  && String.eqb (Turn.role a) (Turn.role b)
  && String.eqb (Turn.status a) (Turn.status b)
  && opt_eqb String.eqb (Turn.error a) (Turn.error b)
  && opt_eqb String.eqb (Turn.model a) (Turn.model b)
  && opt_eqb Z.eqb (Turn.input_tokens a) (Turn.input_tokens b)
  && opt_eqb Z.eqb (Turn.output_tokens a) (Turn.output_tokens b)
  && String.eqb (Turn.created_at a) (Turn.created_at b)
  && opt_eqb String.eqb (Turn.completed_at a) (Turn.completed_at b)
  && py_eqb (Turn.request_params a) (Turn.request_params b)
  && opt_eqb String.eqb (Turn.stop_reason a) (Turn.stop_reason b)
  && py_eqb (Turn.response_metadata a) (Turn.response_metadata b)
  && list_eqb TurnBlock_eqb (Turn.blocks a) (Turn.blocks b)
  && list_eqb String.eqb (Turn.sibling_ids a) (Turn.sibling_ids b).

(** ** screens/turn_browser.py *)

(** What [get_turns] hands back at the [await]: a page, an exception of
    the transport or of response validation, or the [CancelledError] that
    asyncio throws into a cancelled task at its suspension point. *)
Inductive fetch_outcome : Type :=
  | FetchOk (response : PaginatedTurnsResponse.t)
  | FetchRaises (e : exn).

Definition await_fetch {S} (o : fetch_outcome) : M S PaginatedTurnsResponse.t :=
  match o with
  | FetchOk r => mret r
  | FetchRaises e => raise e
  end.

Module TurnBrowserScreen.

(** The screen as its observers see it: the two reactive attributes, the
    lines of the [#display-box] log, the [#input-box] widget and the
    notifications raised through [app.notify]. *)
Record t : Type := mk {
  current_turn : option Turn.t;
  nav_state : option NavigationState.t;
  display_box : list string;
  input_disabled : bool;
  input_tooltip : option string;
  input_focused : bool;
  notifications : list string;
}.

(** A freshly composed screen: both reactives at their default [None]. *)
Definition initial : t :=
  {| current_turn := None; nav_state := None; display_box := [];
     input_disabled := false; input_tooltip := None; input_focused := false;
     notifications := [] |}.

Definition set_display (f : list string -> list string) (s : t) : t :=
  {| current_turn := current_turn s; nav_state := nav_state s;
     display_box := f (display_box s);
     input_disabled := input_disabled s; input_tooltip := input_tooltip s;
     input_focused := input_focused s; notifications := notifications s |}.

Definition set_input (disabled : bool) (tooltip : option string) (s : t) : t :=
  {| current_turn := current_turn s; nav_state := nav_state s;
     display_box := display_box s;
     input_disabled := disabled; input_tooltip := tooltip;
     input_focused := input_focused s; notifications := notifications s |}.

Definition set_focus (s : t) : t :=
  {| current_turn := current_turn s; nav_state := nav_state s;
     display_box := display_box s;
     input_disabled := input_disabled s; input_tooltip := input_tooltip s;
     input_focused := true; notifications := notifications s |}.

Definition store_nav_state (n : option NavigationState.t) (s : t) : t :=
  {| current_turn := current_turn s; nav_state := n;
     display_box := display_box s;
     input_disabled := input_disabled s; input_tooltip := input_tooltip s;
     input_focused := input_focused s; notifications := notifications s |}.

Definition store_current_turn (c : option Turn.t) (s : t) : t :=
  {| current_turn := c; nav_state := nav_state s;
     display_box := display_box s;
     input_disabled := input_disabled s; input_tooltip := input_tooltip s;
     input_focused := input_focused s; notifications := notifications s |}.

(** display.write(line) / display.clear() *)
Definition write (line : string) : M t unit :=
  modify (set_display (fun lines => lines ++ [line])).

Definition clear : M t unit := modify (set_display (fun _ => [])).

(** self.app.notify(msg, ...) *)
Definition notify (msg : string) : M t unit :=
  modify (fun s =>
    {| current_turn := current_turn s; nav_state := nav_state s;
       display_box := display_box s;
       input_disabled := input_disabled s; input_tooltip := input_tooltip s;
       input_focused := input_focused s;
       notifications := notifications s ++ [msg] |}).

(** Evaluate a navigation query inside a method. *)
Definition query {A} (q : NavigationState.t -> result A) (n : NavigationState.t)
  : M t A := lift (q n).

(** The loop over [self.current_turn.blocks] of [update_display]. *)
Definition render_block (block : TurnBlock.t) : list string :=
  if String.eqb (TurnBlock.block_type block) "thinking" then
    ["[dim][thinking][/dim]"]
    ++ (if opt_truthy (TurnBlock.text_content block)
        then [default "" (TurnBlock.text_content block)] else [])
    ++ [""]
  else if String.eqb (TurnBlock.block_type block) "text" then
    ["[dim][text][/dim]"]
    ++ (if opt_truthy (TurnBlock.text_content block)
        then [default "" (TurnBlock.text_content block)] else [])
    ++ [""]
  else
    ["[dim][" +:+ TurnBlock.block_type block +:+ "][/dim]"; ""].

(** The four hints of [update_display], in the order A, S, W, D; a
    direction that is not available shows as blanks of the label's width. *)
Definition nav_hints (n : NavigationState.t) : M t string :=
  l ← query NavigationState.can_go_left n;
  d ← query NavigationState.can_go_down n;
  u ← query NavigationState.can_go_up n;
  r ← query NavigationState.can_go_right n;
  mret (String.concat " | "
          [ if l : bool then "A: ← Prev" else "         ";
            if d : bool then "S: ↓ Child" else "          ";
            if u : bool then "W: ↑ Parent" else "           ";
            if r : bool then "D: → Next" else "         " ]).

(** [update_display]: clear the box and render the current turn. *)
Definition update_display : M t unit :=
  clear;;
  s ← get_state;
  match current_turn s with
  | None => mret tt
  | Some turn =>
      write ("[bold cyan]Turn ID:[/bold cyan] " +:+ str_take 8 (Turn.id turn));;
      write ("[bold cyan]Role:[/bold cyan] " +:+ Turn.role turn);;
      write ("[bold cyan]Status:[/bold cyan] " +:+ Turn.status turn);;
      when (opt_truthy (Turn.model turn))
        (write ("[bold cyan]Model:[/bold cyan] " +:+ default "" (Turn.model turn)));;
      when (opt_truthy (Turn.error turn))
        (write ("[red]Error:[/red] " +:+ default "" (Turn.error turn)));;
      (if match Turn.sibling_ids turn with [] => false | _ => true end
          && (1 <? len (Turn.sibling_ids turn)) then
         idx ← lift (Turn.sibling_index turn);
         write ("[dim]Sibling " +:+ str_of_Z (idx + 1) +:+ " of "
                +:+ str_of_Z (len (Turn.sibling_ids turn)) +:+ "[/dim]")
       else mret tt);;
      match nav_state s with
      | Some n => hints ← nav_hints n; write hints
      | None => mret tt
      end;;
      write "";;
      modify (set_display (fun lines => lines ++ flat_map render_block (Turn.blocks turn)))
  end.

(** [watch_current_turn]: re-render and lock the input box on an errored
    turn. *)
Definition watch_current_turn (turn : option Turn.t) : M t unit :=
  match turn with
  | None => mret tt
  | Some turn =>
      update_display;;
      if opt_truthy (Turn.error turn)
      then modify (set_input true
                     (Some ("Turn has error: " +:+ default "" (Turn.error turn))))
      else modify (set_input false None)
  end.

(** [self.nav_state = n]: no watcher is attached to [nav_state]. *)
Definition assign_nav_state (n : NavigationState.t) : M t unit :=
  modify (store_nav_state (Some n)).

(** [self.current_turn = turn]: the reactive stores the value and runs
    [watch_current_turn] when it differs from the one it holds. *)
Definition assign_current_turn (turn : Turn.t) : M t unit :=
  s ← get_state;
  let changed := match current_turn s with
                 | Some old => negb (Turn_eqb old turn)
                 | None => true
                 end in
  when changed
    (modify (store_current_turn (Some turn));;
     watch_current_turn (Some turn)).

(** [on_mount], from the point where [get_turns] settles:
    try:
        response = await get_turns(chat_id, limit=1, direction="after")
        if response.turns:
            self.nav_state = NavigationState(response.turns[0], response)
            self.current_turn = response.turns[0]
            self.update_display()
        else:
            display.write("[dim]No turns in this chat yet. ...[/dim]")
        input_box.focus()
    except Exception as e:
        self.app.notify(f"Error loading turns: {e}", ...) *)
Definition on_mount (fetch : fetch_outcome) : M t unit :=
  try_except
    (response ← await_fetch fetch;
     match PaginatedTurnsResponse.turns response with
     | first :: _ =>
         assign_nav_state (NavigationState.mk first response);;
         assign_current_turn first;;
         update_display
     | [] =>
         write "[dim]No turns in this chat yet. Start typing below![/dim]"
     end;;
     modify set_focus)
    (fun e => notify ("Error loading turns: " +:+ exn_str e)).

(** [_do_navigate], from the point where [get_turns] settles:
    try:
        response = await get_turns(chat_id, from_turn_id=turn_id, ...)
        if response.turns:
            self.nav_state = NavigationState(response.turns[0], response)
            self.current_turn = response.turns[0]
    except Exception as e:
        self.app.notify(f"Navigation error: {e}", ...) *)
Definition _do_navigate (turn_id : string) (fetch : fetch_outcome) : M t unit :=
  try_except
    (response ← await_fetch fetch;
     match PaginatedTurnsResponse.turns response with
     | first :: _ =>
         assign_nav_state (NavigationState.mk first response);;
         assign_current_turn first
     | [] => mret tt
     end)
    (fun e => notify ("Navigation error: " +:+ exn_str e)).

(** The guard of a key action: the id the action passes to
    [navigate_to_turn], or [None] when it does nothing.
    if self.nav_state and self.nav_state.can_go_X and self.nav_state.X_id:
        await self.navigate_to_turn(self.nav_state.X_id) *)
Definition action_target
    (can_go : NavigationState.t -> result bool)
    (target : NavigationState.t -> result (option string)) : M t (option string) :=
  s ← get_state;
  match nav_state s with
  | None => mret None
  | Some n =>
      ok ← query can_go n;
      if ok : bool then
        id ← query target n;
        if opt_truthy id then query target n else mret None
      else mret None
  end.

Definition action_navigate_up : M t (option string) :=
  action_target NavigationState.can_go_up NavigationState.prev_turn_id.

Definition action_navigate_down : M t (option string) :=
  action_target NavigationState.can_go_down NavigationState.next_turn_id.

Definition action_navigate_left : M t (option string) :=
  action_target NavigationState.can_go_left NavigationState.prev_sibling_id.

Definition action_navigate_right : M t (option string) :=
  action_target NavigationState.can_go_right NavigationState.next_sibling_id.

End TurnBrowserScreen.

(** ** navigate_to_turn under the asyncio event loop

    [navigate_to_turn] and [_do_navigate] are coroutines; each runs without
    interruption from one [await] to the next, and the loop resumes one of
    them at a time.  The controller below keeps the screen, the attribute
    [_navigation_task], the tasks created with [asyncio.create_task], and
    the frames of [navigate_to_turn] that are suspended at one of its two
    [await]s.  [task.cancel()] on a task that is not done makes asyncio
    throw [CancelledError] into it at its suspension point when it is next
    resumed, whatever the awaited request produced. *)

Module Controller.

Inductive task_state : Type :=
  | InFlight (turn_id : string)
  | CancelRequested (turn_id : string)
  | Finished
  | Cancelled
  | Failed (e : exn).

(** task.done() *)
Definition done (st : task_state) : bool :=
  match st with
  | InFlight _ | CancelRequested _ => false
  | Finished | Cancelled | Failed _ => true
  end.

(** task.cancel() *)
Definition cancel (st : task_state) : task_state :=
  match st with
  | InFlight turn_id => CancelRequested turn_id
  | other => other
  end.

(** How a task ends, from what its coroutine returned or raised. *)
Definition settled (r : result unit) : task_state :=
  match r with
  | Ok _ => Finished
  | Raise CancelledError => Cancelled
  | Raise e => Failed e
  end.

(** A frame of [navigate_to_turn]: suspended at [await] of the task it
    has cancelled (line 164), suspended at [await] of its own task
    (line 173), or finished. *)
Inductive caller_state : Type :=
  | AwaitOld (task : nat) (turn_id : string)
  | AwaitOwn (task : nat)
  | Returned
  | Raised (e : exn).

Record t : Type := mk {
  screen : TurnBrowserScreen.t;
  _navigation_task : option nat;
  tasks : list task_state;
  callers : list caller_state;
}.

Inductive event : Type :=
  | Navigate (turn_id : string)
  | FetchSettles (task : nat) (outcome : fetch_outcome)
  | CallerResumes (caller : nat).

(** self._navigation_task = asyncio.create_task(self._do_navigate(turn_id)),
    reached by the frame [caller] (a new frame when [caller] is the length
    of [callers]); the frame then suspends on its own task. *)
Definition create_task (turn_id : string) (caller : nat) (c : t) : t :=
  let new := length (tasks c) in
  {| screen := screen c;
     _navigation_task := Some new;
     tasks := tasks c ++ [InFlight turn_id];
     callers := if (caller <? length (callers c))%nat
                then <[caller := AwaitOwn new]> (callers c)
                else callers c ++ [AwaitOwn new] |}.

(** [navigate_to_turn(turn_id)] up to its first [await]:
    if self._navigation_task and not self._navigation_task.done():
        self._navigation_task.cancel()
        try: await self._navigation_task
        except asyncio.CancelledError: pass
    self._navigation_task = asyncio.create_task(...) *)
Definition navigate_to_turn (turn_id : string) (c : t) : option t :=
  match _navigation_task c with
  | None => Some (create_task turn_id (length (callers c)) c)
  | Some old =>
      st ← tasks c !! old;
      if done st
      then Some (create_task turn_id (length (callers c)) c)
      else Some {| screen := screen c;
                   _navigation_task := Some old;
                   tasks := <[old := cancel st]> (tasks c);
                   callers := callers c ++ [AwaitOld old turn_id] |}
  end.

(** The loop resumes a task at its [await get_turns(...)]. *)
Definition resume_task (task : nat) (outcome : fetch_outcome) (c : t) : option t :=
  st ← tasks c !! task;
  run ← match st with
        | InFlight turn_id =>
            Some (TurnBrowserScreen._do_navigate turn_id outcome (screen c))
        | CancelRequested turn_id =>
            Some (TurnBrowserScreen._do_navigate turn_id
                    (FetchRaises CancelledError) (screen c))
        | _ => None
        end;
  Some {| screen := fst run;
          _navigation_task := _navigation_task c;
          tasks := <[task := settled (snd run)]> (tasks c);
          callers := callers c |}.

(** What [await task] gives a frame once the task is done: a cancelled
    task raises [CancelledError], which both [try] blocks of
    [navigate_to_turn] swallow; an exception of the task is re-raised. *)
Definition awaited (st : task_state) : option (result unit) :=
  match st with
  | Finished | Cancelled => Some (Ok tt)
  | Failed e => Some (Raise e)
  | InFlight _ | CancelRequested _ => None
  end.

(** The loop resumes a frame of [navigate_to_turn] whose awaited task is
    done. *)
Definition resume_caller (caller : nat) (c : t) : option t :=
  fr ← callers c !! caller;
  match fr with
  | AwaitOld old turn_id =>
      st ← tasks c !! old;
      r ← awaited st;
      match r with
      | Ok _ => Some (create_task turn_id caller c)
      | Raise e => Some {| screen := screen c;
                           _navigation_task := _navigation_task c;
                           tasks := tasks c;
                           callers := <[caller := Raised e]> (callers c) |}
      end
  | AwaitOwn own =>
      st ← tasks c !! own;
      r ← awaited st;
      Some {| screen := screen c;
              _navigation_task := _navigation_task c;
              tasks := tasks c;
              callers := <[caller := match r with
                                     | Ok _ => Returned
                                     | Raise e => Raised e
                                     end]> (callers c) |}
  | Returned | Raised _ => None
  end.

Definition step (c : t) (ev : event) : option t :=
  match ev with
  | Navigate turn_id => navigate_to_turn turn_id c
  | FetchSettles task outcome => resume_task task outcome c
  | CallerResumes caller => resume_caller caller c
  end.

(** A schedule: the events in the order the loop processes them. *)
Fixpoint run (c : t) (evs : list event) : option t :=
  match evs with
  | [] => Some c
  | ev :: evs' => c' ← step c ev; run c' evs'
  end.

Definition is_Navigate (ev : event) : bool :=
  match ev with
  | Navigate _ => true
  | _ => false
  end.

Definition is_AwaitOld (fr : caller_state) : bool :=
  match fr with
  | AwaitOld _ _ => true
  | _ => false
  end.

End Controller.

(** ** api_client.py: the event stream *)

(** The dict [{"event": event_type, "data": data}] that [stream_turn]
    yields. *)
Module StreamEvent.
Record t : Type := mk {
  event : string;
  data : pyval;
}.
End StreamEvent.

(** for x in xs: body(x) *)
Fixpoint for_each {S A} (body : A -> M S unit) (xs : list A) : M S unit :=
  match xs with
  | [] => mret tt
  | x :: xs' => body x;; for_each body xs'
  end.

Module APIClient.

(** What the generator has produced so far, in order: the events it
    yielded and the warnings it logged. *)
Inductive output : Type :=
  | Yield (ev : StreamEvent.t)
  | LogWarning (msg : string).

(** The two locals of the line loop and the output so far. *)
Record t : Type := mk {
  event_type : option string;
  data_lines : list string;
  emitted : list output;
}.

Definition initial : t :=
  {| event_type := None; data_lines := []; emitted := [] |}.

Definition emit (o : output) : M t unit :=
  modify (fun s => {| event_type := event_type s; data_lines := data_lines s;
                      emitted := emitted s ++ [o] |}).

Definition set_locals (ev : option string) (lines : list string) : M t unit :=
  modify (fun s => {| event_type := ev; data_lines := lines;
                      emitted := emitted s |}).

(** [try: body  except json.JSONDecodeError as e: handler(e)] *)
Definition try_except_json {A} (body : M t A) (handler : string -> M t A) : M t A :=
  fun s =>
    match body s with
    | (s', Raise (JSONDecodeError msg)) => handler msg s'
    | r => r
    end.

Definition yielded (outs : list output) : list StreamEvent.t :=
  flat_map (fun o => match o with Yield ev => [ev] | LogWarning _ => [] end) outs.

(** A frame of the wire format: [event: <name>], one [data: ] line per
    line of the payload, and the blank line that ends it. *)
Record frame : Type := mk_frame {
  name : string;
  payload : list string;
}.

Definition frame_lines (f : frame) : list string :=
  ("event: " +:+ name f) :: map (fun d => "data: " +:+ d) (payload f) ++ [""].

Definition data_section (f : frame) : string := String.concat nl (payload f).

(** A frame as the protocol sends it: it names its event and carries
    data. *)
Definition proper (f : frame) : Prop := name f <> "" /\ payload f <> [].

Section Parser.

(** [json.loads], raising [JSONDecodeError] on text that is not JSON. *)
Variable json_loads : string -> result pyval.

(** The arguments of the two [logger.debug] calls made before the
    [yield]; evaluating them can raise. *)
Definition log_event (event_type : string) (data : pyval) : M t unit :=
  if String.eqb event_type "block_delta" then
    _ ← lift (py_get data "delta_type" (PStr "unknown"));
    text ← lift (py_get data "text_delta" (PStr ""));
    _ ← lift (py_len text);
    mret tt
  else
    _ ← lift (py_keys data);
    mret tt.

(** One turn of [async for line in response.aiter_lines()]. *)
Definition feed_line (line : string) : M t unit :=
  s ← get_state;
  if String.prefix "event: " line then
    set_locals (Some (str_drop 7 line)) (data_lines s)
  else if String.prefix "data: " line then
    set_locals (event_type s) (data_lines s ++ [str_drop 6 line])
  else if String.eqb line "" then
    match event_type s, data_lines s with
    | Some name, _ :: _ =>
        if str_truthy name then
          let data_str := String.concat nl (data_lines s) in
          try_except_json
            (data ← lift (json_loads data_str);
             log_event name data;;
             emit (Yield (StreamEvent.mk name data)))
            (fun msg =>
               emit (LogWarning ("SSE malformed JSON: " +:+ msg +:+ " (data="
                                 +:+ str_take 100 data_str +:+ ")")));;
          set_locals None []
        else mret tt
    | _, _ => mret tt
    end
  else mret tt.

(** [stream_turn]: [status] is what [raise_for_status] does with the
    response, [lines] the lines [aiter_lines] delivers, [ending] how the
    transport ends after them. *)
Definition stream_turn (status : result unit) (lines : list string)
    (ending : result unit) : M t unit :=
  lift status;;
  set_locals None [];;
  for_each feed_line lines;;
  lift ending.

(** The data section of [f] is not JSON. *)
Definition malformed (f : frame) : Prop :=
  exists msg, json_loads (data_section f) = Raise (JSONDecodeError msg).

(** The data section of [f] is a JSON object; in a [block_delta] the
    field [text_delta], when present, is a value that has a length. *)
Definition well_formed (f : frame) : Prop :=
  exists items,
    json_loads (data_section f) = Ok (PDict items)
    /\ (name f = "block_delta" ->
        exists n, py_len (dict_get items "text_delta" (PStr "")) = Ok n).

(** What the generator is to produce for a frame: its event, or the
    warning about its data. *)
Definition frame_output (f : frame) : list output :=
  match json_loads (data_section f) with
  | Ok data => [Yield (StreamEvent.mk (name f) data)]
  | Raise (JSONDecodeError msg) =>
      [LogWarning ("SSE malformed JSON: " +:+ msg +:+ " (data="
                   +:+ str_take 100 (data_section f) +:+ ")")]
  | Raise _ => []
  end.

(** The events of the frames whose data is JSON, in order. *)
Definition events_of (fs : list frame) : list StreamEvent.t :=
  flat_map (fun f => match json_loads (data_section f) with
                     | Ok data => [StreamEvent.mk (name f) data]
                     | Raise _ => []
                     end) fs.

End Parser.

End APIClient.

(** ** screens/streaming.py *)

Module StreamingScreen.

(** A [rich.text.Text]: the pieces appended so far, each with its style. *)
Definition Text : Type := list (string * option string).

(** [text.plain]: the pieces joined in order. *)
Definition plain (t : Text) : string :=
  foldr (fun piece rest => fst piece +:+ rest) "" t.

(** What the screen does to its surroundings, in order. *)
Inductive effect : Type :=
  | Notify (msg : string)
  | Sleep (seconds : Z)
  | InterruptTurn (turn_id : string)
  | Dismiss (result : option string).

(** The locals of [start_streaming], the renderable held by the
    [#streaming-box] widget, and the effects so far. *)
Record t : Type := mk {
  content : Text;
  current_block_type : pyval;
  event_count : Z;
  streaming_box : Text;
  effects : list effect;
}.

Definition initial : t :=
  {| content := []; current_block_type := PNone; event_count := 0;
     streaming_box := []; effects := [] |}.

(** The rendering of [s'] continues that of [s]: the accumulated text has
    the earlier one as a prefix, and so has what the widget shows as long
    as the widget showed nothing but accumulated text. *)
Definition grows (s s' : t) : Prop :=
  content s `prefix_of` content s'
  /\ (streaming_box s `prefix_of` content s ->
      streaming_box s `prefix_of` streaming_box s'
      /\ streaming_box s' `prefix_of` content s').

(** [s'] has performed what [s] had performed and nothing more. *)
Definition same_effects (s s' : t) : Prop := effects s' = effects s.

Definition dismissed (s : t) : list (option string) :=
  flat_map (fun e => match e with Dismiss r => [r] | _ => [] end) (effects s).

Definition perform (e : effect) : M t unit :=
  modify (fun s => {| content := content s;
                      current_block_type := current_block_type s;
                      event_count := event_count s;
                      streaming_box := streaming_box s;
                      effects := effects s ++ [e] |}).

(** content.append(text, style): only a [str] can be appended. *)
Definition append (text : pyval) (style : option string) : M t unit :=
  match text with
  | PStr str =>
      modify (fun s => {| content := content s ++ [(str, style)];
                          current_block_type := current_block_type s;
                          event_count := event_count s;
                          streaming_box := streaming_box s;
                          effects := effects s |})
  | _ => raise (TypeError "Only str or Text can be appended to Text")
  end.

(** display.update(renderable) *)
Definition update (renderable : Text) : M t unit :=
  modify (fun s => {| content := content s;
                      current_block_type := current_block_type s;
                      event_count := event_count s;
                      streaming_box := renderable;
                      effects := effects s |}).

(** display.update(content) *)
Definition update_content : M t unit :=
  s ← get_state; update (content s).

Definition set_current_block_type (v : pyval) : M t unit :=
  modify (fun s => {| content := content s;
                      current_block_type := v;
                      event_count := event_count s;
                      streaming_box := streaming_box s;
                      effects := effects s |}).

Definition count_event : M t unit :=
  modify (fun s => {| content := content s;
                      current_block_type := current_block_type s;
                      event_count := event_count s + 1;
                      streaming_box := streaming_box s;
                      effects := effects s |}).

(** The locals as [start_streaming] sets them before the loop. *)
Definition init_locals : M t unit :=
  modify (fun s => {| content := [];
                      current_block_type := PNone;
                      event_count := 0;
                      streaming_box := streaming_box s;
                      effects := effects s |}).

Section Consumer.

(** [str(v)] for a value that is not a [str], as [f"[{block_type}]"]
    interpolates it. *)
Variable py_str : pyval -> string.

Definition format (v : pyval) : string :=
  match v with
  | PStr s => s
  | _ => py_str v
  end.

(** The label line of a block type. *)
Definition label (block_type : pyval) : string :=
  if py_is block_type "thinking" then "[thinking]" +:+ nl
  else if py_is block_type "text" then "[text]" +:+ nl
  else "[" +:+ format block_type +:+ "]" +:+ nl.

(** A delta that names a block type other than the current one switches
    to it and emits its label, as a [block_start] would. *)
Definition switch_on_delta (block_type : pyval) : M t unit :=
  s ← get_state;
  when (py_truthy block_type && negb (py_eqb block_type (current_block_type s)))
    (set_current_block_type block_type;;
     append (PStr (label block_type)) (Some "dim");;
     update_content).

(** The payload of a delta, by [delta_type]. *)
Definition render_delta (delta_type data : pyval) : M t unit :=
  if py_in delta_type ["text_delta"; "thinking_delta"] then
    text ← lift (py_get data "text_delta" (PStr ""));
    s ← get_state;
    when (py_truthy text && py_in (current_block_type s) ["thinking"; "text"])
      (append text None;; update_content)
  else if py_is delta_type "input_json_delta" then
    json_delta ← lift (py_get data "input_json_delta" (PStr ""));
    s ← get_state;
    when (py_truthy json_delta
          && py_in (current_block_type s) ["tool_use"; "tool_result"])
      (append json_delta None;; update_content)
  else mret tt.

(** The body of [async for event in stream_turn(...)]. *)
Definition process_event (ev : StreamEvent.t) : M t unit :=
  count_event;;
  let event_type := StreamEvent.event ev in
  let data := StreamEvent.data ev in
  if String.eqb event_type "block_start" then
    block_type ← lift (py_get data "block_type" PNone);
    s ← get_state;
    if negb (py_eqb block_type (current_block_type s)) then
      set_current_block_type block_type;;
      when (py_truthy block_type)
        (append (PStr (label block_type)) (Some "dim"));;
      update_content
    else mret tt
  else if String.eqb event_type "block_delta" then
    delta_type ← lift (py_get data "delta_type" PNone);
    block_type ← lift (py_get data "block_type" PNone);
    switch_on_delta block_type;;
    render_delta delta_type data
  else mret tt.

(** The renderable of the [except] branch. *)
Definition error_content (e : exn) : Text :=
  [ (nl +:+ "Streaming Error:" +:+ nl, Some "bold red");
    (exn_name e +:+ ": " +:+ exn_str e +:+ nl, Some "red");
    (nl +:+ "Check logs for details", Some "dim") ].

(** self.query_one("#streaming-box", Static) *)
Definition query_one (mounted : bool) : M t unit :=
  if mounted then mret tt else raise (NoMatches "#streaming-box").

(** The part of [start_streaming] up to the end of the stream: [events]
    are the events the iterator yields, and [ending] is how it ends after
    them, exhausted or raising. *)
Definition consume (mounted : bool) (events : list StreamEvent.t)
    (ending : result unit) : M t unit :=
  query_one mounted;;
  init_locals;;
  for_each process_event events;;
  lift ending.

(** [start_streaming] *)
Definition start_streaming (assistant_turn_id : string) (mounted : bool)
    (events : list StreamEvent.t) (ending : result unit) : M t unit :=
  try_except
    (consume mounted events ending;;
     s ← get_state;
     when (event_count s =? 0)
       (append (PStr (nl +:+ "[yellow]Warning: No events received from stream[/yellow]"))
               (Some "yellow");;
        update_content;;
        perform (Sleep 2));;
     perform (Dismiss (Some assistant_turn_id)))
    (fun e =>
       try_except
         (query_one mounted;; update (error_content e))
         (fun _ => mret tt);;
       perform (Notify ("Streaming error: " +:+ exn_str e));;
       perform (Sleep 3);;
       perform (Dismiss None)).

(** [action_cancel]: [interrupt] is the outcome of the interrupt call. *)
Definition action_cancel (assistant_turn_id : string) (interrupt : result unit)
    : M t unit :=
  try_except
    (perform (InterruptTurn assistant_turn_id);;
     lift interrupt;;
     perform (Notify "Streaming cancelled");;
     perform (Dismiss None))
    (fun e =>
       perform (Notify ("Error cancelling stream: " +:+ exn_str e));;
       perform (Dismiss None)).

End Consumer.

End StreamingScreen.

(** ** Fixtures

    The chain of the end-to-end scenario: [root] is followed by [A], and
    [A] has the two children [B] and [C]. *)

Module Fixtures.

Definition turn (id : string) (prev : option string) (siblings : list string)
  : Turn.t :=
  {| Turn.id := id; Turn.chat_id := "chat"; Turn.prev_turn_id := prev;
     Turn.role := "user"; Turn.status := "completed"; Turn.error := None;
     Turn.model := None; Turn.input_tokens := None; Turn.output_tokens := None;
     Turn.created_at := "2025-01-01T00:00:00Z"; Turn.completed_at := None;
     Turn.request_params := PNone; Turn.stop_reason := None;
     Turn.response_metadata := PNone; Turn.blocks := [];
     Turn.sibling_ids := siblings |}.

Definition page (turns : list Turn.t) : PaginatedTurnsResponse.t :=
  {| PaginatedTurnsResponse.turns := turns;
     PaginatedTurnsResponse.has_more_before := false;
     PaginatedTurnsResponse.has_more_after := false |}.

Definition root : Turn.t := turn "root" None ["root"].
Definition A : Turn.t := turn "A" (Some "root") ["A"].
Definition B : Turn.t := turn "B" (Some "A") ["B"; "C"].
Definition C : Turn.t := turn "C" (Some "A") ["B"; "C"].

(** A turn whose own id is missing from its sibling list, and one with no
    sibling list at all. *)
Definition stray : Turn.t := turn "X" None ["Y"; "Z"].
Definition alone : Turn.t := turn "X" None [].

Definition page_root : PaginatedTurnsResponse.t := page [root; A].
Definition page_A : PaginatedTurnsResponse.t := page [A; B; C].
Definition page_B : PaginatedTurnsResponse.t := page [B].
Definition page_C : PaginatedTurnsResponse.t := page [C].
Definition page_empty : PaginatedTurnsResponse.t := page [].

End Fixtures.

(** ** Key bindings of the turn browser *)

Module Keys.

(** The four navigation bindings: [w], [s], [a], [d]. *)
Inductive key : Type := W | S | A | D.

Definition action (k : key) : M TurnBrowserScreen.t (option string) :=
  match k with
  | W => TurnBrowserScreen.action_navigate_up
  | S => TurnBrowserScreen.action_navigate_down
  | A => TurnBrowserScreen.action_navigate_left
  | D => TurnBrowserScreen.action_navigate_right
  end.

(** A key press runs the bound action; the action either does nothing or
    calls [navigate_to_turn] with the id its guard let through.  [None]
    stands for an action that raised. *)
Definition press (k : key) (c : Controller.t) : option Controller.t :=
  match action k (Controller.screen c) with
  | (_, Ok (Some turn_id)) => Controller.navigate_to_turn turn_id c
  | (_, Ok None) => Some c
  | (_, Raise _) => None
  end.

End Keys.

(** The turn browser showing [B], and a controller whose only task is a
    navigation to [C] in flight. *)
Module Scenes.

Definition showing_B : TurnBrowserScreen.t :=
  fst (TurnBrowserScreen.on_mount (FetchOk Fixtures.page_B)
         TurnBrowserScreen.initial).

Definition to_C_in_flight : Controller.t :=
  {| Controller.screen := showing_B;
     Controller._navigation_task := Some 0%nat;
     Controller.tasks := [Controller.InFlight "C"];
     Controller.callers := [Controller.AwaitOwn 0] |}.

Definition empty_chat : TurnBrowserScreen.t :=
  fst (TurnBrowserScreen.on_mount (FetchOk Fixtures.page_empty)
         TurnBrowserScreen.initial).

End Scenes.

(** ** Supersession: the phases of a navigation that replaces another

    A navigation to [idB] is issued on the controller [c0] while the task
    [tA] of an earlier navigation is in flight.  The controller then goes
    through four phases: the old task has been asked to cancel; the old
    task has settled as cancelled; the new task is in flight; the new task
    has run to its end on the outcome of its own fetch. *)

Module Supersession.

Inductive phase : Type :=
  | Cancelling
  | Settled
  | Fetching
  | Committed (outcome : fetch_outcome).

Section Phases.

Variables (c0 : Controller.t) (tA : nat) (idA idB : string).

(** The task and the frame that the new navigation will create. *)
Definition tB : nat := length (Controller.tasks c0).
Definition cB : nat := length (Controller.callers c0).

(** [_do_navigate] for [idB] run on the screen as [c0] shows it. *)
Definition commit (outcome : fetch_outcome) : TurnBrowserScreen.t * result unit :=
  TurnBrowserScreen._do_navigate idB outcome (Controller.screen c0).

Definition screen_in (p : phase) : TurnBrowserScreen.t :=
  match p with
  | Committed outcome => fst (commit outcome)
  | _ => Controller.screen c0
  end.

Definition tasks_in (p : phase) : list Controller.task_state :=
  match p with
  | Cancelling => <[tA := Controller.CancelRequested idA]> (Controller.tasks c0)
  | Settled => <[tA := Controller.Cancelled]> (Controller.tasks c0)
  | Fetching =>
      <[tA := Controller.Cancelled]> (Controller.tasks c0)
      ++ [Controller.InFlight idB]
  | Committed outcome =>
      <[tA := Controller.Cancelled]> (Controller.tasks c0)
      ++ [Controller.settled (snd (commit outcome))]
  end.

(** Where the frame of the new navigation stands. *)
Definition frame_in (p : phase) (fr : Controller.caller_state) : Prop :=
  match p with
  | Cancelling | Settled => fr = Controller.AwaitOld tA idB
  | Fetching => fr = Controller.AwaitOwn tB
  | Committed _ => fr = Controller.AwaitOwn tB \/ fr = Controller.Returned
  end.

Definition nav_task_in (p : phase) : option nat :=
  match p with
  | Cancelling | Settled => Some tA
  | Fetching | Committed _ => Some tB
  end.

(** The controller [c] is in phase [p]. *)
Definition at_phase (p : phase) (c : Controller.t) : Prop :=
  Controller.screen c = screen_in p
  /\ Controller.tasks c = tasks_in p
  /\ Controller._navigation_task c = nav_task_in p
  /\ length (Controller.callers c) = S cB
  /\ (exists fr, Controller.callers c !! cB = Some fr /\ frame_in p fr)
  /\ (forall k fr, Controller.callers c !! k = Some fr -> k <> cB ->
        Controller.is_AwaitOld fr = false).

(** The new task exists only from the phase [Fetching] on. *)
Definition started (p : phase) : bool :=
  match p with
  | Cancelling | Settled => false
  | Fetching | Committed _ => true
  end.

(** The controller right after [navigate_to_turn idB] has run up to its
    first [await]. *)
Definition superseding : Controller.t :=
  {| Controller.screen := Controller.screen c0;
     Controller._navigation_task := Some tA;
     Controller.tasks := <[tA := Controller.CancelRequested idA]> (Controller.tasks c0);
     Controller.callers := Controller.callers c0 ++ [Controller.AwaitOld tA idB] |}.

(** How one step of the loop moves the phase. *)
Definition advances (p : phase) (ev : Controller.event)
    (p' : phase) : Prop :=
  (p' = p /\ exists k, ev = Controller.CallerResumes k
                      /\ (k = cB -> exists o, p = Committed o))
  \/ (p = Cancelling /\ p' = Settled
      /\ exists o, ev = Controller.FetchSettles tA o)
  \/ (p = Settled /\ p' = Fetching
      /\ ev = Controller.CallerResumes cB)
  \/ (exists o, p = Fetching /\ p' = Committed o
      /\ ev = Controller.FetchSettles tB o).

End Phases.

End Supersession.

(** A stream consumer inside a text block, and one inside a tool call. *)
Module Streams.

(** A stand-in for [str] on values that are not strings. *)
Definition no_str (v : pyval) : string := "?".

Definition in_block (block_type : string) : StreamingScreen.t :=
  fst (StreamingScreen.process_event no_str
         (StreamEvent.mk "block_start" (PDict [("block_type", PStr block_type)]))
         StreamingScreen.initial).

Definition text_delta : list (string * pyval) :=
  [("delta_type", PStr "text_delta"); ("text_delta", PStr "Hi")].

Definition json_delta : list (string * pyval) :=
  [("delta_type", PStr "input_json_delta"); ("input_json_delta", PStr "{}")].

Definition signature_delta : list (string * pyval) :=
  [("delta_type", PStr "signature_delta"); ("signature", PStr "c2ln")].

End Streams.

(** A stand-in for [json.loads] that knows one document, the empty
    object, and three frames, the second of which carries broken data. *)
Module Wire.

Definition loads (text : string) : result pyval :=
  if String.eqb text "{}" then Ok (PDict [])
  else Raise (JSONDecodeError "Expecting value").

Definition first : APIClient.frame := APIClient.mk_frame "block_start" ["{}"].
Definition broken : APIClient.frame := APIClient.mk_frame "block_delta" ["{oops"].
Definition last : APIClient.frame := APIClient.mk_frame "turn_complete" ["{}"].

End Wire.

(** The query and the target getter that each key action consults. *)
Module Directions.

Definition can_go (k : Keys.key) : NavigationState.t -> result bool :=
  match k with
  | Keys.W => NavigationState.can_go_up
  | Keys.S => NavigationState.can_go_down
  | Keys.A => NavigationState.can_go_left
  | Keys.D => NavigationState.can_go_right
  end.

Definition target (k : Keys.key) : NavigationState.t -> result (option string) :=
  match k with
  | Keys.W => NavigationState.prev_turn_id
  | Keys.S => NavigationState.next_turn_id
  | Keys.A => NavigationState.prev_sibling_id
  | Keys.D => NavigationState.next_sibling_id
  end.

End Directions.

(** ** models.py: the text of a turn *)

(** [Turn.text_content]:
    texts = [block.text_content for block in self.blocks
             if block.text_content and block.block_type in ["text", "thinking"]]
    return "\n".join(texts) if texts else "" *)
Definition Turn_texts (blocks : list TurnBlock.t) : list string :=
  flat_map (fun block =>
              if opt_truthy (TurnBlock.text_content block)
                 && existsb (String.eqb (TurnBlock.block_type block))
                            ["text"; "thinking"]
              then [default "" (TurnBlock.text_content block)]
              else []) blocks.

Definition Turn_text_content (self : Turn.t) : string :=
  match Turn_texts (Turn.blocks self) with
  | [] => ""
  | texts => String.concat nl texts
  end.

(** ** api_client.py and streaming.py together *)

Module Wired.

(** A line that the line loop of [stream_turn] passes over: it is not an
    [event: ] line, not a [data: ] line and not blank. *)
Definition passed_over (line : string) : bool :=
  negb (String.prefix "event: " line)
  && negb (String.prefix "data: " line)
  && negb (String.eqb line "").

(** [start_streaming] iterating over [stream_turn]: the consumer sees
    the events the generator yields, in order, and then the way the
    generator ends. *)
Definition start_streaming
    (json_loads : string -> result pyval) (py_str : pyval -> string)
    (assistant_turn_id : string) (mounted : bool)
    (status : result unit) (lines : list string) (ending : result unit)
  : M StreamingScreen.t unit :=
  let generator :=
    APIClient.stream_turn json_loads status lines ending APIClient.initial in
  StreamingScreen.start_streaming py_str assistant_turn_id mounted
    (APIClient.yielded (APIClient.emitted (fst generator))) (snd generator).

(** The data section of [f] is JSON. *)
Definition parses (json_loads : string -> result pyval)
    (f : APIClient.frame) : bool :=
  match json_loads (APIClient.data_section f) with
  | Ok _ => true
  | Raise _ => false
  end.

End Wired.

(** ** What the consumer may raise *)

(** [m] raises nothing but exceptions in [P]. *)
Definition raises_only {S A} (P : exn -> Prop) (m : M S A) : Prop :=
  forall s e, snd (m s) = Raise e -> P e.

(** The exceptions the event loop of [start_streaming] raises by itself:
    a value of the wrong type met while rendering. *)
Definition rendering_error (e : exn) : Prop :=
  (exists msg, e = AttributeError msg) \/ (exists msg, e = TypeError msg).

(** [s'] has counted as many events as [s]. *)
Definition same_count (s s' : StreamingScreen.t) : Prop :=
  StreamingScreen.event_count s' = StreamingScreen.event_count s.

(** The line shown when the stream ended without a single event. *)
Definition no_events_warning : string * option string :=
  (nl +:+ "[yellow]Warning: No events received from stream[/yellow]",
   Some "yellow").

(** ** app.py: quitting on a double Ctrl+C *)

Module MeridianCLI.

(** A timer made by [set_timer]: still to fire, fired, or stopped. *)
Inductive timer_state : Type := Waiting | Fired | Stopped.

(** The double Ctrl+C state of the app.  [_ctrl_c_timer] holds a timer by
    its position in [timers], the timers made so far. *)
Record t : Type := mk {
  _ctrl_c_pressed_once : bool;
  _ctrl_c_timer : option nat;
  timers : list timer_state;
  notifications : list string;
  exits : nat;
}.

Definition initial : t :=
  {| _ctrl_c_pressed_once := false; _ctrl_c_timer := None; timers := [];
     notifications := []; exits := 0 |}.

(** timer.stop(): a timer that is not waiting stays as it is. *)
Definition stop (i : nat) (ts : list timer_state) : list timer_state :=
  match ts !! i with
  | Some Waiting => <[i := Stopped]> ts
  | _ => ts
  end.

(** [action_handle_ctrl_c] *)
Definition action_handle_ctrl_c (s : t) : t :=
  if _ctrl_c_pressed_once s then
    {| _ctrl_c_pressed_once := _ctrl_c_pressed_once s;
       _ctrl_c_timer := _ctrl_c_timer s;
       timers := match _ctrl_c_timer s with
                 | Some i => stop i (timers s)
                 | None => timers s
                 end;
       notifications := notifications s;
       exits := S (exits s) |}
  else
    {| _ctrl_c_pressed_once := true;
       _ctrl_c_timer := Some (length (timers s));
       timers := timers s ++ [Waiting];
       notifications := notifications s ++ ["Press Ctrl+C again to quit"];
       exits := exits s |}.

(** [_reset_ctrl_c] *)
Definition _reset_ctrl_c (s : t) : t :=
  {| _ctrl_c_pressed_once := false;
     _ctrl_c_timer := None;
     timers := timers s;
     notifications := notifications s;
     exits := exits s |}.

(** What happens to the app: Ctrl+C is pressed, or the timer made as the
    [i]th fires and calls back.  Only a waiting timer fires. *)
Inductive event : Type :=
  | Press
  | Expire (i : nat).

Definition step (ev : event) (s : t) : option t :=
  match ev with
  | Press => Some (action_handle_ctrl_c s)
  | Expire i =>
      match timers s !! i with
      | Some Waiting =>
          Some (_reset_ctrl_c
                  {| _ctrl_c_pressed_once := _ctrl_c_pressed_once s;
                     _ctrl_c_timer := _ctrl_c_timer s;
                     timers := <[i := Fired]> (timers s);
                     notifications := notifications s;
                     exits := exits s |})
      | _ => None
      end
  end.

Fixpoint run (evs : list event) (s : t) : option t :=
  match evs with
  | [] => Some s
  | ev :: rest =>
      match step ev s with
      | Some s' => run rest s'
      | None => None
      end
  end.

(** The presses among [evs] that directly follow a press; [armed] tells
    whether a press came directly before [evs]. *)
Fixpoint second_presses (armed : bool) (evs : list event) : nat :=
  match evs with
  | [] => O
  | Press :: rest => ((if armed then 1 else 0) + second_presses true rest)%nat
  | Expire _ :: rest => second_presses false rest
  end.

Definition presses (evs : list event) : nat :=
  length (List.filter (fun ev => match ev with Press => true | _ => false end) evs).

(** At most one timer is waiting, the one the app holds, and the app
    holds a timer exactly while the flag is set. *)
Definition consistent (s : t) : Prop :=
  (_ctrl_c_pressed_once s = true <-> _ctrl_c_timer s <> None)
  /\ (forall i, timers s !! i = Some Waiting -> _ctrl_c_timer s = Some i)
  /\ (forall i, _ctrl_c_timer s = Some i -> (i < length (timers s))%nat).

End MeridianCLI.

(** ** logger.py: removing old log files *)

Module Logs.

(** A log file as [cleanup_old_logs] sees it: its name and the
    modification time [stat] reports for it. *)
Record file : Type := mk_file {
  name : string;
  st_mtime : Z;
}.

(** [sorted(files, key=lambda p: p.stat().st_mtime, reverse=True)]: the
    sort is stable, so among files of one modification time the order of
    the listing is kept.  [insert] puts a file before the first one that
    is not newer than it. *)
Fixpoint insert (f : file) (l : list file) : list file :=
  match l with
  | [] => [f]
  | g :: l' =>
      if st_mtime f <? st_mtime g then g :: insert f l' else f :: g :: l'
  end.

Definition sorted (files : list file) : list file := foldr insert [] files.

(** [l[k:]]: a negative [k] counts from the end. *)
Definition py_slice_from {A} (l : list A) (k : Z) : list A :=
  if k <? 0 then drop (Z.to_nat (len l + k)) l else drop (Z.to_nat k) l.

(** The files unlinked and the lines logged, in order. *)
Record t : Type := mk {
  unlinked : list file;
  debugs : list string;
  warnings : list string;
}.

Definition initial : t := {| unlinked := []; debugs := []; warnings := [] |}.

Definition debug (msg : string) : M t unit :=
  modify (fun s => {| unlinked := unlinked s; debugs := debugs s ++ [msg];
                      warnings := warnings s |}).

Definition warning (msg : string) : M t unit :=
  modify (fun s => {| unlinked := unlinked s; debugs := debugs s;
                      warnings := warnings s ++ [msg] |}).

(** old_file.unlink(): [outcome] is what the file system answers. *)
Definition unlink (outcome : file -> result unit) (f : file) : M t unit :=
  lift (outcome f);;
  modify (fun s => {| unlinked := unlinked s ++ [f]; debugs := debugs s;
                      warnings := warnings s |}).

(** [cleanup_old_logs]: [listing] is what globbing the directory and
    reading the modification times gives, a list of files or an
    exception. *)
Definition cleanup_old_logs (listing : result (list file)) (keep_count : Z)
    (outcome : file -> result unit) : M t unit :=
  try_except
    (files ← lift listing;
     for_each
       (fun old_file =>
          try_except
            (unlink outcome old_file;;
             debug ("Deleted old log file: " +:+ name old_file))
            (fun e =>
               warning ("Failed to delete old log " +:+ name old_file
                        +:+ ": " +:+ exn_str e)))
       (py_slice_from (sorted files) keep_count))
    (fun e => warning ("Failed to cleanup old logs: " +:+ exn_str e)).

(** The file system let the file go. *)
Definition removable (outcome : file -> result unit) (f : file) : bool :=
  match outcome f with
  | Ok _ => true
  | Raise _ => false
  end.

End Logs.

(** ** screens/params_editor.py: what the selects open on *)

Module ParamsEditorScreen.

Definition PROVIDER_OPTIONS : list (string * string) :=
  [ ("Anthropic", "anthropic");
    ("OpenAI", "openai");
    ("Lorem (test)", "lorem") ].

Definition MODEL_OPTIONS_BY_PROVIDER : list (string * list (string * string)) :=
  [ ("anthropic",
     [ ("Claude Haiku 4.5", "claude-haiku-4-5");
       ("Claude Sonnet 4.5", "claude-sonnet-4-5") ]);
    ("openai",
     [ ("GPT-4o", "gpt-4o");
       ("GPT-4o mini", "gpt-4o-mini");
       ("o1-preview", "o1-preview");
       ("o1-mini", "o1-mini") ]);
    ("lorem",
     [ ("Lorem Slow", "lorem-slow");
       ("Lorem Fast", "lorem-fast");
       ("Lorem Medium", "lorem-medium") ]) ].

Definition DEFAULT_PROVIDER : string := "lorem".

(** [v in {s1, s2, ...}] for a set of strings: a list or a dict cannot
    be hashed. *)
Definition py_in_set (v : pyval) (ss : list string) : result bool :=
  match v with
  | PList _ | PDict _ => Raise (TypeError "unhashable type")
  | _ => Ok (py_in v ss)
  end.

(** MODEL_OPTIONS_BY_PROVIDER.get(provider, []) *)
Fixpoint options_get (table : list (string * list (string * string)))
    (provider : string) : list (string * string) :=
  match table with
  | [] => []
  | (p, options) :: rest =>
      if String.eqb p provider then options else options_get rest provider
  end.

Definition model_options_for (provider : pyval) : result (list (string * string)) :=
  match provider with
  | PStr p => Ok (options_get MODEL_OPTIONS_BY_PROVIDER p)
  | PList _ | PDict _ => Raise (TypeError "unhashable type")
  | _ => Ok []
  end.

(** What [compose] hands to the two selects. *)
Record selection : Type := mk_selection {
  provider_value : pyval;
  model_options : list (string * string);
  model_value : pyval;
}.

(** The head of [compose]: the provider and the model the selects open
    on, from the current params. *)
Definition compose (params : list (string * pyval)) : result selection :=
  let provider_value := dict_get params "provider" (PStr DEFAULT_PROVIDER) in
  match py_in_set provider_value (map snd PROVIDER_OPTIONS) with
  | Raise e => Raise e
  | Ok known =>
      let provider_value :=
        if known then provider_value else PStr DEFAULT_PROVIDER in
      let model_value := dict_get params "model" PNone in
      match model_options_for provider_value with
      | Raise e => Raise e
      | Ok model_options =>
          match py_in_set model_value (map snd model_options) with
          | Raise e => Raise e
          | Ok known_model =>
              let model_value :=
                if known_model then model_value
                else match model_options with
                     | (_, first) :: _ => PStr first
                     | [] => PNone
                     end in
              Ok (mk_selection provider_value model_options model_value)
          end
      end
  end.

(** [_update_model_options]: the options and the value of the model
    select after the provider select changed to [provider]. *)
Definition _update_model_options (provider : string)
    : list (string * string) * option string :=
  let options := options_get MODEL_OPTIONS_BY_PROVIDER provider in
  match options with
  | [] => ([], None)
  | (_, first) :: _ => (options, Some first)
  end.

(** A provider of the provider select with one of its models. *)
Definition valid_pair (provider model : string) : Prop :=
  In provider (map snd PROVIDER_OPTIONS)
  /\ In model (map snd (options_get MODEL_OPTIONS_BY_PROVIDER provider)).

Definition unhashable (v : pyval) : bool :=
  match v with
  | PList _ | PDict _ => true
  | _ => false
  end.

End ParamsEditorScreen.

(** ** screens/chat_list.py *)

Module Chat.
Record t : Type := mk {
  id : string;
  title : string;
  project_id : string;
  created_at : string;
  updated_at : string;
}.
End Chat.

Module ChatListScreen.

(** An item of the [#chat-list] view: its label and the [chat_data]
    attribute, which only the items made for a chat carry. *)
Record item : Type := mk_item {
  label : string;
  chat_data : option Chat.t;
}.

Record t : Type := mk {
  list_view : list item;
  list_focused : bool;
  notifications : list string;
  current_chat_id : option string;
  pushed : list string;
}.

Definition initial : t :=
  {| list_view := []; list_focused := false; notifications := [];
     current_chat_id := None; pushed := [] |}.

(** list_view.append(item) *)
Definition append (i : item) : M t unit :=
  modify (fun s => {| list_view := list_view s ++ [i];
                      list_focused := list_focused s;
                      notifications := notifications s;
                      current_chat_id := current_chat_id s;
                      pushed := pushed s |}).

Definition focus : M t unit :=
  modify (fun s => {| list_view := list_view s;
                      list_focused := true;
                      notifications := notifications s;
                      current_chat_id := current_chat_id s;
                      pushed := pushed s |}).

Definition notify (msg : string) : M t unit :=
  modify (fun s => {| list_view := list_view s;
                      list_focused := list_focused s;
                      notifications := notifications s ++ [msg];
                      current_chat_id := current_chat_id s;
                      pushed := pushed s |}).

Definition placeholder : item :=
  mk_item "[dim]No chats yet. Press 'n' to create one.[/dim]" None.

Definition item_of (chat : Chat.t) : item :=
  mk_item (Chat.title chat) (Some chat).

(** [on_mount], from the point where [get_chats] settles. *)
Definition on_mount (fetch : result (list Chat.t)) : M t unit :=
  try_except
    (chats ← lift fetch;
     match chats with
     | [] => append placeholder
     | _ :: _ => for_each (fun chat => append (item_of chat)) chats
     end;;
     focus)
    (fun e => notify ("Error loading chats: " +:+ exn_str e)).

(** [on_list_view_selected] *)
Definition on_list_view_selected (selected : item) : M t unit :=
  match chat_data selected with
  | Some chat =>
      modify (fun s => {| list_view := list_view s;
                          list_focused := list_focused s;
                          notifications := notifications s;
                          current_chat_id := Some (Chat.id chat);
                          pushed := pushed s ++ ["turn_browser"] |})
  | None => mret tt
  end.

(** [create_chat], from the point where the call of the API settles;
    [reload] is what [get_chats] gives to the [on_mount] it awaits. *)
Definition create_chat (title : string) (created : result Chat.t)
    (reload : result (list Chat.t)) : M t unit :=
  try_except
    (_ ← lift created;
     notify ("Created chat: " +:+ title);;
     on_mount reload)
    (fun e => notify ("Error creating chat: " +:+ exn_str e)).

(** The items [on_mount] makes for a list of chats. *)
Definition items_for (chats : list Chat.t) : list item :=
  match chats with
  | [] => [placeholder]
  | _ :: _ => map item_of chats
  end.

End ChatListScreen.

(** ** screens/turn_browser.py: submitting a message *)

Module CreateTurnResponse.
Record t : Type := mk {
  user_turn : Turn.t;
  assistant_turn : Turn.t;
  stream_url : string;
}.
End CreateTurnResponse.

Module Submission.

Section Strip.

(** [str.isspace] on one character. *)
Variable isspace : Ascii.ascii -> bool.

Fixpoint lstrip (s : string) : string :=
  match s with
  | EmptyString => EmptyString
  | String c s' => if isspace c then lstrip s' else s
  end.

Fixpoint rstrip (s : string) : string :=
  match s with
  | EmptyString => EmptyString
  | String c s' =>
      match rstrip s' with
      | EmptyString => if isspace c then EmptyString else String c EmptyString
      | String d r => String c (String d r)
      end
  end.

(** [s.strip()] *)
Definition strip (s : string) : string := rstrip (lstrip s).

(** Every character of [s] is white space. *)
Fixpoint blank (s : string) : bool :=
  match s with
  | EmptyString => true
  | String c s' => isspace c && blank s'
  end.

Definition first_char (s : string) : option Ascii.ascii :=
  match s with
  | EmptyString => None
  | String c _ => Some c
  end.

Fixpoint last_char (s : string) : option Ascii.ascii :=
  match s with
  | EmptyString => None
  | String c EmptyString => Some c
  | String _ s' => last_char s'
  end.

(** The screens pushed and the calls deferred by the browser, beside the
    browser itself and the text of its input box. *)
Record t : Type := mk {
  browser : TurnBrowserScreen.t;
  input_text : string;
  confirmations : list string;
  submissions : list string;
  requests : list (option string * string);
  streaming_screens : list (Turn.t * Turn.t);
  navigations : list string;
}.

Definition on_browser {A} (m : M TurnBrowserScreen.t A) : M t A :=
  fun s =>
    let (b, r) := m (browser s) in
    ({| browser := b; input_text := input_text s;
        confirmations := confirmations s; submissions := submissions s;
        requests := requests s; streaming_screens := streaming_screens s;
        navigations := navigations s |}, r).

(** self.app.push_screen(ConfirmationScreen(content), on_submit) *)
Definition push_confirmation (content : string) : M t unit :=
  modify (fun s => {| browser := browser s; input_text := input_text s;
                      confirmations := confirmations s ++ [content];
                      submissions := submissions s; requests := requests s;
                      streaming_screens := streaming_screens s;
                      navigations := navigations s |}).

(** [on_submittable_text_area_submitted]: [_handle_submission] on the
    stripped text, unless nothing is left of it. *)
Definition on_submittable_text_area_submitted (text : string) : M t unit :=
  let content := strip text in
  if negb (str_truthy content) then mret tt
  else push_confirmation content.

(** [action_submit_input] *)
Definition action_submit_input (has_focus : bool) : M t unit :=
  if negb has_focus then mret tt
  else
    s ← get_state;
    let content := strip (input_text s) in
    if negb (str_truthy content) then mret tt
    else push_confirmation content.

(** The callback [on_submit] of [_handle_submission]. *)
Definition on_submit (content : string) (should_submit : bool) : M t unit :=
  when should_submit
    (modify (fun s => {| browser := browser s; input_text := "";
                         confirmations := confirmations s;
                         submissions := submissions s ++ [content];
                         requests := requests s;
                         streaming_screens := streaming_screens s;
                         navigations := navigations s |})).

End Strip.

(** [navigate_to_turn] with no navigation pending and none started
    while it waits: the task runs [_do_navigate], and a cancellation of
    the task is passed over. *)
Definition navigate_to_turn (turn_id : string) (page : fetch_outcome)
    : M TurnBrowserScreen.t unit :=
  fun s =>
    match TurnBrowserScreen._do_navigate turn_id page s with
    | (s', Raise CancelledError) => (s', Ok tt)
    | out => out
    end.

(** The callback [on_streaming_done] of [submit_message]. *)
Definition on_streaming_done (assistant_turn_id : option string) : M t unit :=
  match assistant_turn_id with
  | Some id =>
      when (str_truthy id)
        (modify (fun s => {| browser := browser s; input_text := input_text s;
                             confirmations := confirmations s;
                             submissions := submissions s;
                             requests := requests s;
                             streaming_screens := streaming_screens s;
                             navigations := navigations s ++ [id] |}))
  | None => mret tt
  end.

(** [submit_message]: [created] is what [create_turn] hands back, [page]
    what [get_turns] hands to the navigation to the user turn. *)
Definition submit_message (content : string)
    (created : result CreateTurnResponse.t) (page : fetch_outcome) : M t unit :=
  try_except
    (s ← get_state;
     let prev_turn_id :=
       match TurnBrowserScreen.current_turn (browser s) with
       | Some turn => Some (Turn.id turn)
       | None => None
       end in
     modify (fun s => {| browser := browser s; input_text := input_text s;
                         confirmations := confirmations s;
                         submissions := submissions s;
                         requests := requests s ++ [(prev_turn_id, content)];
                         streaming_screens := streaming_screens s;
                         navigations := navigations s |});;
     create_response ← lift created;
     on_browser
       (navigate_to_turn
          (Turn.id (CreateTurnResponse.user_turn create_response)) page);;
     modify (fun s => {| browser := browser s; input_text := input_text s;
                         confirmations := confirmations s;
                         submissions := submissions s;
                         requests := requests s;
                         streaming_screens :=
                           streaming_screens s
                           ++ [(CreateTurnResponse.user_turn create_response,
                                CreateTurnResponse.assistant_turn create_response)];
                         navigations := navigations s |}))
    (fun e =>
       on_browser
         (TurnBrowserScreen.notify
            ("Error submitting message: " +:+ exn_str e))).

End Submission.

(** ** screens/streaming.py: the user message box *)

Module UserMessageBox.

(** The lines of the [#user-message-box] log. *)
Definition t : Type := list string.

Definition write (line : string) : M t unit :=
  modify (fun lines => lines ++ [line]).

Definition clear : M t unit := modify (fun _ => []).

(** The body of the loop over [self.user_turn.blocks]. *)
Definition write_block (block : TurnBlock.t) : M t unit :=
  if String.eqb (TurnBlock.block_type block) "thinking" then
    write "[dim][thinking][/dim]";;
    when (opt_truthy (TurnBlock.text_content block))
      (write (default "" (TurnBlock.text_content block)));;
    write ""
  else if String.eqb (TurnBlock.block_type block) "text" then
    write "[dim][text][/dim]";;
    when (opt_truthy (TurnBlock.text_content block))
      (write (default "" (TurnBlock.text_content block)));;
    write ""
  else
    write ("[dim][" +:+ TurnBlock.block_type block +:+ "][/dim]");;
    write "".

(** [on_mount], up to the start of the worker: the user turn written to
    the top box.  A [Turn] has the attributes [sibling_ids] and
    [blocks], so both [hasattr] tests hold. *)
Definition on_mount (user_turn : Turn.t) : M t unit :=
  clear;;
  write ("[bold cyan]Turn ID:[/bold cyan] " +:+ str_take 8 (Turn.id user_turn));;
  write ("[bold cyan]Role:[/bold cyan] " +:+ Turn.role user_turn);;
  write ("[bold cyan]Status:[/bold cyan] " +:+ Turn.status user_turn);;
  when (opt_truthy (Turn.model user_turn))
    (write ("[bold cyan]Model:[/bold cyan] " +:+ default "" (Turn.model user_turn)));;
  when (opt_truthy (Turn.error user_turn))
    (write ("[red]Error:[/red] " +:+ default "" (Turn.error user_turn)));;
  (if match Turn.sibling_ids user_turn with [] => false | _ => true end
      && (1 <? len (Turn.sibling_ids user_turn)) then
     idx ← lift (Turn.sibling_index user_turn);
     write ("[dim]Sibling " +:+ str_of_Z (idx + 1) +:+ " of "
            +:+ str_of_Z (len (Turn.sibling_ids user_turn)) +:+ "[/dim]")
   else mret tt);;
  write "";;
  match Turn.blocks user_turn with
  | [] => mret tt
  | _ :: _ => for_each write_block (Turn.blocks user_turn)
  end.

End UserMessageBox.

(** * Properties *)

Local Open Scope Z_scope.

(** ** Lists and indices *)

Lemma py_getitem_in_range {A} (l : list A) (j : Z) :
  0 <= j < len l ->
  exists x, l !! Z.to_nat j = Some x /\ py_getitem l j = Ok x.
Proof.
  intros Hj. unfold py_getitem, len in *.
  assert (Hlt : (Z.to_nat j < length l)%nat) by lia.
  destruct (lookup_lt_is_Some_2 l _ Hlt) as [x Hx].
  exists x. split; [exact Hx|].
  replace (j <? 0) with false by (symmetry; apply Z.ltb_ge; lia).
  replace (0 <=? j) with true by (symmetry; apply Z.leb_le; lia).
  replace (j <? Z.of_nat (length l)) with true by (symmetry; apply Z.ltb_lt; lia).
  simpl. now rewrite Hx.
Qed.

(** [list.index] returns the first position of the value, and raises
    [ValueError], nothing else, exactly when the value is not there. *)
Lemma py_index_spec (l : list string) (x : string) :
  match py_index l x with
  | Ok i =>
      0 <= i < len l /\ l !! Z.to_nat i = Some x
      /\ forall j, (j < Z.to_nat i)%nat -> l !! j <> Some x
  | Raise e => e = ValueError /\ x ∉ l
  end.
Proof.
  induction l as [|y l IH]; simpl.
  - split; [reflexivity|]. apply not_elem_of_nil.
  - destruct (String.eqb_spec y x) as [->|Hne].
    + unfold len. simpl length. split; [lia|]. split; [reflexivity|].
      intros j Hj. simpl in Hj. lia.
    + destruct (py_index l x) as [i|e].
      * destruct IH as (Hi & Hx & Hfirst). unfold len in *. simpl length.
        replace (Z.to_nat (1 + i)) with (S (Z.to_nat i)) by lia.
        split; [lia|]. split; [exact Hx|].
        intros [|j] Hj; simpl.
        -- congruence.
        -- apply Hfirst. lia.
      * destruct IH as [-> Hnot]. split; [reflexivity|].
        rewrite elem_of_cons. intros [->|Hin]; [congruence | contradiction].
Qed.

Lemma sibling_index_total (T : Turn.t) :
  exists i, Turn.sibling_index T = Ok i /\ 0 <= i
            /\ (i < len (Turn.sibling_ids T) \/ i = 0).
Proof.
  unfold Turn.sibling_index.
  pose proof (py_index_spec (Turn.sibling_ids T) (Turn.id T)) as H.
  destruct (py_index (Turn.sibling_ids T) (Turn.id T)) as [i|e].
  - exists i. intuition lia.
  - destruct H as [-> _]. exists 0. intuition lia.
Qed.

(** ** C9: the sibling index *)

(** C9.  [Turn.sibling_index] is the position of the first occurrence of
    the turn's own id in [sibling_ids] when the id is present; when the id
    is absent, and so also when [sibling_ids] is empty, it is 0 and nothing
    is raised. *)
Theorem sibling_index_linear_search (T : Turn.t) :
  (Turn.id T ∈ Turn.sibling_ids T ->
     exists i : nat,
       Turn.sibling_index T = Ok (Z.of_nat i)
       /\ Turn.sibling_ids T !! i = Some (Turn.id T)
       /\ forall j, (j < i)%nat -> Turn.sibling_ids T !! j <> Some (Turn.id T))
  /\ (Turn.id T ∉ Turn.sibling_ids T -> Turn.sibling_index T = Ok 0)
  /\ (Turn.sibling_ids T = [] -> Turn.sibling_index T = Ok 0).
Proof.
  unfold Turn.sibling_index.
  pose proof (py_index_spec (Turn.sibling_ids T) (Turn.id T)) as H.
  destruct (py_index (Turn.sibling_ids T) (Turn.id T)) as [i|e].
  - destruct H as (Hi & Hx & Hfirst). split; [|split].
    + intros _. exists (Z.to_nat i). rewrite Z2Nat.id by lia. auto.
    + intros Hnot. exfalso. apply Hnot. eapply list_elem_of_lookup_2, Hx.
    + intros Hnil. rewrite Hnil in Hx. discriminate.
  - destruct H as [-> Hnot]. split; [|split].
    + intros Hin. contradiction.
    + reflexivity.
    + reflexivity.
Qed.

Lemma sibling_index_linear_search_witness :
  ((Turn.id Fixtures.C ∈ Turn.sibling_ids Fixtures.C)
   /\ exists i : nat,
       Turn.sibling_index Fixtures.C = Ok (Z.of_nat i)
       /\ Turn.sibling_ids Fixtures.C !! i = Some (Turn.id Fixtures.C)
       /\ forall j, (j < i)%nat ->
            Turn.sibling_ids Fixtures.C !! j <> Some (Turn.id Fixtures.C))
  /\ ((Turn.id Fixtures.stray ∉ Turn.sibling_ids Fixtures.stray)
      /\ Turn.sibling_index Fixtures.stray = Ok 0)
  /\ (Turn.sibling_ids Fixtures.alone = []
      /\ Turn.sibling_index Fixtures.alone = Ok 0).
Proof.
  assert (HC : Turn.id Fixtures.C ∈ Turn.sibling_ids Fixtures.C).
  { simpl. apply list_elem_of_In. simpl. auto. }
  assert (HX : Turn.id Fixtures.stray ∉ Turn.sibling_ids Fixtures.stray).
  { simpl. intros H. apply list_elem_of_In in H. simpl in H.
    intuition discriminate. }
  split; [|split].
  - split; [exact HC|].
    exact (proj1 (sibling_index_linear_search Fixtures.C) HC).
  - split; [exact HX|].
    exact (proj1 (proj2 (sibling_index_linear_search Fixtures.stray)) HX).
  - split; [reflexivity|].
    exact (proj2 (proj2 (sibling_index_linear_search Fixtures.alone)) eq_refl).
Defined.

(** ** C1: the four direction queries *)

Lemma up_query (n : NavigationState.t) :
  enabled_iff (NavigationState.can_go_up n)
              (Turn.prev_turn_id (NavigationState.current n) <> None)
  /\ NavigationState.prev_turn_id n
     = Ok (Turn.prev_turn_id (NavigationState.current n)).
Proof.
  unfold enabled_iff, NavigationState.can_go_up, NavigationState.prev_turn_id.
  split; [|reflexivity].
  destruct (Turn.prev_turn_id (NavigationState.current n)) as [p|].
  - exists true. split; [reflexivity|]. split; congruence.
  - exists false. split; [reflexivity|]. split; congruence.
Qed.

Lemma down_query (n : NavigationState.t) :
  let turns := PaginatedTurnsResponse.turns (NavigationState.response n) in
  enabled_iff (NavigationState.can_go_down n) (1 < len turns)
  /\ NavigationState.next_turn_id n = Ok (Turn.id <$> turns !! 1%nat)
  /\ (1 < len turns <-> is_Some (turns !! 1%nat)).
Proof.
  intros turns.
  unfold enabled_iff, NavigationState.can_go_down, NavigationState.next_turn_id.
  fold turns.
  assert (Hdec : 1 < len turns <-> is_Some (turns !! 1%nat)).
  { rewrite lookup_lt_is_Some. unfold len. lia. }
  split; [|split; [|exact Hdec]].
  - exists (1 <? len turns). split; [reflexivity|]. apply Z.ltb_lt.
  - destruct (Z.ltb_spec 1 (len turns)) as [Hlt|Hge].
    + destruct (py_getitem_in_range turns 1) as (x & Hx & ->); [lia|].
      change (Z.to_nat 1) with 1%nat in Hx. now rewrite Hx.
    + destruct (turns !! 1%nat) eqn:E; [|reflexivity].
      assert (1 < len turns) by (apply Hdec; eauto). lia.
Qed.

Lemma left_query (n : NavigationState.t) (i : Z) :
  let T := NavigationState.current n in
  Turn.sibling_index T = Ok i ->
  enabled_iff (NavigationState.can_go_left n) (0 < i)
  /\ NavigationState.prev_sibling_id n
     = Ok (if decide (0 < i) then Turn.sibling_ids T !! Z.to_nat (i - 1) else None)
  /\ (0 < i -> is_Some (Turn.sibling_ids T !! Z.to_nat (i - 1))).
Proof.
  intros T Hi.
  destruct (sibling_index_total T) as (i' & Hi' & H0 & Hlen).
  assert (i' = i) as -> by congruence. clear Hi'.
  unfold enabled_iff, NavigationState.can_go_left, NavigationState.prev_sibling_id.
  fold T. rewrite Hi.
  split; [|split].
  - exists (0 <? i). split; [reflexivity|]. apply Z.ltb_lt.
  - destruct (Z.ltb_spec 0 i) as [Hlt|Hge].
    + destruct (py_getitem_in_range (Turn.sibling_ids T) (i - 1)) as (x & Hx & ->);
        [lia|].
      rewrite decide_True by lia. now rewrite Hx.
    + now rewrite decide_False by lia.
  - intros Hlt. apply lookup_lt_is_Some. unfold len in Hlen. lia.
Qed.

Lemma right_query (n : NavigationState.t) (i : Z) :
  let T := NavigationState.current n in
  Turn.sibling_index T = Ok i ->
  enabled_iff (NavigationState.can_go_right n) (i < len (Turn.sibling_ids T) - 1)
  /\ NavigationState.next_sibling_id n
     = Ok (if decide (i < len (Turn.sibling_ids T) - 1)
           then Turn.sibling_ids T !! Z.to_nat (i + 1) else None)
  /\ (i < len (Turn.sibling_ids T) - 1 ->
      is_Some (Turn.sibling_ids T !! Z.to_nat (i + 1))).
Proof.
  intros T Hi.
  destruct (sibling_index_total T) as (i' & Hi' & H0 & Hlen).
  assert (i' = i) as -> by congruence. clear Hi'.
  unfold enabled_iff, NavigationState.can_go_right, NavigationState.next_sibling_id.
  fold T. rewrite Hi.
  split; [|split].
  - exists (i <? len (Turn.sibling_ids T) - 1). split; [reflexivity|].
    apply Z.ltb_lt.
  - destruct (Z.ltb_spec i (len (Turn.sibling_ids T) - 1)) as [Hlt|Hge].
    + destruct (py_getitem_in_range (Turn.sibling_ids T) (i + 1)) as (x & Hx & ->);
        [lia|].
      rewrite decide_True by lia. now rewrite Hx.
    + now rewrite decide_False by lia.
  - intros Hlt. apply lookup_lt_is_Some. unfold len in Hlt. lia.
Qed.



(** The end-to-end scenario.  From [B]: up leads to [A], left is disabled
    ([B] is the first sibling), right leads to [C].  From [C]: left leads
    to [B] and right is disabled.  From [A], fetched with its children:
    down leads to [B]. *)
Example scenario_from_B :
  let n := NavigationState.mk Fixtures.B Fixtures.page_B in
  NavigationState.prev_turn_id n = Ok (Some "A")
  /\ NavigationState.can_go_left n = Ok false
  /\ NavigationState.prev_sibling_id n = Ok None
  /\ NavigationState.can_go_right n = Ok true
  /\ NavigationState.next_sibling_id n = Ok (Some "C")
  /\ NavigationState.can_go_down n = Ok false
  /\ NavigationState.next_turn_id n = Ok None.
Proof. repeat split. Qed.

Example scenario_from_C :
  let n := NavigationState.mk Fixtures.C Fixtures.page_C in
  NavigationState.can_go_left n = Ok true
  /\ NavigationState.prev_sibling_id n = Ok (Some "B")
  /\ NavigationState.can_go_right n = Ok false
  /\ NavigationState.next_sibling_id n = Ok None.
Proof. repeat split. Qed.

Example scenario_from_A :
  let n := NavigationState.mk Fixtures.A Fixtures.page_A in
  NavigationState.can_go_down n = Ok true
  /\ NavigationState.next_turn_id n = Ok (Some "B")
  /\ NavigationState.can_go_up n = Ok true
  /\ NavigationState.prev_turn_id n = Ok (Some "root").
Proof. repeat split. Qed.

(** ** C4, C10: how [_do_navigate] ends *)

(** C4.  When the fetch of a navigation raises an exception other than
    [CancelledError], [_do_navigate] returns normally: the current turn,
    the navigation state and the display keep their values, and one
    notification carrying the error is raised.  Under the event loop the
    task ends finished, not failed, so the frame of [navigate_to_turn]
    awaiting it returns instead of raising. *)
Theorem navigation_failure_keeps_state
    (turn_id : string) (e : exn) (s : TurnBrowserScreen.t) :
  is_Exception e = true ->
  let out := TurnBrowserScreen._do_navigate turn_id (FetchRaises e) s in
  snd out = Ok tt
  /\ TurnBrowserScreen.current_turn (fst out) = TurnBrowserScreen.current_turn s
  /\ TurnBrowserScreen.nav_state (fst out) = TurnBrowserScreen.nav_state s
  /\ TurnBrowserScreen.display_box (fst out) = TurnBrowserScreen.display_box s
  /\ TurnBrowserScreen.input_disabled (fst out) = TurnBrowserScreen.input_disabled s
  /\ TurnBrowserScreen.input_tooltip (fst out) = TurnBrowserScreen.input_tooltip s
  /\ TurnBrowserScreen.notifications (fst out)
     = TurnBrowserScreen.notifications s ++ ["Navigation error: " +:+ exn_str e]
  /\ forall (c : Controller.t) (task caller : nat),
       Controller.screen c = s ->
       Controller.tasks c !! task = Some (Controller.InFlight turn_id) ->
       Controller.callers c !! caller = Some (Controller.AwaitOwn task) ->
       exists c' c'',
         Controller.step c (Controller.FetchSettles task (FetchRaises e)) = Some c'
         /\ Controller.screen c' = fst out
         /\ Controller.tasks c' !! task = Some Controller.Finished
         /\ Controller.step c' (Controller.CallerResumes caller) = Some c''
         /\ Controller.screen c'' = fst out
         /\ Controller.callers c'' !! caller = Some Controller.Returned.
Proof.
  intros He out.
  assert (Hout : out = (fst (TurnBrowserScreen.notify
                               ("Navigation error: " +:+ exn_str e) s), Ok tt)).
  { unfold out, TurnBrowserScreen._do_navigate, try_except, await_fetch.
    unfold mbind, M_bind, raise. now rewrite He. }
  rewrite Hout. cbn [fst snd].
  repeat (split; [reflexivity|]).
  intros c task caller Hs Htask Hcaller.
  assert (Hlt : (task < length (Controller.tasks c))%nat)
    by (eapply lookup_lt_Some, Htask).
  assert (Hltc : (caller < length (Controller.callers c))%nat)
    by (eapply lookup_lt_Some, Hcaller).
  eexists. eexists.
  split.
  { cbn [Controller.step]. unfold Controller.resume_task.
    rewrite Htask. cbn [mbind option_bind]. rewrite Hs.
    fold out. rewrite Hout. reflexivity. }
  cbn [Controller.screen Controller.tasks Controller.callers
       Controller._navigation_task fst snd Controller.settled].
  split; [reflexivity|].
  split; [now apply list_lookup_insert_eq|].
  split.
  { cbn [Controller.step]. unfold Controller.resume_caller.
    cbn [Controller.callers Controller.tasks]. rewrite Hcaller.
    cbn [mbind option_bind]. rewrite list_lookup_insert_eq by exact Hlt.
    reflexivity. }
  cbn [Controller.screen Controller.callers].
  split; [reflexivity|].
  now apply list_lookup_insert_eq.
Qed.

Lemma navigation_failure_keeps_state_witness :
  is_Exception (TransportError "timed out") = true
  /\ (let out := TurnBrowserScreen._do_navigate "C"
                   (FetchRaises (TransportError "timed out")) Scenes.showing_B in
      snd out = Ok tt
      /\ TurnBrowserScreen.current_turn (fst out) = Some Fixtures.B
      /\ TurnBrowserScreen.notifications (fst out)
         = ["Navigation error: timed out"]
      /\ exists c' c'',
           Controller.step Scenes.to_C_in_flight
             (Controller.FetchSettles 0 (FetchRaises (TransportError "timed out")))
           = Some c'
           /\ Controller.step c' (Controller.CallerResumes 0) = Some c''
           /\ Controller.callers c'' !! 0%nat = Some Controller.Returned).
Proof.
  split; [reflexivity|].
  destruct (navigation_failure_keeps_state "C" (TransportError "timed out")
              Scenes.showing_B eq_refl)
    as (Hr & Hturn & _ & _ & _ & _ & Hnote & Hloop).
  split; [exact Hr|]. split; [exact Hturn|]. split; [exact Hnote|].
  assert (Hs : Controller.screen Scenes.to_C_in_flight = Scenes.showing_B)
    by reflexivity.
  assert (Ht : Controller.tasks Scenes.to_C_in_flight !! 0%nat
               = Some (Controller.InFlight "C")) by reflexivity.
  assert (Hc : Controller.callers Scenes.to_C_in_flight !! 0%nat
               = Some (Controller.AwaitOwn 0)) by reflexivity.
  destruct (Hloop Scenes.to_C_in_flight 0%nat 0%nat Hs Ht Hc)
    as (c' & c'' & H1 & _ & _ & H2 & _ & H3).
  exists c', c''. auto.
Defined.

(** C10.  When the fetch of a navigation succeeds with an empty [turns]
    list, [_do_navigate] returns normally and the screen is exactly what
    it was: no assignment is made and no notification is raised. *)
Theorem empty_page_navigation_is_noop
    (turn_id : string) (r : PaginatedTurnsResponse.t) (s : TurnBrowserScreen.t) :
  PaginatedTurnsResponse.turns r = [] ->
  TurnBrowserScreen._do_navigate turn_id (FetchOk r) s = (s, Ok tt).
Proof.
  intros Hr.
  unfold TurnBrowserScreen._do_navigate, try_except, await_fetch.
  unfold mbind, M_bind, mret, M_ret. now rewrite Hr.
Qed.

Lemma empty_page_navigation_is_noop_witness :
  PaginatedTurnsResponse.turns Fixtures.page_empty = []
  /\ TurnBrowserScreen._do_navigate "C" (FetchOk Fixtures.page_empty)
       Scenes.showing_B
     = (Scenes.showing_B, Ok tt).
Proof.
  split; [reflexivity|].
  exact (empty_page_navigation_is_noop "C" Fixtures.page_empty
           Scenes.showing_B eq_refl).
Defined.

(** ** C8: opening an empty chat *)

Lemma action_without_nav_state (k : Keys.key) (s : TurnBrowserScreen.t) :
  TurnBrowserScreen.nav_state s = None ->
  Keys.action k s = (s, Ok None).
Proof.
  intros Hn. destruct k; cbn [Keys.action];
    unfold TurnBrowserScreen.action_navigate_up,
           TurnBrowserScreen.action_navigate_down,
           TurnBrowserScreen.action_navigate_left,
           TurnBrowserScreen.action_navigate_right,
           TurnBrowserScreen.action_target, get_state, mbind, M_bind;
    now rewrite Hn.
Qed.

(** C8.  When the initial fetch returns an empty [turns] list, [on_mount]
    writes the empty-state line to the display, leaves [nav_state] and
    [current_turn] at [None], and on the resulting screen each of the four
    key actions passes its guard to nothing: a key press starts no
    navigation and changes nothing. *)
Theorem empty_chat_initial_load (r : PaginatedTurnsResponse.t) :
  PaginatedTurnsResponse.turns r = [] ->
  let out := TurnBrowserScreen.on_mount (FetchOk r) TurnBrowserScreen.initial in
  snd out = Ok tt
  /\ TurnBrowserScreen.display_box (fst out)
     = ["[dim]No turns in this chat yet. Start typing below![/dim]"]
  /\ TurnBrowserScreen.nav_state (fst out) = None
  /\ TurnBrowserScreen.current_turn (fst out) = None
  /\ TurnBrowserScreen.notifications (fst out) = []
  /\ (forall k, Keys.action k (fst out) = (fst out, Ok None))
  /\ (forall k c, Controller.screen c = fst out -> Keys.press k c = Some c).
Proof.
  intros Hr out.
  assert (Hout : out =
    ({| TurnBrowserScreen.current_turn := None;
        TurnBrowserScreen.nav_state := None;
        TurnBrowserScreen.display_box :=
          ["[dim]No turns in this chat yet. Start typing below![/dim]"];
        TurnBrowserScreen.input_disabled := false;
        TurnBrowserScreen.input_tooltip := None;
        TurnBrowserScreen.input_focused := true;
        TurnBrowserScreen.notifications := [] |}, Ok tt)).
  { unfold out, TurnBrowserScreen.on_mount, try_except, await_fetch.
    unfold mbind, M_bind, mret, M_ret. now rewrite Hr. }
  rewrite Hout. cbn [fst snd].
  repeat (split; [reflexivity|]).
  split.
  - intros k. now apply action_without_nav_state.
  - intros k c Hc. unfold Keys.press.
    rewrite Hc, action_without_nav_state; reflexivity.
Qed.

Lemma empty_chat_initial_load_witness :
  PaginatedTurnsResponse.turns Fixtures.page_empty = []
  /\ TurnBrowserScreen.display_box Scenes.empty_chat
     = ["[dim]No turns in this chat yet. Start typing below![/dim]"]
  /\ TurnBrowserScreen.nav_state Scenes.empty_chat = None
  /\ (forall k, Keys.action k Scenes.empty_chat = (Scenes.empty_chat, Ok None)).
Proof.
  split; [reflexivity|].
  destruct (empty_chat_initial_load Fixtures.page_empty eq_refl)
    as (_ & Hd & Hn & _ & _ & Ha & _).
  split; [exact Hd|]. split; [exact Hn|]. exact Ha.
Defined.

(** ** C2: supersession of an in-flight navigation *)

Lemma do_navigate_cancelled (turn_id : string) (s : TurnBrowserScreen.t) :
  TurnBrowserScreen._do_navigate turn_id (FetchRaises CancelledError) s
  = (s, Raise CancelledError).
Proof. reflexivity. Qed.

(** [_do_navigate] lets nothing out but a [CancelledError]. *)
Lemma do_navigate_result (turn_id : string) (o : fetch_outcome)
    (s : TurnBrowserScreen.t) :
  snd (TurnBrowserScreen._do_navigate turn_id o s) = Ok tt
  \/ snd (TurnBrowserScreen._do_navigate turn_id o s) = Raise CancelledError.
Proof.
  unfold TurnBrowserScreen._do_navigate, try_except.
  match goal with |- context [match ?b s with _ => _ end] => destruct (b s) as [s' [[]|e]] end.
  - now left.
  - destruct e; cbn; auto.
Qed.

Lemma done_settled_do_navigate (turn_id : string) (o : fetch_outcome)
    (s : TurnBrowserScreen.t) :
  Controller.awaited
    (Controller.settled (snd (TurnBrowserScreen._do_navigate turn_id o s)))
  = Some (Ok tt).
Proof.
  destruct (do_navigate_result turn_id o s) as [-> | ->]; reflexivity.
Qed.

Lemma awaited_done (st : Controller.task_state) (r : result unit) :
  Controller.awaited st = Some r -> Controller.done st = true.
Proof. destruct st; cbn; congruence. Qed.

(** A task can be resumed only while it is not done; a task asked to
    cancel ends cancelled and leaves the screen alone. *)
Lemma resume_task_Some (task : nat) (o : fetch_outcome) (c c' : Controller.t) :
  Controller.resume_task task o c = Some c' ->
  (exists turn_id,
     Controller.tasks c !! task = Some (Controller.InFlight turn_id)
     /\ c' = {| Controller.screen :=
                  fst (TurnBrowserScreen._do_navigate turn_id o (Controller.screen c));
                Controller._navigation_task := Controller._navigation_task c;
                Controller.tasks :=
                  <[task := Controller.settled
                      (snd (TurnBrowserScreen._do_navigate turn_id o
                              (Controller.screen c)))]> (Controller.tasks c);
                Controller.callers := Controller.callers c |})
  \/ (exists turn_id,
     Controller.tasks c !! task = Some (Controller.CancelRequested turn_id)
     /\ c' = {| Controller.screen := Controller.screen c;
                Controller._navigation_task := Controller._navigation_task c;
                Controller.tasks :=
                  <[task := Controller.Cancelled]> (Controller.tasks c);
                Controller.callers := Controller.callers c |}).
Proof.
  unfold Controller.resume_task. intros H.
  destruct (Controller.tasks c !! task) as [st|] eqn:Est; [|discriminate].
  cbn in H. destruct st; cbn in H; try discriminate.
  - left. exists turn_id. split; [reflexivity|]. now injection H as <-.
  - right. exists turn_id. split; [reflexivity|]. now injection H as <-.
Qed.

Section SupersessionProof.

Variables (c0 : Controller.t) (tA : nat) (idA idB : string).

Hypothesis nav_is_A : Controller._navigation_task c0 = Some tA.
Hypothesis A_in_flight :
  Controller.tasks c0 !! tA = Some (Controller.InFlight idA).
Hypothesis others_done : forall t st,
  Controller.tasks c0 !! t = Some st -> t <> tA -> Controller.done st = true.
Hypothesis nobody_waiting : forall k fr,
  Controller.callers c0 !! k = Some fr -> Controller.is_AwaitOld fr = false.

Local Abbreviation tB := (Supersession.tB c0).
Local Abbreviation cB := (Supersession.cB c0).
Local Abbreviation at_phase := (Supersession.at_phase c0 tA idA idB).
Local Abbreviation tasks_in := (Supersession.tasks_in c0 tA idA idB).
Local Abbreviation commit := (Supersession.commit c0 idB).
Local Abbreviation superseding := (Supersession.superseding c0 tA idA idB).
Local Abbreviation advances := (Supersession.advances c0 tA).

Let tasks0 := Controller.tasks c0.

Lemma tA_lt : (tA < length tasks0)%nat.
Proof using All. eapply lookup_lt_Some, A_in_flight. Qed.

Lemma settled_tasks_done (x : Controller.task_state) (t : nat)
    (st : Controller.task_state) :
  Controller.done x = true ->
  <[tA := x]> tasks0 !! t = Some st -> Controller.done st = true.
Proof using All.
  intros Hx H. apply list_lookup_insert_Some in H as [(-> & <- & _) | [Hne H]].
  - exact Hx.
  - eapply others_done; eauto.
Qed.

(** The only task that is not done is the old one while it is being
    cancelled, and the new one while it is in flight. *)
Lemma pending_task (p : Supersession.phase) (t : nat) (st : Controller.task_state) :
  tasks_in p !! t = Some st -> Controller.done st = false ->
  (p = Supersession.Cancelling /\ t = tA /\ st = Controller.CancelRequested idA)
  \/ (p = Supersession.Fetching /\ t = tB /\ st = Controller.InFlight idB).
Proof using All.
  intros H Hnd. destruct p; cbn [Supersession.tasks_in] in H.
  - apply list_lookup_insert_Some in H as [(-> & <- & _) | [Hne H]].
    + left. auto.
    + rewrite (others_done _ _ H) in Hnd by congruence. discriminate.
  - rewrite (settled_tasks_done Controller.Cancelled t st) in Hnd;
      [discriminate | reflexivity | exact H].
  - apply lookup_app_Some in H as [H | [Hge H]].
    + rewrite (settled_tasks_done Controller.Cancelled t st) in Hnd;
        [discriminate | reflexivity | exact H].
    + rewrite length_insert in Hge, H. fold tB in Hge, H.
      destruct (t - tB)%nat as [|d] eqn:E; cbn in H; [|discriminate].
      right. repeat split; [|congruence]. unfold Supersession.tB in *. lia.
  - apply lookup_app_Some in H as [H | [Hge H]].
    + rewrite (settled_tasks_done Controller.Cancelled t st) in Hnd;
        [discriminate | reflexivity | exact H].
    + destruct (t - _)%nat as [|d]; cbn in H; [|discriminate].
      injection H as <-. unfold Supersession.commit in Hnd.
      pose proof (done_settled_do_navigate idB outcome (Controller.screen c0)) as Hd.
      apply awaited_done in Hd. congruence.
Qed.

Lemma navigate_cancels_first :
  Controller.step c0 (Controller.Navigate idB) = Some superseding.
Proof using All.
  cbn [Controller.step]. unfold Controller.navigate_to_turn.
  rewrite nav_is_A, A_in_flight. reflexivity.
Qed.

Lemma superseding_at_phase : at_phase Supersession.Cancelling superseding.
Proof using All.
  unfold Supersession.at_phase, Supersession.superseding; cbn.
  repeat split.
  - rewrite length_app. cbn. unfold Supersession.cB. lia.
  - exists (Controller.AwaitOld tA idB). split; [|reflexivity].
    unfold Supersession.cB. now rewrite lookup_app_r, Nat.sub_diag.
  - intros k fr Hk Hne. apply lookup_app_Some in Hk as [Hk | [Hge Hk]].
    + eapply nobody_waiting, Hk.
    + unfold Supersession.cB in Hne.
      destruct (k - length (Controller.callers c0))%nat as [|d] eqn:E;
        cbn in Hk; [lia | discriminate].
Qed.

Lemma resume_task_phase (p : Supersession.phase) (c c' : Controller.t)
    (t : nat) (o : fetch_outcome) :
  at_phase p c ->
  Controller.resume_task t o c = Some c' ->
  exists p', at_phase p' c' /\ advances p (Controller.FetchSettles t o) p'.
Proof using All.
  intros (Hscr & Htasks & Hnav & Hlen & Hframe & Hrest) Hstep.
  apply resume_task_Some in Hstep as [(id & Ht & ->) | (id & Ht & ->)];
    rewrite Htasks in Ht;
    (apply pending_task in Ht as [(-> & -> & Hst) | (-> & -> & Hst)];
       [| |reflexivity]); try discriminate.
  - (* the new task runs on the outcome of its fetch *)
    injection Hst as ->.
    exists (Supersession.Committed o). split.
    + unfold Supersession.at_phase; cbn.
      rewrite Hscr, Htasks. cbn [Supersession.screen_in Supersession.tasks_in].
      repeat split; try assumption.
      * rewrite insert_app_r_alt by (rewrite length_insert; reflexivity).
        rewrite length_insert. unfold Supersession.tB. now rewrite Nat.sub_diag.
      * destruct Hframe as (fr & Hfr & ->).
        exists (Controller.AwaitOwn tB). split; [exact Hfr|now left].
    + right. right. right. now exists o.
  - (* the old task is resumed with CancelledError *)
    exists Supersession.Settled. split.
    + unfold Supersession.at_phase; cbn.
      rewrite Htasks. cbn [Supersession.tasks_in].
      now rewrite list_insert_insert_eq.
    + right. left. repeat split. now exists o.
Qed.

Lemma resume_caller_phase (p : Supersession.phase) (c c' : Controller.t)
    (k : nat) :
  at_phase p c ->
  Controller.resume_caller k c = Some c' ->
  exists p', at_phase p' c' /\ advances p (Controller.CallerResumes k) p'.
Proof using All.
  intros (Hscr & Htasks & Hnav & Hlen & (frB & HfrB & Hfin) & Hrest) Hstep.
  unfold Controller.resume_caller in Hstep.
  destruct (Controller.callers c !! k) as [fr|] eqn:Ek; [|discriminate].
  cbn in Hstep. destruct fr as [old id | own | | e]; try discriminate.
  - (* a frame waiting for the task it cancelled: the new navigation *)
    assert (k = cB) as ->.
    { destruct (decide (k = cB)) as [|Hne]; [assumption|].
      specialize (Hrest _ _ Ek Hne). discriminate. }
    rewrite HfrB in Ek. injection Ek as ->.
    destruct p; cbn in Hfin; try discriminate;
      [| |destruct Hfin; discriminate];
      injection Hfin as -> ->;
      rewrite Htasks in Hstep; cbn [Supersession.tasks_in] in Hstep;
      rewrite list_lookup_insert_eq in Hstep by apply tA_lt;
      cbn in Hstep; [discriminate|].
    injection Hstep as <-.
    exists Supersession.Fetching. split; [|right; right; left; auto].
    unfold Supersession.at_phase, Controller.create_task; cbn.
    rewrite Htasks, Hlen. cbn [Supersession.tasks_in].
    rewrite length_insert. fold tasks0.
    rewrite Nat.leb_refl.
    repeat split; try assumption.
    + now rewrite length_insert.
    + exists (Controller.AwaitOwn tB). split; [|reflexivity].
      apply list_lookup_insert_eq. lia.
    + intros k fr Hk Hne. rewrite list_lookup_insert_ne in Hk by congruence.
      eapply Hrest; eauto.
  - (* a frame waiting for its own task *)
    destruct (Controller.tasks c !! own) as [st|] eqn:Eown; [|discriminate].
    cbn in Hstep.
    destruct (Controller.awaited st) as [r|] eqn:Er; [|discriminate].
    cbn in Hstep. injection Hstep as <-.
    assert (HkB : k = cB ->
              exists o, p = Supersession.Committed o /\ r = Ok tt).
    { intros ->. rewrite HfrB in Ek. injection Ek as ->.
      rewrite Htasks in Eown.
      destruct p; cbn in Hfin; try discriminate;
        [|destruct Hfin as [Hfin|Hfin]; [|discriminate]];
        injection Hfin as ->;
        cbn [Supersession.tasks_in] in Eown;
        rewrite lookup_app_r in Eown by (rewrite length_insert; reflexivity);
        rewrite length_insert in Eown; unfold Supersession.tB in Eown;
        rewrite Nat.sub_diag in Eown; injection Eown as <-;
        [discriminate|].
      unfold Supersession.commit in Er.
      rewrite done_settled_do_navigate in Er. injection Er as <-. eauto. }
    exists p. split.
    2:{ left. split; [reflexivity|]. exists k. split; [reflexivity|].
        intros Hk. destruct (HkB Hk) as (o & -> & _). eauto. }
    assert (Hnew : Controller.is_AwaitOld
                     (match r with
                      | Ok _ => Controller.Returned
                      | Raise e => Controller.Raised e
                      end) = false) by (destruct r; reflexivity).
    assert (Hk : (k < length (Controller.callers c))%nat)
      by (eapply lookup_lt_Some, Ek).
    unfold Supersession.at_phase; cbn.
    repeat split; try assumption.
    + now rewrite length_insert.
    + destruct (decide (k = cB)) as [->|Hne].
      * eexists. split; [now apply list_lookup_insert_eq|].
        destruct (HkB eq_refl) as (o & -> & ->). cbn. now right.
      * exists frB. split; [|exact Hfin].
        now rewrite list_lookup_insert_ne.
    + intros k' fr' Hk' Hne.
      apply list_lookup_insert_Some in Hk' as [(-> & <- & _) | [_ Hk']].
      * exact Hnew.
      * eapply Hrest; eauto.
Qed.

(** Every step that is not a further navigation keeps the controller in
    one of the four phases. *)
Lemma step_phase (p : Supersession.phase) (c c' : Controller.t)
    (ev : Controller.event) :
  at_phase p c ->
  Controller.is_Navigate ev = false ->
  Controller.step c ev = Some c' ->
  exists p', at_phase p' c' /\ advances p ev p'.
Proof using All.
  intros Hp Hev Hstep. destruct ev as [id | t o | k]; [discriminate | |].
  - eapply resume_task_phase; eauto.
  - eapply resume_caller_phase; eauto.
Qed.

(** Over a whole schedule: the controller ends in a phase; it is in the
    last one exactly when the fetch of the new task has settled, and then
    on the outcome of that fetch. *)
Lemma run_phase (evs : list Controller.event) :
  forall (p : Supersession.phase) (c c' : Controller.t),
  at_phase p c ->
  forallb (fun ev => negb (Controller.is_Navigate ev)) evs = true ->
  Controller.run c evs = Some c' ->
  exists p', at_phase p' c'
    /\ (Supersession.started p = true -> Supersession.started p' = true)
    /\ (forall o, p = Supersession.Committed o -> p' = Supersession.Committed o)
    /\ (forall o, In (Controller.FetchSettles tB o) evs ->
          p' = Supersession.Committed o)
    /\ (forall o, p' = Supersession.Committed o ->
          p = Supersession.Committed o \/ In (Controller.FetchSettles tB o) evs).
Proof using All.
  induction evs as [|ev evs IH]; intros p c c' Hp Hevs Hrun.
  - injection Hrun as <-. exists p.
    split; [exact Hp|]. split; [auto|]. split; [auto|].
    split; [intros o []|auto].
  - cbn in Hrun, Hevs. apply andb_true_iff in Hevs as [Hev Hevs].
    apply negb_true_iff in Hev.
    destruct (Controller.step c ev) as [c1|] eqn:Estep; [|discriminate].
    cbn in Hrun.
    destruct (step_phase p c c1 ev Hp Hev Estep) as (p1 & Hp1 & Hadv).
    destruct (IH p1 c1 c' Hp1 Hevs Hrun) as (p' & Hp' & Hst & Hkeep & Hin & Hfrom).
    pose proof tA_lt as HltA. fold tB in HltA.
    exists p'. split; [exact Hp'|].
    destruct Hadv as [(-> & k & -> & _) | [(-> & -> & o1 & ->) |
                      [(-> & -> & ->) | (o1 & -> & -> & ->)]]].
    + (* a frame returned: same phase *)
      split; [exact Hst|]. split; [exact Hkeep|]. split.
      * intros o [Hhd | Htl]; [discriminate | auto].
      * intros o Ho. destruct (Hfrom o Ho); [now left | right; now right].
    + (* the old task settled *)
      split; [discriminate|]. split; [discriminate|]. split.
      * intros o [Hhd | Htl]; [|auto]. injection Hhd as Heq _.
        unfold Supersession.tB in Heq. subst tasks0. lia.
      * intros o Ho. destruct (Hfrom o Ho); [discriminate | right; now right].
    + (* the new task was created *)
      split; [discriminate|]. split; [discriminate|]. split.
      * intros o [Hhd | Htl]; [discriminate | auto].
      * intros o Ho. destruct (Hfrom o Ho); [discriminate | right; now right].
    + (* the fetch of the new task settled *)
      split; [intros _; apply Hst; reflexivity|]. split; [discriminate|]. split.
      * intros o [Hhd | Htl]; [|auto]. injection Hhd as <-. now apply Hkeep.
      * intros o Ho. right. rewrite (Hkeep o1 eq_refl) in Ho.
        injection Ho as ->. now left.
Qed.

(** Each phase can be left by the step that ends it, so the schedule in
    which both fetches settle exists. *)
Lemma progress_cancelling (c : Controller.t) (oA : fetch_outcome) :
  at_phase Supersession.Cancelling c ->
  exists c', Controller.step c (Controller.FetchSettles tA oA) = Some c'
             /\ at_phase Supersession.Settled c'.
Proof using All.
  intros Hp.
  assert (exists c', Controller.resume_task tA oA c = Some c') as [c' Hc'].
  { destruct Hp as (_ & Htasks & _). unfold Controller.resume_task.
    rewrite Htasks. cbn [Supersession.tasks_in].
    rewrite list_lookup_insert_eq by apply tA_lt. cbn. eauto. }
  exists c'. split; [exact Hc'|].
  destruct (resume_task_phase _ _ _ _ _ Hp Hc') as (p' & Hp' & Hadv).
  destruct Hadv as [(_ & k & Hk & _) | [(_ & -> & _) | [(Hd & _) | (o & Hd & _)]]];
    try discriminate. exact Hp'.
Qed.

Lemma progress_settled (c : Controller.t) :
  at_phase Supersession.Settled c ->
  exists c', Controller.step c (Controller.CallerResumes cB) = Some c'
             /\ at_phase Supersession.Fetching c'.
Proof using All.
  intros Hp.
  assert (exists c', Controller.resume_caller cB c = Some c') as [c' Hc'].
  { destruct Hp as (_ & Htasks & _ & _ & (fr & Hfr & ->) & _).
    unfold Controller.resume_caller. rewrite Hfr. cbn.
    rewrite Htasks. cbn [Supersession.tasks_in].
    rewrite list_lookup_insert_eq by apply tA_lt. cbn. eauto. }
  exists c'. split; [exact Hc'|].
  destruct (resume_caller_phase _ _ _ _ Hp Hc') as (p' & Hp' & Hadv).
  destruct Hadv as [(_ & k & Hev & Hk) | [(Hd & _) | [(_ & -> & _) | (o & Hd & _)]]];
    try discriminate; [|exact Hp'].
  injection Hev as <-. destruct (Hk eq_refl) as (o & Hd). discriminate.
Qed.

Lemma progress_fetching (c : Controller.t) (oB : fetch_outcome) :
  at_phase Supersession.Fetching c ->
  exists c', Controller.step c (Controller.FetchSettles tB oB) = Some c'
             /\ at_phase (Supersession.Committed oB) c'
             /\ Controller.callers c' !! cB = Some (Controller.AwaitOwn tB).
Proof using All.
  intros Hp.
  assert (exists c', Controller.resume_task tB oB c = Some c'
                     /\ Controller.callers c' = Controller.callers c)
    as (c' & Hc' & Hcallers).
  { destruct Hp as (_ & Htasks & _). unfold Controller.resume_task.
    rewrite Htasks. cbn [Supersession.tasks_in].
    rewrite lookup_app_r by (rewrite length_insert; reflexivity).
    rewrite length_insert. unfold Supersession.tB. rewrite Nat.sub_diag.
    cbn. eauto. }
  exists c'. split; [exact Hc'|].
  destruct (resume_task_phase _ _ _ _ _ Hp Hc') as (p' & Hp' & Hadv).
  destruct Hadv as [(_ & k & Hk & _) | [(Hd & _) | [(Hd & _) | (o & _ & -> & Ho)]]];
    try discriminate.
  injection Ho as <-. split; [exact Hp'|].
  rewrite Hcallers. destruct Hp as (_ & _ & _ & _ & (fr & Hfr & ->) & _).
  exact Hfr.
Qed.

Lemma progress_committed (c : Controller.t) (o : fetch_outcome) :
  at_phase (Supersession.Committed o) c ->
  Controller.callers c !! cB = Some (Controller.AwaitOwn tB) ->
  exists c', Controller.step c (Controller.CallerResumes cB) = Some c'
             /\ at_phase (Supersession.Committed o) c'
             /\ Controller.callers c' !! cB = Some Controller.Returned.
Proof using All.
  intros Hp Hfr.
  assert (exists c', Controller.resume_caller cB c = Some c'
                     /\ Controller.callers c' !! cB = Some Controller.Returned)
    as (c' & Hc' & Hret).
  { destruct Hp as (_ & Htasks & _ & Hlen & _). unfold Controller.resume_caller.
    rewrite Hfr. cbn. rewrite Htasks. cbn [Supersession.tasks_in].
    rewrite lookup_app_r by (rewrite length_insert; reflexivity).
    rewrite length_insert. unfold Supersession.tB at 1. rewrite Nat.sub_diag.
    cbn. unfold Supersession.commit. rewrite done_settled_do_navigate. cbn.
    eexists. split; [reflexivity|]. cbn.
    apply list_lookup_insert_eq. lia. }
  exists c'. split; [exact Hc'|]. split; [|exact Hret].
  destruct (resume_caller_phase _ _ _ _ Hp Hc') as (p' & Hp' & Hadv).
  destruct Hadv as [(-> & _) | [(Hd & _) | [(Hd & _) | (o' & Hd & _)]]];
    try discriminate. exact Hp'.
Qed.

End SupersessionProof.



(** The race on the fixtures: the turn browser shows [B] with a navigation
    to [C] in flight when a navigation to [A] is issued.  The page of [C]
    arrives all the same; the screen ends on [A]. *)
Example late_page_is_discarded :
  exists c,
    Controller.run Scenes.to_C_in_flight
      [Controller.Navigate "A";
       Controller.FetchSettles 0 (FetchOk Fixtures.page_C);
       Controller.CallerResumes 0;
       Controller.CallerResumes 1;
       Controller.FetchSettles 1 (FetchOk Fixtures.page_A);
       Controller.CallerResumes 1] = Some c
    /\ TurnBrowserScreen.current_turn (Controller.screen c) = Some Fixtures.A
    /\ TurnBrowserScreen.nav_state (Controller.screen c)
       = Some (NavigationState.mk Fixtures.A Fixtures.page_A)
    /\ TurnBrowserScreen.notifications (Controller.screen c) = []
    /\ Controller.tasks c = [Controller.Cancelled; Controller.Finished]
    /\ Controller.callers c = [Controller.Returned; Controller.Returned].
Proof. eexists. split; [vm_compute; reflexivity|]. vm_compute. repeat split. Qed.

(** Why [supersession] asks that no other navigation be waiting to start.
    Two navigations issued while the task of a first one is being
    cancelled both wait for that task, and each then creates its own task
    without looking at the other's: both fetches are in flight, and the
    one that settles last sets the screen, here the one issued first. *)
Example two_navigations_waiting :
  exists c c',
    Controller.run Scenes.to_C_in_flight
      [Controller.Navigate "A";
       Controller.Navigate "root";
       Controller.FetchSettles 0 (FetchRaises CancelledError);
       Controller.CallerResumes 1;
       Controller.CallerResumes 2] = Some c
    /\ Controller.tasks c
       = [Controller.Cancelled; Controller.InFlight "A"; Controller.InFlight "root"]
    /\ Controller.run c
         [Controller.FetchSettles 2 (FetchOk Fixtures.page_root);
          Controller.FetchSettles 1 (FetchOk Fixtures.page_A)] = Some c'
    /\ TurnBrowserScreen.current_turn (Controller.screen c') = Some Fixtures.A.
Proof.
  eexists. eexists. split; [vm_compute; reflexivity|].
  split; [reflexivity|]. split; [vm_compute; reflexivity|]. reflexivity.
Qed.

(** ** Relations kept by monadic code *)

Section Preserves.

Context {S : Type} (R : S -> S -> Prop) `{!PreOrder R}.

Lemma preserves_ret {A} (a : A) : preserves R (mret a : M S A).
Proof. intros s. reflexivity. Qed.

Lemma preserves_raise {A} (e : exn) : preserves R (raise e : M S A).
Proof. intros s. reflexivity. Qed.

Lemma preserves_lift {A} (r : result A) : preserves R (lift r : M S A).
Proof. intros s. reflexivity. Qed.

Lemma preserves_get : preserves R (get_state : M S S).
Proof. intros s. reflexivity. Qed.

Lemma preserves_bind {A B} (m : M S A) (k : A -> M S B) :
  preserves R m -> (forall a, preserves R (k a)) -> preserves R (m ≫= k).
Proof.
  intros Hm Hk s. unfold mbind, M_bind.
  specialize (Hm s). destruct (m s) as [s1 [a|e]]; cbn in *.
  - etransitivity; [exact Hm | apply Hk].
  - exact Hm.
Qed.

Lemma preserves_when (c : bool) (m : M S unit) :
  preserves R m -> preserves R (when c m).
Proof. intros Hm. destruct c; [exact Hm | apply preserves_ret]. Qed.

Lemma preserves_try_except {A} (body : M S A) (handler : exn -> M S A) :
  preserves R body -> (forall e, preserves R (handler e)) ->
  preserves R (try_except body handler).
Proof.
  intros Hb Hh s. unfold try_except.
  specialize (Hb s). destruct (body s) as [s1 [a|e]]; cbn in *; [exact Hb|].
  destruct (is_Exception e); cbn; [|exact Hb].
  etransitivity; [exact Hb | apply Hh].
Qed.

Lemma preserves_for_each {A} (body : A -> M S unit) (xs : list A) :
  (forall x, preserves R (body x)) -> preserves R (for_each body xs).
Proof.
  intros Hb. induction xs as [|x xs IH]; cbn [for_each].
  - apply preserves_ret.
  - apply preserves_bind; [apply Hb | intros _; exact IH].
Qed.

End Preserves.

(** A loop over [xs ++ ys] is the loop over [xs] followed, unless it
    raised, by the loop over [ys]. *)
Lemma for_each_app {S A} (body : A -> M S unit) (xs ys : list A) (s : S) :
  for_each body (xs ++ ys) s
  = match for_each body xs s with
    | (s1, Ok _) => for_each body ys s1
    | (s1, Raise e) => (s1, Raise e)
    end.
Proof.
  revert s. induction xs as [|x xs IH]; intros s; cbn [for_each app].
  - reflexivity.
  - unfold mbind, M_bind. destruct (body x s) as [s1 [[]|e]]; [apply IH | reflexivity].
Qed.

(** ** C3: rendering is append-only *)

#[local] Instance grows_preorder : PreOrder StreamingScreen.grows.
Proof.
  split.
  - intros s. split; [reflexivity|]. intros H. split; [reflexivity | exact H].
  - intros s1 s2 s3 [Hc12 Hb12] [Hc23 Hb23]. split.
    + etransitivity; eassumption.
    + intros H1. destruct (Hb12 H1) as [H12 H2].
      destruct (Hb23 H2) as [H23 H3]. split; [|exact H3].
      etransitivity; eassumption.
Qed.

Lemma str_app_assoc (a b c : string) : (a +:+ b) +:+ c = a +:+ (b +:+ c).
Proof.
  induction a as [|ch a IH]; [reflexivity|].
  change (String ch ((a +:+ b) +:+ c) = String ch (a +:+ (b +:+ c))).
  now rewrite IH.
Qed.

Lemma str_app_nil_r (a : string) : a +:+ "" = a.
Proof.
  induction a as [|ch a IH]; [reflexivity|].
  change (String ch (a +:+ "") = String ch a). now rewrite IH.
Qed.

Lemma str_length_app (a b : string) :
  String.length (a +:+ b) = (String.length a + String.length b)%nat.
Proof.
  induction a as [|ch a IH]; [reflexivity|].
  change (Datatypes.S (String.length (a +:+ b))
          = Datatypes.S (String.length a + String.length b)).
  now rewrite IH.
Qed.

Lemma plain_app (t k : StreamingScreen.Text) :
  StreamingScreen.plain (t ++ k)
  = StreamingScreen.plain t +:+ StreamingScreen.plain k.
Proof.
  induction t as [|[piece style] t IH]; [reflexivity|].
  change (piece +:+ StreamingScreen.plain (t ++ k)
          = (piece +:+ StreamingScreen.plain t) +:+ StreamingScreen.plain k).
  now rewrite IH, str_app_assoc.
Qed.

Lemma grows_append (text : pyval) (style : option string) :
  preserves StreamingScreen.grows (StreamingScreen.append text style).
Proof.
  intros s. destruct text; try reflexivity. cbn. split.
  - now apply prefix_app_r.
  - intros H. split; [reflexivity|]. now apply prefix_app_r.
Qed.

Lemma grows_update_content :
  preserves StreamingScreen.grows StreamingScreen.update_content.
Proof. intros s. cbn. split; [reflexivity|]. intros H. split; [exact H | reflexivity]. Qed.

Lemma grows_set_current_block_type (v : pyval) :
  preserves StreamingScreen.grows (StreamingScreen.set_current_block_type v).
Proof. intros s. cbn. split; [reflexivity|]. intros H. split; [reflexivity | exact H]. Qed.

Lemma grows_count_event :
  preserves StreamingScreen.grows StreamingScreen.count_event.
Proof. intros s. cbn. split; [reflexivity|]. intros H. split; [reflexivity | exact H]. Qed.

Lemma grows_perform (e : StreamingScreen.effect) :
  preserves StreamingScreen.grows (StreamingScreen.perform e).
Proof. intros s. cbn. split; [reflexivity|]. intros H. split; [reflexivity | exact H]. Qed.

(** Walk through monadic code, one construct at a time; [base] closes the
    goals about the primitive operations. *)
Ltac preserve_with base :=
  repeat first
    [ match goal with |- PreOrder _ => apply _ end
    | apply preserves_ret
    | apply preserves_lift
    | apply preserves_get
    | apply preserves_raise
    | base
    | assumption
    | apply preserves_when
    | apply preserves_bind; [| |intro]
    | apply preserves_for_each; [|intro]
    | match goal with
      | |- preserves _ (if ?c then _ else _) => destruct c
      end ].

Ltac preserve :=
  preserve_with ltac:(first
    [ apply grows_append
    | apply grows_update_content
    | apply grows_set_current_block_type
    | apply grows_count_event
    | apply grows_perform ]).

Section ConsumerProofs.

Variable py_str : pyval -> string.

Lemma grows_switch_on_delta (block_type : pyval) :
  preserves StreamingScreen.grows
    (StreamingScreen.switch_on_delta py_str block_type).
Proof. unfold StreamingScreen.switch_on_delta. preserve. Qed.

Lemma grows_render_delta (delta_type data : pyval) :
  preserves StreamingScreen.grows
    (StreamingScreen.render_delta delta_type data).
Proof. unfold StreamingScreen.render_delta. preserve. Qed.

Lemma grows_process_event (ev : StreamEvent.t) :
  preserves StreamingScreen.grows (StreamingScreen.process_event py_str ev).
Proof.
  unfold StreamingScreen.process_event.
  pose proof grows_switch_on_delta as Hswitch.
  pose proof grows_render_delta as Hrender.
  preserve; first [apply Hswitch | apply Hrender].
Qed.

End ConsumerProofs.

(** C3.  Feed the consumer any sequence of events and then any further
    events: what the [#streaming-box] widget shows after the longer
    sequence is what it showed after the shorter one followed by
    additional pieces.  Its plain text extends the earlier plain text, its
    length does not decrease, and the same holds of the accumulated
    [content].  With a single further event this is the statement for each
    processed event. *)
Theorem rendering_is_append_only
    (py_str : pyval -> string) (evs more : list StreamEvent.t) :
  let after := fun events =>
    fst (for_each (StreamingScreen.process_event py_str) events
           StreamingScreen.initial) in
  exists added : StreamingScreen.Text,
    StreamingScreen.streaming_box (after (evs ++ more))
    = StreamingScreen.streaming_box (after evs) ++ added
    /\ StreamingScreen.plain (StreamingScreen.streaming_box (after (evs ++ more)))
       = StreamingScreen.plain (StreamingScreen.streaming_box (after evs))
         +:+ StreamingScreen.plain added
    /\ (String.length
          (StreamingScreen.plain (StreamingScreen.streaming_box (after evs)))
        <= String.length
          (StreamingScreen.plain
             (StreamingScreen.streaming_box (after (evs ++ more)))))%nat
    /\ StreamingScreen.content (after evs)
       `prefix_of` StreamingScreen.content (after (evs ++ more)).
Proof.
  intros after.
  pose proof (preserves_for_each StreamingScreen.grows
                (StreamingScreen.process_event py_str))
    as Hloop.
  assert (Hfirst : StreamingScreen.grows StreamingScreen.initial (after evs))
    by (apply Hloop, grows_process_event).
  assert (Hthen : StreamingScreen.grows (after evs) (after (evs ++ more))).
  { unfold after. rewrite for_each_app.
    destruct (for_each (StreamingScreen.process_event py_str) evs
                StreamingScreen.initial) as [s1 [[]|e]]; cbn [fst].
    - apply Hloop, grows_process_event.
    - reflexivity. }
  destruct Hfirst as [_ Hbox]. specialize (Hbox ltac:(reflexivity)) as [_ Hbox].
  destruct Hthen as [Hcontent Hshown].
  destruct (Hshown Hbox) as [[added Hadded] _].
  exists added. split; [exact Hadded|].
  rewrite Hadded, plain_app, str_length_app.
  split; [reflexivity|]. split; [lia | exact Hcontent].
Qed.

(** A scripted stream: a thinking block, a text block opened by a delta
    that names its type, and a tool call whose arguments are streamed. *)
Example scripted_stream (py_str : pyval -> string) :
  let delta kind key text :=
    StreamEvent.mk "block_delta" (PDict [("delta_type", PStr kind); (key, PStr text)]) in
  let s := fst (for_each (StreamingScreen.process_event py_str)
             [ StreamEvent.mk "block_start" (PDict [("block_type", PStr "thinking")]);
               delta "thinking_delta" "text_delta" "hm";
               delta "input_json_delta" "input_json_delta" "{skipped}";
               StreamEvent.mk "block_delta"
                 (PDict [("delta_type", PStr "text_delta");
                         ("block_type", PStr "text");
                         ("text_delta", PStr "Hi")]);
               delta "signature_delta" "signature" "xyz";
               StreamEvent.mk "block_start" (PDict [("block_type", PStr "tool_use")]);
               delta "input_json_delta" "input_json_delta" "{}";
               StreamEvent.mk "turn_complete" (PDict []) ]
             StreamingScreen.initial) in
  StreamingScreen.plain (StreamingScreen.streaming_box s)
  = "[thinking]" +:+ nl +:+ "hm" +:+ "[text]" +:+ nl +:+ "Hi"
    +:+ "[tool_use]" +:+ nl +:+ "{}"
  /\ StreamingScreen.event_count s = 8.
Proof. split; reflexivity. Qed.

(** ** C5: the payload of a delta *)

Section DeltaProofs.

Variable py_str : pyval -> string.

Lemma switch_on_delta_returns (block_type : pyval) (s : StreamingScreen.t) :
  snd (StreamingScreen.switch_on_delta py_str block_type s) = Ok tt
  /\ (StreamingScreen.content
        (fst (StreamingScreen.switch_on_delta py_str block_type s))
      = StreamingScreen.content s
      \/ StreamingScreen.content
           (fst (StreamingScreen.switch_on_delta py_str block_type s))
         = StreamingScreen.content s
           ++ [(StreamingScreen.label py_str block_type, Some "dim")]).
Proof.
  unfold StreamingScreen.switch_on_delta, get_state, mbind, M_bind.
  destruct (py_truthy block_type
            && negb (py_eqb block_type (StreamingScreen.current_block_type s)));
    cbn; auto.
Qed.

(** A [block_delta] whose data is a dict: count the event, switch the
    block type when the delta names another one, then render the
    payload. *)
Lemma process_block_delta (items : list (string * pyval)) (s : StreamingScreen.t) :
  StreamingScreen.process_event py_str
    (StreamEvent.mk "block_delta" (PDict items)) s
  = StreamingScreen.render_delta (dict_get items "delta_type" PNone) (PDict items)
      (fst ((StreamingScreen.count_event;;
             StreamingScreen.switch_on_delta py_str
               (dict_get items "block_type" PNone)) s)).
Proof.
  unfold StreamingScreen.process_event.
  cbn [StreamEvent.event StreamEvent.data].
  change (String.eqb "block_delta" "block_start") with false.
  change (String.eqb "block_delta" "block_delta") with true.
  cbv beta iota delta [mbind M_bind lift py_get StreamingScreen.count_event
                       modify fst snd].
  match goal with
  | |- context [StreamingScreen.switch_on_delta py_str ?b ?s0] =>
      pose proof (switch_on_delta_returns b s0) as [Hret _];
      destruct (StreamingScreen.switch_on_delta py_str b s0) as [s1 r]
  end.
  cbn in Hret. subst r. reflexivity.
Qed.

(** The payload [key] of a delta is rendered, or not, by the current
    block type alone. *)
Lemma render_payload (key : string) (kinds : list string)
    (items : list (string * pyval)) (s : StreamingScreen.t) :
  let payload := dict_get items key (PStr "") in
  let out :=
    (text ← lift (py_get (PDict items) key (PStr ""));
     s' ← get_state;
     when (py_truthy text && py_in (StreamingScreen.current_block_type s') kinds)
       (StreamingScreen.append text None;; StreamingScreen.update_content)) s in
  (py_in (StreamingScreen.current_block_type s) kinds = false -> out = (s, Ok tt))
  /\ (py_in (StreamingScreen.current_block_type s) kinds = true ->
      forall str, payload = PStr str ->
        snd out = Ok tt
        /\ StreamingScreen.plain (StreamingScreen.content (fst out))
           = StreamingScreen.plain (StreamingScreen.content s) +:+ str
        /\ (str <> "" ->
            StreamingScreen.content (fst out)
            = StreamingScreen.content s ++ [(str, None)]
            /\ StreamingScreen.streaming_box (fst out)
               = StreamingScreen.content (fst out))).
Proof.
  intros payload out. unfold out, mbind, M_bind, lift, py_get, get_state.
  fold payload. split.
  - intros ->. now rewrite andb_false_r.
  - intros -> str ->. rewrite andb_true_r. unfold py_truthy, str_truthy.
    destruct (String.eqb_spec str "") as [->|Hne]; cbn [negb when].
    + split; [reflexivity|]. split; [|congruence].
      cbn [mret M_ret fst]. now rewrite str_app_nil_r.
    + unfold StreamingScreen.update_content, StreamingScreen.update,
        StreamingScreen.append, get_state, modify, mbind, M_bind.
      cbn [fst snd StreamingScreen.content StreamingScreen.streaming_box].
      split; [reflexivity|]. split; [|auto].
      rewrite plain_app.
      change (StreamingScreen.plain [(str, None)]) with (str +:+ "").
      now rewrite str_app_nil_r.
Qed.

End DeltaProofs.

Lemma py_is_false (v : pyval) (s : string) : v <> PStr s -> py_is v s = false.
Proof.
  intros Hne. destruct v; try reflexivity. cbn.
  apply String.eqb_neq. congruence.
Qed.



(** ** C6: the terminal value of a stream *)

#[local] Instance same_effects_preorder : PreOrder StreamingScreen.same_effects.
Proof.
  split.
  - intros s. reflexivity.
  - intros s1 s2 s3 H12 H23. unfold StreamingScreen.same_effects in *. congruence.
Qed.

Lemma dismissed_app (s s' : StreamingScreen.t) (es : list StreamingScreen.effect) :
  StreamingScreen.effects s' = StreamingScreen.effects s ++ es ->
  StreamingScreen.dismissed s'
  = StreamingScreen.dismissed s
    ++ flat_map (fun e => match e with
                          | StreamingScreen.Dismiss r => [r]
                          | _ => []
                          end) es.
Proof.
  unfold StreamingScreen.dismissed. intros ->. apply flat_map_app.
Qed.

(** [try: m; k  except Exception as e: h(e)], split at the end of [m]. *)
Lemma try_except_bind {S A B} (m : M S A) (k : A -> M S B)
    (h : exn -> M S B) (s : S) :
  try_except (m ≫= k) h s
  = match m s with
    | (s1, Ok a) => try_except (k a) h s1
    | (s1, Raise e) => if is_Exception e then h e s1 else (s1, Raise e)
    end.
Proof.
  unfold try_except, mbind, M_bind. destruct (m s) as [s1 [a|e]]; reflexivity.
Qed.

(** Run the primitive operations of the streaming screen. *)
Ltac run_monad :=
  cbv beta iota delta
    [mbind M_bind mret M_ret try_except when get_state modify lift raise
     StreamingScreen.update_content StreamingScreen.update
     StreamingScreen.perform StreamingScreen.append StreamingScreen.query_one
     is_Exception];
  cbn [StreamingScreen.content StreamingScreen.current_block_type
       StreamingScreen.event_count StreamingScreen.streaming_box
       StreamingScreen.effects fst snd].

Ltac quiet :=
  preserve_with ltac:(first
    [ match goal with
      | |- preserves _ (StreamingScreen.append ?t _) =>
          intros ?; destruct t; reflexivity
      end
    | match goal with
      | |- preserves _ (StreamingScreen.query_one ?m) =>
          intros ?; destruct m; reflexivity
      end
    | (intros ?; reflexivity) ]).

Section TerminalProofs.

Variable py_str : pyval -> string.

(** Up to the end of the stream the consumer performs nothing: it only
    renders. *)
Lemma consume_is_quiet (mounted : bool) (events : list StreamEvent.t)
    (ending : result unit) :
  preserves StreamingScreen.same_effects
    (StreamingScreen.consume py_str mounted events ending).
Proof.
  unfold StreamingScreen.consume, StreamingScreen.process_event,
    StreamingScreen.switch_on_delta, StreamingScreen.render_delta,
    StreamingScreen.update_content.
  quiet.
Qed.

(** What [start_streaming] does once the stream has ended, by the way it
    ended. *)
Lemma start_streaming_cases (id : string) (mounted : bool)
    (events : list StreamEvent.t) (ending : result unit) (s : StreamingScreen.t) :
  let streamed := StreamingScreen.consume py_str mounted events ending s in
  let out := StreamingScreen.start_streaming py_str id mounted events ending s in
  match snd streamed with
  | Ok _ =>
      snd out = Ok tt
      /\ StreamingScreen.effects (fst out)
         = StreamingScreen.effects s
           ++ (if StreamingScreen.event_count (fst streamed) =? 0
               then [StreamingScreen.Sleep 2] else [])
           ++ [StreamingScreen.Dismiss (Some id)]
  | Raise e =>
      if is_Exception e
      then snd out = Ok tt
           /\ StreamingScreen.effects (fst out)
              = StreamingScreen.effects s
                ++ [StreamingScreen.Notify ("Streaming error: " +:+ exn_str e);
                    StreamingScreen.Sleep 3;
                    StreamingScreen.Dismiss None]
      else out = (fst streamed, Raise e)
           /\ StreamingScreen.effects (fst out) = StreamingScreen.effects s
  end.
Proof.
  intros streamed out.
  pose proof (consume_is_quiet mounted events ending s) as Hquiet.
  fold streamed in Hquiet. unfold StreamingScreen.same_effects in Hquiet.
  unfold out, StreamingScreen.start_streaming.
  rewrite !try_except_bind. fold streamed.
  destruct streamed as [s1 [[]|e]]; cbn [fst snd] in *.
  - run_monad. destruct (StreamingScreen.event_count s1 =? 0); cbn;
      rewrite Hquiet, <- ?app_assoc; now split.
  - destruct (is_Exception e) eqn:He; [|now split].
    run_monad. destruct mounted; cbn; rewrite Hquiet, <- ?app_assoc; now split.
Qed.

End TerminalProofs.

(** [action_cancel] calls the interrupt endpoint for the turn, then
    notifies and dismisses with [None], whether the call returned or
    raised. *)
Lemma action_cancel_effects (id : string) (interrupt : result unit)
    (s : StreamingScreen.t) :
  (forall e, interrupt = Raise e -> is_Exception e = true) ->
  let out := StreamingScreen.action_cancel id interrupt s in
  snd out = Ok tt
  /\ exists note,
       StreamingScreen.effects (fst out)
       = StreamingScreen.effects s
         ++ [StreamingScreen.InterruptTurn id;
             StreamingScreen.Notify note;
             StreamingScreen.Dismiss None].
Proof.
  intros Hexc out. unfold out, StreamingScreen.action_cancel.
  rewrite try_except_bind. cbn [StreamingScreen.perform modify].
  rewrite try_except_bind.
  destruct interrupt as [[]|e]; cbn [lift].
  - run_monad. split; [reflexivity|]. eexists. now rewrite <- !app_assoc.
  - rewrite (Hexc e eq_refl). run_monad.
    split; [reflexivity|]. eexists. now rewrite <- !app_assoc.
Qed.



(** ** C7: malformed frames *)

Lemma prefix_app (a s : string) : String.prefix a (a +:+ s) = true.
Proof.
  induction a as [|ch a IH].
  - now destruct s.
  - change (String.prefix (String ch a) (String ch (a +:+ s)) = true).
    cbn [String.prefix]. now destruct (Ascii.ascii_dec ch ch).
Qed.

Lemma event_line (name : string) :
  String.prefix "event: " ("event: " +:+ name) = true
  /\ str_drop 7 ("event: " +:+ name) = name.
Proof. split; [apply prefix_app | reflexivity]. Qed.

Lemma data_line (d : string) :
  String.prefix "event: " ("data: " +:+ d) = false
  /\ String.prefix "data: " ("data: " +:+ d) = true
  /\ str_drop 6 ("data: " +:+ d) = d.
Proof. split; [reflexivity|]. split; [apply prefix_app | reflexivity]. Qed.

Section ParserProofs.

Variable json_loads : string -> result pyval.

Local Abbreviation feed := (APIClient.feed_line json_loads).

Lemma feed_event_line (name : string) (s : APIClient.t) :
  feed ("event: " +:+ name) s
  = ({| APIClient.event_type := Some name;
        APIClient.data_lines := APIClient.data_lines s;
        APIClient.emitted := APIClient.emitted s |}, Ok tt).
Proof.
  unfold APIClient.feed_line, get_state, mbind, M_bind.
  destruct (event_line name) as [-> ->]. reflexivity.
Qed.

Lemma feed_data_line (d : string) (s : APIClient.t) :
  feed ("data: " +:+ d) s
  = ({| APIClient.event_type := APIClient.event_type s;
        APIClient.data_lines := APIClient.data_lines s ++ [d];
        APIClient.emitted := APIClient.emitted s |}, Ok tt).
Proof.
  unfold APIClient.feed_line, get_state, mbind, M_bind.
  destruct (data_line d) as (-> & -> & ->). reflexivity.
Qed.

Lemma feed_data_lines (ds : list string) (s : APIClient.t) :
  for_each feed (map (fun d => "data: " +:+ d) ds) s
  = ({| APIClient.event_type := APIClient.event_type s;
        APIClient.data_lines := APIClient.data_lines s ++ ds;
        APIClient.emitted := APIClient.emitted s |}, Ok tt).
Proof.
  revert s. induction ds as [|d ds IH]; intros s; cbn [map for_each].
  - rewrite app_nil_r. now destruct s.
  - unfold mbind at 1, M_bind at 1. rewrite feed_data_line, IH. cbn.
    now rewrite <- app_assoc.
Qed.

(** The blank line that ends a frame whose lines have been read into
    clean locals: the frame is dispatched and the locals are reset. *)
Lemma feed_blank_line (f : APIClient.frame) (outs : list APIClient.output) :
  APIClient.proper f ->
  APIClient.malformed json_loads f \/ APIClient.well_formed json_loads f ->
  feed "" {| APIClient.event_type := Some (APIClient.name f);
             APIClient.data_lines := APIClient.payload f;
             APIClient.emitted := outs |}
  = ({| APIClient.event_type := None;
        APIClient.data_lines := [];
        APIClient.emitted := outs ++ APIClient.frame_output json_loads f |},
     Ok tt).
Proof.
  intros [Hname Hdata] Hkind.
  unfold APIClient.feed_line, get_state, mbind at 1, M_bind at 1.
  change (String.prefix "event: " "") with false.
  change (String.prefix "data: " "") with false.
  change (String.eqb "" "") with true. cbv iota.
  cbn [APIClient.event_type APIClient.data_lines].
  destruct (APIClient.payload f) as [|d ds] eqn:Epay; [congruence|].
  unfold str_truthy. rewrite (proj2 (String.eqb_neq _ _) Hname). cbn [negb].
  unfold APIClient.frame_output, APIClient.data_section. rewrite Epay.
  unfold APIClient.malformed, APIClient.well_formed, APIClient.data_section in Hkind.
  rewrite Epay in Hkind.
  unfold APIClient.try_except_json, mbind, M_bind, lift.
  destruct Hkind as [[msg ->] | (items & -> & Hlen)].
  - reflexivity.
  - unfold APIClient.log_event, mbind, M_bind, lift, py_get, py_keys.
    destruct (String.eqb_spec (APIClient.name f) "block_delta") as [Hbd|Hbd].
    + destruct (Hlen Hbd) as [n ->]. reflexivity.
    + reflexivity.
Qed.

(** A whole frame read from clean locals. *)
Lemma feed_frame (f : APIClient.frame) (outs : list APIClient.output) :
  APIClient.proper f ->
  APIClient.malformed json_loads f \/ APIClient.well_formed json_loads f ->
  for_each feed (APIClient.frame_lines f)
    {| APIClient.event_type := None; APIClient.data_lines := [];
       APIClient.emitted := outs |}
  = ({| APIClient.event_type := None;
        APIClient.data_lines := [];
        APIClient.emitted := outs ++ APIClient.frame_output json_loads f |},
     Ok tt).
Proof.
  intros Hproper Hkind. unfold APIClient.frame_lines. cbn [for_each].
  unfold mbind at 1, M_bind at 1. rewrite feed_event_line.
  rewrite for_each_app, feed_data_lines. cbn [for_each].
  unfold mbind at 1, M_bind at 1.
  cbn [APIClient.event_type APIClient.data_lines APIClient.emitted app].
  rewrite (feed_blank_line f outs Hproper Hkind). reflexivity.
Qed.

(** A sequence of frames read from clean locals. *)
Lemma feed_frames (fs : list APIClient.frame) :
  Forall (fun f => APIClient.proper f
                   /\ (APIClient.malformed json_loads f
                       \/ APIClient.well_formed json_loads f)) fs ->
  forall outs,
  for_each feed (flat_map APIClient.frame_lines fs)
    {| APIClient.event_type := None; APIClient.data_lines := [];
       APIClient.emitted := outs |}
  = ({| APIClient.event_type := None;
        APIClient.data_lines := [];
        APIClient.emitted :=
          outs ++ flat_map (APIClient.frame_output json_loads) fs |},
     Ok tt).
Proof.
  induction 1 as [|f fs [Hproper Hkind] _ IH]; intros outs; cbn [flat_map].
  - now rewrite app_nil_r.
  - rewrite for_each_app, (feed_frame f outs Hproper Hkind), IH.
    now rewrite <- app_assoc.
Qed.

Lemma yielded_frame_outputs (fs : list APIClient.frame) :
  APIClient.yielded (flat_map (APIClient.frame_output json_loads) fs)
  = APIClient.events_of json_loads fs.
Proof.
  unfold APIClient.yielded, APIClient.events_of.
  induction fs as [|f fs IH]; [reflexivity|].
  cbn [flat_map]. rewrite flat_map_app, IH. f_equal.
  unfold APIClient.frame_output.
  destruct (json_loads (APIClient.data_section f)) as [d|[]]; reflexivity.
Qed.

End ParserProofs.

(** C7.  In a stream of frames of the wire format, each either malformed
    or well formed, take one whose data section is not JSON.  The parser
    reads the whole stream without raising; for that frame it logs one
    warning and yields nothing; the events it yields are those of the
    frames before and after it, in order, and every well-formed frame
    after it has its event among them. *)
Theorem malformed_frame_is_dropped
    (json_loads : string -> result pyval)
    (pre post : list APIClient.frame) (bad : APIClient.frame)
    (ending : result unit) :
  let expected f :=
    APIClient.proper f
    /\ (APIClient.malformed json_loads f \/ APIClient.well_formed json_loads f) in
  Forall expected pre ->
  Forall expected post ->
  APIClient.proper bad ->
  APIClient.malformed json_loads bad ->
  let out :=
    APIClient.stream_turn json_loads (Ok tt)
      (flat_map APIClient.frame_lines (pre ++ bad :: post)) ending
      APIClient.initial in
  snd out = ending
  /\ (exists warning,
        APIClient.emitted (fst out)
        = flat_map (APIClient.frame_output json_loads) pre
          ++ [APIClient.LogWarning warning]
          ++ flat_map (APIClient.frame_output json_loads) post)
  /\ APIClient.yielded (APIClient.emitted (fst out))
     = APIClient.events_of json_loads pre ++ APIClient.events_of json_loads post
  /\ (forall f, In f post -> APIClient.well_formed json_loads f ->
        exists data,
          json_loads (APIClient.data_section f) = Ok data
          /\ In (StreamEvent.mk (APIClient.name f) data)
                (APIClient.yielded (APIClient.emitted (fst out)))).
Proof.
  intros expected Hpre Hpost Hproper Hbad out.
  assert (Hall : Forall expected (pre ++ bad :: post)).
  { apply Forall_app. split; [exact Hpre|]. constructor; [|exact Hpost].
    split; [exact Hproper | now left]. }
  assert (Hout : out =
    ({| APIClient.event_type := None; APIClient.data_lines := [];
        APIClient.emitted :=
          flat_map (APIClient.frame_output json_loads) (pre ++ bad :: post) |},
     ending)).
  { unfold out, APIClient.stream_turn, mbind, M_bind. cbn [lift].
    cbn [APIClient.set_locals modify APIClient.initial APIClient.emitted].
    rewrite (feed_frames json_loads _ Hall []). now destruct ending. }
  assert (Hyield : APIClient.yielded (APIClient.emitted (fst out))
                   = APIClient.events_of json_loads pre
                     ++ APIClient.events_of json_loads post).
  { rewrite Hout. cbn [fst APIClient.emitted].
    rewrite yielded_frame_outputs. unfold APIClient.events_of.
    rewrite flat_map_app. cbn [flat_map].
    destruct Hbad as [msg ->]. reflexivity. }
  split; [now rewrite Hout|]. split; [|split; [exact Hyield|]].
  - rewrite Hout. cbn [fst APIClient.emitted].
    rewrite flat_map_app. cbn [flat_map].
    unfold APIClient.frame_output at 2. destruct Hbad as [msg ->].
    eexists. reflexivity.
  - intros f Hin (items & Hitems & _). exists (PDict items).
    split; [exact Hitems|]. rewrite Hyield. apply in_or_app. right.
    unfold APIClient.events_of. apply in_flat_map. exists f.
    split; [exact Hin|]. rewrite Hitems. now left.
Qed.

Lemma malformed_frame_is_dropped_witness :
  let expected f :=
    APIClient.proper f
    /\ (APIClient.malformed Wire.loads f \/ APIClient.well_formed Wire.loads f) in
  Forall expected [Wire.first]
  /\ Forall expected [Wire.last]
  /\ APIClient.proper Wire.broken
  /\ APIClient.malformed Wire.loads Wire.broken
  /\ (let out :=
        APIClient.stream_turn Wire.loads (Ok tt)
          (flat_map APIClient.frame_lines [Wire.first; Wire.broken; Wire.last])
          (Ok tt) APIClient.initial in
      snd out = Ok tt
      /\ APIClient.yielded (APIClient.emitted (fst out))
         = [StreamEvent.mk "block_start" (PDict []);
            StreamEvent.mk "turn_complete" (PDict [])]).
Proof.
  intros expected.
  assert (Hgood : forall name, name <> "" -> name <> "block_delta" ->
                    expected (APIClient.mk_frame name ["{}"])).
  { intros name Hname Hkind. split; [split; [exact Hname | discriminate]|].
    right. exists []. split; [reflexivity|]. intros Hbd. contradiction. }
  assert (H1 : Forall expected [Wire.first])
    by (constructor; [apply Hgood; discriminate | constructor]).
  assert (H2 : Forall expected [Wire.last])
    by (constructor; [apply Hgood; discriminate | constructor]).
  assert (H3 : APIClient.proper Wire.broken) by (split; discriminate).
  assert (H4 : APIClient.malformed Wire.loads Wire.broken)
    by (eexists; reflexivity).
  do 4 (split; [assumption|]).
  destruct (malformed_frame_is_dropped Wire.loads [Wire.first] [Wire.last]
              Wire.broken (Ok tt) H1 H2 H3 H4)
    as (Hret & _ & Hyield & _).
  split; [exact Hret | exact Hyield].
Defined.

(** The same stream, run: the broken frame leaves a warning behind and
    the frames around it are yielded. *)
Example broken_frame_stream :
  APIClient.emitted
    (fst (APIClient.stream_turn Wire.loads (Ok tt)
            ["event: block_start"; "data: {}"; "";
             "event: block_delta"; "data: {oops"; "";
             "event: turn_complete"; "data: {}"; ""]
            (Ok tt) APIClient.initial))
  = [APIClient.Yield (StreamEvent.mk "block_start" (PDict []));
     APIClient.LogWarning
       "SSE malformed JSON: Expecting value (data={oops)";
     APIClient.Yield (StreamEvent.mk "turn_complete" (PDict []))].
Proof. reflexivity. Qed.

(** Lines that carry data without an event name are not a frame of the
    protocol.  The blank line after them dispatches nothing and resets
    nothing, so their data precedes the data of the frame that follows. *)
Example data_without_event :
  APIClient.emitted
    (fst (APIClient.stream_turn Wire.loads (Ok tt)
            ["data: {}"; "";
             "event: turn_complete"; "data: {}"; ""]
            (Ok tt) APIClient.initial))
  = [APIClient.LogWarning
       ("SSE malformed JSON: Expecting value (data={}" +:+ nl +:+ "{})")].
Proof. reflexivity. Qed.

(** * Further properties *)

(** ** Walking a sibling group *)

(** In a list without duplicates, [list.index] finds a value where it
    is. *)
Lemma py_index_NoDup (l : list string) (i : nat) (x : string) :
  NoDup l -> l !! i = Some x -> py_index l x = Ok (Z.of_nat i).
Proof.
  intros Hnd Hi.
  pose proof (py_index_spec l x) as H.
  destruct (py_index l x) as [j|e].
  - destruct H as (Hj & Hx & _). f_equal.
    assert (Z.to_nat j = i) by (eapply NoDup_lookup; eauto). lia.
  - destruct H as [_ Hnot]. exfalso. apply Hnot.
    eapply list_elem_of_lookup_2, Hi.
Qed.

Lemma sibling_index_NoDup (T : Turn.t) (i : nat) :
  NoDup (Turn.sibling_ids T) ->
  Turn.sibling_ids T !! i = Some (Turn.id T) ->
  Turn.sibling_index T = Ok (Z.of_nat i).
Proof.
  intros Hnd Hi. unfold Turn.sibling_index.
  now rewrite (py_index_NoDup _ i _ Hnd Hi).
Qed.

(** X1.  Two turns of one sibling group, that is with the same
    [sibling_ids], a list without duplicates that holds both ids: if the
    right target of the first is the second, the left target of the second
    is the first, and the other way round. *)
Theorem sibling_round_trip
    (T T' : Turn.t) (P P' : PaginatedTurnsResponse.t) :
  NoDup (Turn.sibling_ids T) ->
  Turn.sibling_ids T' = Turn.sibling_ids T ->
  Turn.id T ∈ Turn.sibling_ids T ->
  Turn.id T' ∈ Turn.sibling_ids T ->
  (NavigationState.next_sibling_id (NavigationState.mk T P) = Ok (Some (Turn.id T'))
   -> NavigationState.can_go_left (NavigationState.mk T' P') = Ok true
      /\ NavigationState.prev_sibling_id (NavigationState.mk T' P')
         = Ok (Some (Turn.id T)))
  /\ (NavigationState.prev_sibling_id (NavigationState.mk T P) = Ok (Some (Turn.id T'))
      -> NavigationState.can_go_right (NavigationState.mk T' P') = Ok true
         /\ NavigationState.next_sibling_id (NavigationState.mk T' P')
            = Ok (Some (Turn.id T))).
Proof.
  intros Hnd Hsame HT HT'.
  apply list_elem_of_lookup in HT as [i Hi].
  apply list_elem_of_lookup in HT' as [j Hj].
  pose proof (sibling_index_NoDup T i Hnd Hi) as HiT.
  assert (HjT : Turn.sibling_index T' = Ok (Z.of_nat j)).
  { apply sibling_index_NoDup; rewrite Hsame; assumption. }
  pose proof (lookup_lt_Some _ _ _ Hi) as Hli.
  pose proof (lookup_lt_Some _ _ _ Hj) as Hlj.
  split.
  - intros Hnext.
    destruct (right_query (NavigationState.mk T P) (Z.of_nat i) HiT)
      as (_ & Hr & _).
    cbn [NavigationState.current] in Hr. rewrite Hnext in Hr.
    injection Hr as Hr.
    destruct (decide (Z.of_nat i < len (Turn.sibling_ids T) - 1)); [|discriminate].
    replace (Z.to_nat (Z.of_nat i + 1)) with (Datatypes.S i) in Hr by lia.
    assert (j = Datatypes.S i) as -> by (eapply NoDup_lookup; eauto).
    destruct (left_query (NavigationState.mk T' P') _ HjT) as ((b & Hb & Hbt) & Hl & _).
    cbn [NavigationState.current] in Hl. rewrite Hb, Hl, Hsame.
    rewrite decide_True by lia.
    replace (Z.to_nat (Z.of_nat (Datatypes.S i) - 1)) with i by lia.
    rewrite Hi. split; [|reflexivity]. f_equal. apply Hbt. lia.
  - intros Hprev.
    destruct (left_query (NavigationState.mk T P) (Z.of_nat i) HiT)
      as (_ & Hl & _).
    cbn [NavigationState.current] in Hl. rewrite Hprev in Hl.
    injection Hl as Hl.
    destruct (decide (0 < Z.of_nat i)); [|discriminate].
    assert (Z.to_nat (Z.of_nat i - 1) = j) as Hij by (eapply NoDup_lookup; eauto).
    destruct (right_query (NavigationState.mk T' P') _ HjT) as ((b & Hb & Hbt) & Hr & _).
    cbn [NavigationState.current] in Hr. rewrite Hb, Hr, Hsame.
    unfold len in *. rewrite decide_True by lia.
    replace (Z.to_nat (Z.of_nat j + 1)) with i by lia.
    rewrite Hi. split; [|reflexivity]. f_equal. apply Hbt.
    cbn [NavigationState.current]. rewrite Hsame. lia.
Qed.

Lemma sibling_round_trip_witness :
  NoDup (Turn.sibling_ids Fixtures.B)
  /\ Turn.sibling_ids Fixtures.C = Turn.sibling_ids Fixtures.B
  /\ (Turn.id Fixtures.B ∈ Turn.sibling_ids Fixtures.B)
  /\ (Turn.id Fixtures.C ∈ Turn.sibling_ids Fixtures.B)
  /\ NavigationState.next_sibling_id (NavigationState.mk Fixtures.B Fixtures.page_B)
     = Ok (Some (Turn.id Fixtures.C))
  /\ NavigationState.prev_sibling_id (NavigationState.mk Fixtures.C Fixtures.page_C)
     = Ok (Some (Turn.id Fixtures.B)).
Proof.
  assert (H1 : NoDup (Turn.sibling_ids Fixtures.B)).
  { cbn. repeat constructor; rewrite ?list_elem_of_In; cbn; intuition discriminate. }
  assert (H3 : Turn.id Fixtures.B ∈ Turn.sibling_ids Fixtures.B)
    by (apply list_elem_of_In; cbn; auto).
  assert (H4 : Turn.id Fixtures.C ∈ Turn.sibling_ids Fixtures.B)
    by (apply list_elem_of_In; cbn; auto).
  split; [exact H1|]. split; [reflexivity|]. split; [exact H3|]. split; [exact H4|].
  split; [reflexivity|].
  destruct (sibling_round_trip Fixtures.B Fixtures.C Fixtures.page_B Fixtures.page_C
              H1 eq_refl H3 H4) as [Hright _].
  exact (proj2 (Hright eq_refl)).
Defined.

(** X2.  Under the same invariant neither sibling target is the turn's
    own id: a sibling move never re-fetches the turn it starts from. *)
Theorem sibling_targets_differ (T : Turn.t) (P : PaginatedTurnsResponse.t) :
  NoDup (Turn.sibling_ids T) ->
  Turn.id T ∈ Turn.sibling_ids T ->
  NavigationState.prev_sibling_id (NavigationState.mk T P) <> Ok (Some (Turn.id T))
  /\ NavigationState.next_sibling_id (NavigationState.mk T P) <> Ok (Some (Turn.id T)).
Proof.
  intros Hnd HT. apply list_elem_of_lookup in HT as [i Hi].
  pose proof (sibling_index_NoDup T i Hnd Hi) as HiT.
  destruct (left_query (NavigationState.mk T P) _ HiT) as (_ & Hl & _).
  destruct (right_query (NavigationState.mk T P) _ HiT) as (_ & Hr & _).
  cbn [NavigationState.current] in Hl, Hr. rewrite Hl, Hr. split.
  - destruct (decide (0 < Z.of_nat i)); [|discriminate].
    intros H. injection H as H.
    assert (Z.to_nat (Z.of_nat i - 1) = i) by (eapply NoDup_lookup; eauto). lia.
  - destruct (decide (Z.of_nat i < len (Turn.sibling_ids T) - 1)); [|discriminate].
    intros H. injection H as H.
    assert (Z.to_nat (Z.of_nat i + 1) = i) by (eapply NoDup_lookup; eauto). lia.
Qed.

Lemma sibling_targets_differ_witness :
  NoDup (Turn.sibling_ids Fixtures.B)
  /\ (Turn.id Fixtures.B ∈ Turn.sibling_ids Fixtures.B)
  /\ NavigationState.next_sibling_id (NavigationState.mk Fixtures.B Fixtures.page_B)
     <> Ok (Some (Turn.id Fixtures.B)).
Proof.
  assert (H1 : NoDup (Turn.sibling_ids Fixtures.B)).
  { cbn. repeat constructor; rewrite ?list_elem_of_In; cbn; intuition discriminate. }
  assert (H2 : Turn.id Fixtures.B ∈ Turn.sibling_ids Fixtures.B)
    by (apply list_elem_of_In; cbn; auto).
  split; [exact H1|]. split; [exact H2|].
  exact (proj2 (sibling_targets_differ Fixtures.B Fixtures.page_B H1 H2)).
Defined.

(** ** The key actions *)

Lemma direction_queries_return (k : Keys.key) (n : NavigationState.t) :
  (exists b, Directions.can_go k n = Ok b)
  /\ (exists t, Directions.target k n = Ok t).
Proof.
  destruct (sibling_index_total (NavigationState.current n)) as (i & Hi & _).
  destruct (up_query n) as [(bu & Hu & _) Htu].
  destruct (down_query n) as ((bd & Hd & _) & Htd & _).
  destruct (left_query n i Hi) as ((bl & Hl & _) & Htl & _).
  destruct (right_query n i Hi) as ((br & Hr & _) & Htr & _).
  destruct k; cbn [Directions.can_go Directions.target]; split; eauto.
Qed.

Lemma action_is_action_target (k : Keys.key) :
  Keys.action k
  = TurnBrowserScreen.action_target (Directions.can_go k) (Directions.target k).
Proof. destruct k; reflexivity. Qed.

(** X3.  A key action never raises and never changes the screen.  It
    passes an id to [navigate_to_turn] exactly when a navigation state is
    set, the query of its direction answers [True] and the target of its
    direction is a non-empty id; the id passed is that target.  An
    enabled direction whose target is the empty string starts nothing. *)
Theorem key_action_target (k : Keys.key) (s : TurnBrowserScreen.t) :
  exists r,
    Keys.action k s = (s, Ok r)
    /\ forall id,
         r = Some id
         <-> exists n,
               TurnBrowserScreen.nav_state s = Some n
               /\ Directions.can_go k n = Ok true
               /\ Directions.target k n = Ok (Some id)
               /\ id <> "".
Proof.
  rewrite action_is_action_target.
  unfold TurnBrowserScreen.action_target, TurnBrowserScreen.query, get_state,
    mbind, M_bind, lift.
  destruct (TurnBrowserScreen.nav_state s) as [n|] eqn:En.
  - destruct (direction_queries_return k n) as [[b Hb] [t Ht]].
    rewrite Hb. destruct b.
    + rewrite Ht. destruct t as [id0|]; cbn [opt_truthy].
      * unfold str_truthy. destruct (String.eqb_spec id0 "") as [->|Hne]; cbn [negb].
        -- exists None. split; [reflexivity|]. intros id. split; [discriminate|].
           intros (n' & Hn' & _ & Ht' & Hid). injection Hn' as <-.
           rewrite Ht in Ht'. congruence.
        -- exists (Some id0). split; [reflexivity|]. intros id. split.
           ++ intros H. injection H as <-. exists n. auto.
           ++ intros (n' & Hn' & _ & Ht' & _). injection Hn' as <-.
              rewrite Ht in Ht'. congruence.
      * exists None. split; [reflexivity|]. intros id. split; [discriminate|].
        intros (n' & Hn' & _ & Ht' & _). injection Hn' as <-.
        rewrite Ht in Ht'. discriminate.
    + exists None. split; [reflexivity|]. intros id. split; [discriminate|].
      intros (n' & Hn' & Hb' & _). injection Hn' as <-.
      rewrite Hb in Hb'. discriminate.
  - exists None. split; [reflexivity|]. intros id. split; [discriminate|].
    intros (n' & Hn' & _). discriminate.
Qed.

(** ** Rendering the current turn *)

(** Run the primitive operations of the turn browser. *)
Ltac run_browser :=
  cbv beta iota delta
    [mbind M_bind mret M_ret when get_state modify lift raise
     TurnBrowserScreen.write TurnBrowserScreen.clear TurnBrowserScreen.query
     TurnBrowserScreen.nav_hints TurnBrowserScreen.set_display];
  cbn [TurnBrowserScreen.current_turn TurnBrowserScreen.nav_state
       TurnBrowserScreen.display_box TurnBrowserScreen.input_disabled
       TurnBrowserScreen.input_tooltip TurnBrowserScreen.input_focused
       TurnBrowserScreen.notifications fst snd].

(** What [update_display] writes is decided by the current turn and the
    navigation state alone, and it writes it over whatever the box held. *)
Lemma update_display_shape
    (ct : option Turn.t) (ns : option NavigationState.t) :
  exists lines, forall s,
    TurnBrowserScreen.current_turn s = ct ->
    TurnBrowserScreen.nav_state s = ns ->
    TurnBrowserScreen.update_display s
    = (TurnBrowserScreen.set_display (fun _ => lines) s, Ok tt).
Proof.
  destruct ct as [turn|].
  2:{ exists []. intros s Hct Hns. unfold TurnBrowserScreen.update_display.
      run_browser. now rewrite Hct. }
  destruct (sibling_index_total turn) as (i & Hi & _).
  assert (Hhints : forall n, exists l d u r,
            NavigationState.can_go_left n = Ok l
            /\ NavigationState.can_go_down n = Ok d
            /\ NavigationState.can_go_up n = Ok u
            /\ NavigationState.can_go_right n = Ok r).
  { intros n.
    destruct (direction_queries_return Keys.A n) as [[l Hl] _].
    destruct (direction_queries_return Keys.S n) as [[d Hd] _].
    destruct (direction_queries_return Keys.W n) as [[u Hu] _].
    destruct (direction_queries_return Keys.D n) as [[r Hr] _].
    exists l, d, u, r. auto. }
  destruct (opt_truthy (Turn.model turn)) eqn:Emodel;
  destruct (opt_truthy (Turn.error turn)) eqn:Eerror;
  destruct (match Turn.sibling_ids turn with [] => false | _ => true end
            && (1 <? len (Turn.sibling_ids turn))) eqn:Esib;
  (destruct ns as [n|];
   [destruct (Hhints n) as (l & d & u & r & Hl & Hd & Hu & Hr)|]);
  eexists; intros s Hct Hns;
  unfold TurnBrowserScreen.update_display; run_browser;
  rewrite Hct; run_browser;
  rewrite ?Emodel, ?Eerror, ?Esib, ?Hi; run_browser;
  rewrite Hns; run_browser;
  rewrite ?Hl, ?Hd, ?Hu, ?Hr; run_browser;
  reflexivity.
Qed.



(** ** Committing a fetched page *)

(** The screen has stored [turn] as the current one: the box shows its
    rendering and the input box is locked exactly when the turn carries an
    error. *)
Lemma watch_current_turn_effect (turn : Turn.t) (s : TurnBrowserScreen.t) :
  TurnBrowserScreen.current_turn s = Some turn ->
  let out := TurnBrowserScreen.watch_current_turn (Some turn) s in
  snd out = Ok tt
  /\ TurnBrowserScreen.current_turn (fst out) = Some turn
  /\ TurnBrowserScreen.nav_state (fst out) = TurnBrowserScreen.nav_state s
  /\ TurnBrowserScreen.notifications (fst out) = TurnBrowserScreen.notifications s
  /\ TurnBrowserScreen.input_focused (fst out) = TurnBrowserScreen.input_focused s
  /\ TurnBrowserScreen.input_disabled (fst out) = opt_truthy (Turn.error turn)
  /\ TurnBrowserScreen.update_display (fst out) = (fst out, Ok tt).
Proof.
  intros Hct out.
  destruct (update_display_shape (Some turn) (TurnBrowserScreen.nav_state s))
    as [lines Hshape].
  assert (Hout : out =
    (TurnBrowserScreen.set_input (opt_truthy (Turn.error turn))
       (if opt_truthy (Turn.error turn)
        then Some ("Turn has error: " +:+ default "" (Turn.error turn))
        else None)
       (TurnBrowserScreen.set_display (fun _ => lines) s), Ok tt)).
  { unfold out, TurnBrowserScreen.watch_current_turn.
    unfold mbind at 1, M_bind at 1. rewrite (Hshape s Hct eq_refl).
    destruct (opt_truthy (Turn.error turn)); reflexivity. }
  rewrite Hout. cbn [fst snd].
  split; [reflexivity|]. split; [exact Hct|].
  do 4 (split; [reflexivity|]).
  now rewrite Hshape.
Qed.

(** Assigning a turn that differs from the stored one stores it and runs
    the watcher; assigning an equal one does nothing at all. *)
Lemma assign_current_turn_effect (turn : Turn.t) (s : TurnBrowserScreen.t) :
  let changed := match TurnBrowserScreen.current_turn s with
                 | Some old => negb (Turn_eqb old turn)
                 | None => true
                 end in
  TurnBrowserScreen.assign_current_turn turn s
  = if changed
    then TurnBrowserScreen.watch_current_turn (Some turn)
           (TurnBrowserScreen.store_current_turn (Some turn) s)
    else (s, Ok tt).
Proof.
  intros changed. unfold TurnBrowserScreen.assign_current_turn, get_state.
  unfold mbind at 1, M_bind at 1. fold changed.
  destruct changed; reflexivity.
Qed.





(** ** The controller under any schedule *)

(** What one step does to a task: nothing, unless it is the task being
    resumed, which must not be done. *)
Lemma step_task (c c' : Controller.t) (ev : Controller.event) (t : nat)
    (st : Controller.task_state) :
  Controller.step c ev = Some c' ->
  Controller.tasks c !! t = Some st ->
  Controller.tasks c' !! t = Some st
  \/ (exists id, st = Controller.InFlight id
                 /\ (Controller.tasks c' !! t = Some (Controller.CancelRequested id)
                     \/ exists o, ev = Controller.FetchSettles t o))
  \/ (exists id, st = Controller.CancelRequested id
                 /\ Controller.tasks c' !! t = Some Controller.Cancelled).
Proof.
  intros Hstep Ht.
  assert (Hlt : (t < length (Controller.tasks c))%nat) by (eapply lookup_lt_Some, Ht).
  destruct ev as [id | t' o | k]; cbn [Controller.step] in Hstep.
  - unfold Controller.navigate_to_turn in Hstep.
    destruct (Controller._navigation_task c) as [old|].
    + destruct (Controller.tasks c !! old) as [sto|] eqn:Eold; [|discriminate].
      cbn in Hstep. destruct (Controller.done sto) eqn:Ed; injection Hstep as <-;
        cbn [Controller.tasks Controller.create_task].
      * left. now rewrite lookup_app_l.
      * destruct (decide (old = t)) as [->|Hne].
        -- rewrite list_lookup_insert_eq by exact Hlt.
           rewrite Ht in Eold. injection Eold as <-.
           destruct st; try discriminate; cbn [Controller.cancel]; eauto 6.
        -- left. now rewrite list_lookup_insert_ne.
    + injection Hstep as <-. cbn [Controller.tasks Controller.create_task].
      left. now rewrite lookup_app_l.
  - apply resume_task_Some in Hstep as [(id & Ht' & ->) | (id & Ht' & ->)];
      cbn [Controller.tasks]; destruct (decide (t' = t)) as [->|Hne];
      rewrite ?list_lookup_insert_eq by exact Hlt;
      rewrite ?list_lookup_insert_ne by exact Hne; auto.
    + rewrite Ht in Ht'. injection Ht' as ->. right. left. eauto.
    + rewrite Ht in Ht'. injection Ht' as ->. right. right. eauto.
  - unfold Controller.resume_caller in Hstep.
    destruct (Controller.callers c !! k) as [[old id|own| |e]|]; cbn in Hstep;
      try discriminate.
    + destruct (Controller.tasks c !! old) as [sto|]; cbn in Hstep; [|discriminate].
      destruct (Controller.awaited sto) as [[[]|e]|]; cbn in Hstep;
        try discriminate; injection Hstep as <-;
        cbn [Controller.tasks Controller.create_task]; left;
        [now rewrite lookup_app_l | exact Ht].
    + destruct (Controller.tasks c !! own) as [sto|]; cbn in Hstep; [|discriminate].
      destruct (Controller.awaited sto) as [res|]; cbn in Hstep; [|discriminate].
      injection Hstep as <-. left. exact Ht.
Qed.

(** X7.  Along every schedule a task that is done keeps the state it
    ended in, and a task that has been asked to cancel can only end
    cancelled: neither is ever in flight or finished afterwards. *)
Theorem settled_tasks_stay_settled
    (evs : list Controller.event) (c c' : Controller.t) (t : nat)
    (st : Controller.task_state) :
  Controller.run c evs = Some c' ->
  Controller.tasks c !! t = Some st ->
  (Controller.done st = true -> Controller.tasks c' !! t = Some st)
  /\ (forall id, st = Controller.CancelRequested id ->
        Controller.tasks c' !! t = Some (Controller.CancelRequested id)
        \/ Controller.tasks c' !! t = Some Controller.Cancelled).
Proof.
  revert c st. induction evs as [|ev evs IH]; intros c st Hrun Ht.
  - injection Hrun as <-. split; [auto|]. intros id ->. now left.
  - cbn [Controller.run] in Hrun.
    destruct (Controller.step c ev) as [c1|] eqn:Estep; [|discriminate].
    cbn in Hrun.
    destruct (step_task c c1 ev t st Estep Ht)
      as [Hsame | [(id & -> & _) | (id & -> & Hcancelled)]].
    + exact (IH c1 st Hrun Hsame).
    + split; [discriminate|]. intros id' H. discriminate.
    + split; [discriminate|]. intros id' _. right.
      exact (proj1 (IH c1 Controller.Cancelled Hrun Hcancelled) eq_refl).
Qed.

Lemma settled_tasks_stay_settled_witness :
  (exists c,
     Controller.run Scenes.to_C_in_flight
       [Controller.Navigate "A"] = Some c
     /\ Controller.tasks c !! 0%nat = Some (Controller.CancelRequested "C")
     /\ forall c',
          Controller.run c
            [Controller.FetchSettles 0 (FetchOk Fixtures.page_C);
             Controller.CallerResumes 1;
             Controller.FetchSettles 1 (FetchOk Fixtures.page_A)] = Some c' ->
          Controller.tasks c' !! 0%nat = Some (Controller.CancelRequested "C")
          \/ Controller.tasks c' !! 0%nat = Some Controller.Cancelled).
Proof.
  eexists. split; [reflexivity|]. split; [reflexivity|].
  intros c' Hrun.
  exact (proj2 (settled_tasks_stay_settled _ _ c' 0%nat _ Hrun eq_refl) "C" eq_refl).
Defined.

Lemma step_screen (c c' : Controller.t) (ev : Controller.event) :
  Controller.step c ev = Some c' ->
  Controller.screen c' = Controller.screen c
  \/ exists t o id,
       ev = Controller.FetchSettles t o
       /\ Controller.tasks c !! t = Some (Controller.InFlight id)
       /\ Controller.screen c'
          = fst (TurnBrowserScreen._do_navigate id o (Controller.screen c)).
Proof.
  intros Hstep. destruct ev as [id | t o | k]; cbn [Controller.step] in Hstep.
  - left. unfold Controller.navigate_to_turn in Hstep.
    destruct (Controller._navigation_task c) as [old|].
    + destruct (Controller.tasks c !! old) as [sto|]; [|discriminate].
      cbn in Hstep. destruct (Controller.done sto); now injection Hstep as <-.
    + now injection Hstep as <-.
  - apply resume_task_Some in Hstep as [(id & Ht & ->) | (id & Ht & ->)].
    + right. exists t, o, id. auto.
    + now left.
  - left. unfold Controller.resume_caller in Hstep.
    destruct (Controller.callers c !! k) as [[old id|own| |e]|]; cbn in Hstep;
      try discriminate.
    + destruct (Controller.tasks c !! old) as [sto|]; cbn in Hstep; [|discriminate].
      destruct (Controller.awaited sto) as [[[]|e]|]; cbn in Hstep;
        try discriminate; now injection Hstep as <-.
    + destruct (Controller.tasks c !! own) as [sto|]; cbn in Hstep; [|discriminate].
      destruct (Controller.awaited sto) as [res|]; cbn in Hstep; [|discriminate].
      now injection Hstep as <-.
Qed.

Lemma run_app (c : Controller.t) (evs evs' : list Controller.event) :
  Controller.run c (evs ++ evs')
  = c1 ← Controller.run c evs; Controller.run c1 evs'.
Proof.
  revert c. induction evs as [|ev evs IH]; intros c; cbn [Controller.run app].
  - reflexivity.
  - destruct (Controller.step c ev) as [c1|]; cbn; [apply IH | reflexivity].
Qed.



(** ** The text of a turn *)

Lemma concat_app (sep : string) (xs ys : list string) :
  xs <> [] -> ys <> [] ->
  String.concat sep (xs ++ ys)
  = String.concat sep xs +:+ sep +:+ String.concat sep ys.
Proof.
  intros Hxs Hys. induction xs as [|x xs IH]; [congruence|].
  destruct xs as [|x' xs].
  - destruct ys as [|y ys]; [congruence|]. reflexivity.
  - change (String.concat sep ((x :: x' :: xs) ++ ys))
      with (x +:+ sep +:+ String.concat sep ((x' :: xs) ++ ys)).
    change (String.concat sep (x :: x' :: xs))
      with (x +:+ sep +:+ String.concat sep (x' :: xs)).
    rewrite IH by discriminate. now rewrite !str_app_assoc.
Qed.

(** X9.  [Turn.text_content] over blocks in two parts: when both parts
    have text it is the text of the first, a newline, and the text of the
    second; a part whose blocks carry no text (none of type [text] or
    [thinking] with a non-empty [text_content]) adds nothing, not even a
    newline. *)
Theorem text_content_of_parts (T1 T2 T : Turn.t) :
  Turn.blocks T = Turn.blocks T1 ++ Turn.blocks T2 ->
  (Turn_texts (Turn.blocks T1) = [] -> Turn_text_content T = Turn_text_content T2)
  /\ (Turn_texts (Turn.blocks T2) = [] -> Turn_text_content T = Turn_text_content T1)
  /\ (Turn_texts (Turn.blocks T1) <> [] -> Turn_texts (Turn.blocks T2) <> [] ->
      Turn_text_content T
      = Turn_text_content T1 +:+ nl +:+ Turn_text_content T2).
Proof.
  intros Hblocks. unfold Turn_text_content. rewrite Hblocks.
  assert (Happ : Turn_texts (Turn.blocks T1 ++ Turn.blocks T2)
                 = Turn_texts (Turn.blocks T1) ++ Turn_texts (Turn.blocks T2))
    by apply flat_map_app.
  rewrite Happ. clear Happ.
  split; [|split].
  - intros ->. reflexivity.
  - intros ->. now rewrite app_nil_r.
  - intros H1 H2.
    destruct (Turn_texts (Turn.blocks T1)) as [|a l1]; [congruence|].
    destruct (Turn_texts (Turn.blocks T2)) as [|b l2]; [congruence|].
    change (String.concat nl ((a :: l1) ++ b :: l2)
            = String.concat nl (a :: l1) +:+ nl +:+ String.concat nl (b :: l2)).
    now apply concat_app.
Qed.

Lemma text_content_of_parts_witness :
  let block kind text :=
    TurnBlock.mk "b" "t" kind 0 text PNone "2025-01-01T00:00:00Z" in
  let turn blocks :=
    Turn.mk "t" "chat" None "assistant" "completed" None None None None
      "2025-01-01T00:00:00Z" None PNone None PNone blocks ["t"] in
  let T1 := turn [block "thinking" (Some "hm"); block "tool_use" (Some "ls")] in
  let T2 := turn [block "text" (Some ""); block "text" (Some "Hi")] in
  let T := turn (Turn.blocks T1 ++ Turn.blocks T2) in
  Turn.blocks T = Turn.blocks T1 ++ Turn.blocks T2
  /\ Turn_texts (Turn.blocks T1) <> []
  /\ Turn_texts (Turn.blocks T2) <> []
  /\ Turn_text_content T = "hm" +:+ nl +:+ "Hi".
Proof.
  intros block turn T1 T2 T.
  assert (H1 : Turn_texts (Turn.blocks T1) <> []) by discriminate.
  assert (H2 : Turn_texts (Turn.blocks T2) <> []) by discriminate.
  split; [reflexivity|]. split; [exact H1|]. split; [exact H2|].
  exact (proj2 (proj2 (text_content_of_parts T1 T2 T eq_refl)) H1 H2).
Defined.

(** ** Lines the parser passes over, and data it cannot log *)

Lemma for_each_cons {S A} (body : A -> M S unit) (x : A) (xs : list A)
    (s : S) :
  for_each body (x :: xs) s
  = match body x s with
    | (s1, Ok _) => for_each body xs s1
    | (s1, Raise e) => (s1, Raise e)
    end.
Proof. reflexivity. Qed.

Section ParserEdges.

Variable json_loads : string -> result pyval.

Local Abbreviation feed := (APIClient.feed_line json_loads).

Lemma feed_passed_over (line : string) (s : APIClient.t) :
  Wired.passed_over line = true -> feed line s = (s, Ok tt).
Proof.
  unfold Wired.passed_over. intros H.
  apply andb_true_iff in H as [H H3]. apply andb_true_iff in H as [H1 H2].
  apply negb_true_iff in H1, H2, H3.
  unfold APIClient.feed_line, get_state, mbind, M_bind.
  now rewrite H1, H2, H3.
Qed.

(** X10.  Lines that are neither [event: ] lines, nor [data: ] lines, nor
    blank (comments, [id:] and [retry:] fields, fields written without
    the space after the colon) have no effect wherever they stand: the
    generator yields, logs, raises and keeps in its locals the same with
    them as without them. *)
Theorem passed_over_lines_have_no_effect
    (status ending : result unit) (lines : list string) (s : APIClient.t) :
  APIClient.stream_turn json_loads status lines ending s
  = APIClient.stream_turn json_loads status
      (filter (fun line => Wired.passed_over line = false) lines) ending s.
Proof.
  assert (Hloop : forall s0,
            for_each feed lines s0
            = for_each feed
                (filter (fun line => Wired.passed_over line = false) lines) s0).
  { induction lines as [|line rest IH]; intros s0; [reflexivity|].
    destruct (Wired.passed_over line) eqn:Hline.
    - rewrite filter_cons_False by congruence.
      rewrite for_each_cons, (feed_passed_over line s0 Hline). apply IH.
    - rewrite filter_cons_True by exact Hline.
      rewrite !for_each_cons.
      destruct (feed line s0) as [s1 [[]|e]]; [apply IH | reflexivity]. }
  unfold APIClient.stream_turn, mbind, M_bind.
  destruct (lift status s) as [s1 [[]|e]]; [|reflexivity].
  destruct (APIClient.set_locals None [] s1) as [s2 [[]|e]]; [|reflexivity].
  now rewrite Hloop.
Qed.

(** X11.  A frame whose data is JSON but not a JSON object is not
    dropped: preparing the debug log raises [AttributeError], which the
    [JSONDecodeError] handler does not catch.  The generator ends there,
    with no event and no warning for the frame, and reads no further
    line. *)
Theorem non_object_data_aborts
    (f : APIClient.frame) (v : pyval) (outs : list APIClient.output)
    (rest : list string) :
  APIClient.proper f ->
  json_loads (APIClient.data_section f) = Ok v ->
  (forall items, v <> PDict items) ->
  exists msg,
    for_each feed (APIClient.frame_lines f ++ rest)
      {| APIClient.event_type := None; APIClient.data_lines := [];
         APIClient.emitted := outs |}
    = ({| APIClient.event_type := Some (APIClient.name f);
          APIClient.data_lines := APIClient.payload f;
          APIClient.emitted := outs |},
       Raise (AttributeError msg)).
Proof.
  intros [Hname Hdata] Hloads Hobj.
  assert (Hblank : exists msg,
    feed "" {| APIClient.event_type := Some (APIClient.name f);
               APIClient.data_lines := APIClient.payload f;
               APIClient.emitted := outs |}
    = ({| APIClient.event_type := Some (APIClient.name f);
          APIClient.data_lines := APIClient.payload f;
          APIClient.emitted := outs |},
       Raise (AttributeError msg))).
  { unfold APIClient.feed_line, get_state. unfold mbind at 1, M_bind at 1.
    change (String.prefix "event: " "") with false.
    change (String.prefix "data: " "") with false.
    change (String.eqb "" "") with true. cbv iota.
    cbn [APIClient.event_type APIClient.data_lines].
    unfold APIClient.data_section in Hloads.
    destruct (APIClient.payload f) as [|d ds] eqn:Epay; [congruence|].
    unfold str_truthy. rewrite (proj2 (String.eqb_neq _ _) Hname). cbn [negb].
    unfold APIClient.try_except_json, mbind, M_bind, lift. rewrite Hloads.
    unfold APIClient.log_event, mbind, M_bind, lift.
    destruct (String.eqb (APIClient.name f) "block_delta");
      destruct v; try (eexists; reflexivity); exfalso; eapply Hobj; reflexivity. }
  destruct Hblank as [msg Hblank]. exists msg.
  rewrite for_each_app. unfold APIClient.frame_lines. cbn [for_each].
  unfold mbind at 1, M_bind at 1. rewrite feed_event_line.
  rewrite for_each_app, feed_data_lines. cbn [for_each].
  unfold mbind at 1, M_bind at 1.
  cbn [APIClient.event_type APIClient.data_lines APIClient.emitted app].
  now rewrite Hblank.
Qed.

End ParserEdges.

Lemma non_object_data_aborts_witness :
  let loads text :=
    if String.eqb text "[]" then Ok (PList []) else Wire.loads text in
  let f := APIClient.mk_frame "block_start" ["[]"] in
  APIClient.proper f
  /\ loads (APIClient.data_section f) = Ok (PList [])
  /\ (forall items, PList [] <> PDict items)
  /\ exists msg,
       snd (for_each (APIClient.feed_line loads)
              (APIClient.frame_lines f ++ APIClient.frame_lines Wire.last)
              APIClient.initial)
       = Raise (AttributeError msg).
Proof.
  intros loads f.
  assert (H1 : APIClient.proper f) by (split; discriminate).
  assert (H3 : forall items, PList [] <> PDict items) by discriminate.
  split; [exact H1|]. split; [reflexivity|]. split; [exact H3|].
  destruct (non_object_data_aborts loads f (PList []) []
              (APIClient.frame_lines Wire.last) H1 eq_refl H3) as [msg Hrun].
  exists msg. unfold APIClient.initial. now rewrite Hrun.
Defined.

(** ** The screen reading the wire *)

Lemma events_of_parsing (json_loads : string -> result pyval)
    (fs : list APIClient.frame) :
  APIClient.events_of json_loads (List.filter (Wired.parses json_loads) fs)
  = APIClient.events_of json_loads fs.
Proof.
  unfold APIClient.events_of, Wired.parses.
  induction fs as [|f fs IH]; [reflexivity|]. cbn [List.filter flat_map].
  destruct (json_loads (APIClient.data_section f)) as [d|e] eqn:Hf.
  - cbn [flat_map]. now rewrite Hf, IH.
  - exact IH.
Qed.

Lemma stream_turn_frames (json_loads : string -> result pyval)
    (fs : list APIClient.frame) (ending : result unit) :
  Forall (fun f => APIClient.proper f
                   /\ (APIClient.malformed json_loads f
                       \/ APIClient.well_formed json_loads f)) fs ->
  let generator :=
    APIClient.stream_turn json_loads (Ok tt)
      (flat_map APIClient.frame_lines fs) ending APIClient.initial in
  APIClient.yielded (APIClient.emitted (fst generator))
  = APIClient.events_of json_loads fs
  /\ snd generator = ending.
Proof.
  intros Hall generator.
  assert (Hgen : generator =
    ({| APIClient.event_type := None; APIClient.data_lines := [];
        APIClient.emitted := flat_map (APIClient.frame_output json_loads) fs |},
     ending)).
  { unfold generator, APIClient.stream_turn, mbind, M_bind. cbn [lift].
    cbn [APIClient.set_locals modify APIClient.initial APIClient.emitted].
    rewrite (feed_frames json_loads _ Hall []). now destruct ending. }
  rewrite Hgen. cbn [fst snd APIClient.emitted].
  split; [apply yielded_frame_outputs | reflexivity].
Qed.

(** X12.  The screen fed from the wire: for a stream of frames of the
    wire format, each malformed or well formed, [start_streaming]
    iterating over [stream_turn] renders, performs and returns what it
    does on the events of the frames whose data is JSON; and the stream
    with the malformed frames taken out gives the same screen. *)
Theorem malformed_frames_leave_no_trace
    (json_loads : string -> result pyval) (py_str : pyval -> string)
    (id : string) (mounted : bool) (fs : list APIClient.frame)
    (ending : result unit) (s : StreamingScreen.t) :
  Forall (fun f => APIClient.proper f
                   /\ (APIClient.malformed json_loads f
                       \/ APIClient.well_formed json_loads f)) fs ->
  Wired.start_streaming json_loads py_str id mounted (Ok tt)
    (flat_map APIClient.frame_lines fs) ending s
  = StreamingScreen.start_streaming py_str id mounted
      (APIClient.events_of json_loads fs) ending s
  /\ Wired.start_streaming json_loads py_str id mounted (Ok tt)
       (flat_map APIClient.frame_lines
          (List.filter (Wired.parses json_loads) fs)) ending s
     = Wired.start_streaming json_loads py_str id mounted (Ok tt)
         (flat_map APIClient.frame_lines fs) ending s.
Proof.
  intros Hall.
  assert (Hkept : Forall (fun f => APIClient.proper f
                   /\ (APIClient.malformed json_loads f
                       \/ APIClient.well_formed json_loads f))
                   (List.filter (Wired.parses json_loads) fs)).
  { apply List.Forall_forall. intros f Hf. apply List.filter_In in Hf as [Hf _].
    revert f Hf. now apply List.Forall_forall. }
  destruct (stream_turn_frames json_loads fs ending Hall) as [Hev Hend].
  destruct (stream_turn_frames json_loads _ ending Hkept) as [Hev' Hend'].
  unfold Wired.start_streaming.
  rewrite Hev, Hend, Hev', Hend', events_of_parsing. now split.
Qed.

Lemma malformed_frames_leave_no_trace_witness :
  let fs := [Wire.first; Wire.broken; Wire.last] in
  Wired.start_streaming Wire.loads (fun _ => "") "t-2" true (Ok tt)
    (flat_map APIClient.frame_lines fs) (Ok tt) StreamingScreen.initial
  = StreamingScreen.start_streaming (fun _ => "") "t-2" true
      (APIClient.events_of Wire.loads fs) (Ok tt) StreamingScreen.initial
  /\ Wired.start_streaming Wire.loads (fun _ => "") "t-2" true (Ok tt)
       (flat_map APIClient.frame_lines
          (List.filter (Wired.parses Wire.loads) fs)) (Ok tt)
       StreamingScreen.initial
     = Wired.start_streaming Wire.loads (fun _ => "") "t-2" true (Ok tt)
         (flat_map APIClient.frame_lines fs) (Ok tt) StreamingScreen.initial.
Proof.
  intros fs.
  apply (malformed_frames_leave_no_trace Wire.loads (fun _ => "") "t-2" true fs
           (Ok tt) StreamingScreen.initial).
  repeat (constructor; [split; [split; discriminate|]|]).
  - right. eexists. split; [vm_compute; reflexivity|].
    intros _. eexists. vm_compute. reflexivity.
  - left. eexists. vm_compute. reflexivity.
  - right. eexists. split; [vm_compute; reflexivity|].
    intros _. eexists. vm_compute. reflexivity.
  - constructor.
Defined.

(** ** The event loop of the streaming screen *)

Section RaisesOnly.

Context {S : Type} (P : exn -> Prop).

Lemma raises_only_ret {A} (a : A) : raises_only P (mret a : M S A).
Proof. intros s e H. discriminate H. Qed.

Lemma raises_only_modify (f : S -> S) : raises_only P (modify f).
Proof. intros s e H. discriminate H. Qed.

Lemma raises_only_get : raises_only P (get_state : M S S).
Proof. intros s e H. discriminate H. Qed.

Lemma raises_only_lift {A} (r : result A) :
  (forall e, r = Raise e -> P e) -> raises_only P (lift r : M S A).
Proof. intros Hr s e H. apply Hr. exact H. Qed.

Lemma raises_only_raise {A} (e : exn) : P e -> raises_only P (raise e : M S A).
Proof. intros He s e' H. cbn in H. now injection H as <-. Qed.

Lemma raises_only_bind {A B} (m : M S A) (k : A -> M S B) :
  raises_only P m -> (forall a, raises_only P (k a)) ->
  raises_only P (m ≫= k).
Proof.
  intros Hm Hk s e. unfold mbind, M_bind.
  specialize (Hm s). destruct (m s) as [s1 [a|e1]]; cbn in *.
  - apply Hk.
  - intros H. apply Hm. injection H as <-. reflexivity.
Qed.

Lemma raises_only_when (c : bool) (m : M S unit) :
  raises_only P m -> raises_only P (when c m).
Proof. intros Hm. destruct c; [exact Hm | apply raises_only_ret]. Qed.

Lemma raises_only_for_each {A} (body : A -> M S unit) (xs : list A) :
  (forall x, raises_only P (body x)) -> raises_only P (for_each body xs).
Proof.
  intros Hbody. induction xs as [|x xs IH]; cbn [for_each].
  - apply raises_only_ret.
  - apply raises_only_bind; [apply Hbody | intros _; exact IH].
Qed.

End RaisesOnly.

Lemma py_get_raises (d : pyval) (key : string) (default : pyval) (e : exn) :
  py_get d key default = Raise e -> rendering_error e.
Proof.
  destruct d; cbn; intros H; try discriminate H;
    injection H as <-; left; eexists; reflexivity.
Qed.

Ltac raising :=
  repeat first
    [ apply raises_only_ret
    | apply raises_only_modify
    | apply raises_only_get
    | apply raises_only_lift; apply py_get_raises
    | match goal with
      | |- raises_only _ (StreamingScreen.append ?t _) =>
          destruct t;
          first [ apply raises_only_modify
                | apply raises_only_raise; right; eexists; reflexivity ]
      end
    | apply raises_only_when
    | apply raises_only_bind; [|intro]
    | apply raises_only_for_each; intro
    | match goal with
      | |- raises_only _ (if ?c then _ else _) => destruct c
      end ].

#[local] Instance same_count_preorder : PreOrder same_count.
Proof.
  split.
  - intros s. reflexivity.
  - intros s1 s2 s3 H12 H23. unfold same_count in *. congruence.
Qed.

Ltac counting :=
  preserve_with ltac:(first
    [ match goal with
      | |- preserves _ (StreamingScreen.append ?t _) =>
          intros ?; destruct t; reflexivity
      end
    | (intros ?; reflexivity) ]).

Section EventLoop.

Variable py_str : pyval -> string.

Lemma process_event_raises (ev : StreamEvent.t) :
  raises_only rendering_error (StreamingScreen.process_event py_str ev).
Proof.
  unfold StreamingScreen.process_event, StreamingScreen.switch_on_delta,
    StreamingScreen.render_delta, StreamingScreen.update_content,
    StreamingScreen.update, StreamingScreen.set_current_block_type,
    StreamingScreen.count_event.
  raising.
Qed.

Lemma process_event_counts (ev : StreamEvent.t) (s : StreamingScreen.t) :
  StreamingScreen.event_count (fst (StreamingScreen.process_event py_str ev s))
  = StreamingScreen.event_count s + 1.
Proof.
  assert (Hrest : forall m : M StreamingScreen.t unit,
            preserves same_count m ->
            StreamingScreen.event_count
              (fst ((StreamingScreen.count_event;; m) s))
            = StreamingScreen.event_count s + 1).
  { intros m Hm. unfold mbind, M_bind. cbn [StreamingScreen.count_event modify].
    rewrite (Hm _). reflexivity. }
  unfold StreamingScreen.process_event. apply Hrest.
  unfold StreamingScreen.switch_on_delta, StreamingScreen.render_delta,
    StreamingScreen.update_content, StreamingScreen.update,
    StreamingScreen.set_current_block_type.
  counting.
Qed.

Lemma for_each_counts (events : list StreamEvent.t) (s : StreamingScreen.t) :
  let out := for_each (StreamingScreen.process_event py_str) events s in
  snd out = Ok tt ->
  StreamingScreen.event_count (fst out)
  = StreamingScreen.event_count s + len events.
Proof.
  revert s. induction events as [|ev events IH]; intros s; cbn zeta.
  - intros _. unfold len. cbn. lia.
  - rewrite for_each_cons.
    pose proof (process_event_counts ev s) as Hone.
    destruct (StreamingScreen.process_event py_str ev s) as [s1 [[]|e]];
      cbn [fst snd] in *; [|discriminate].
    intros Hok. rewrite (IH s1 Hok), Hone. unfold len. cbn [length]. lia.
Qed.

Lemma consume_raises (mounted : bool) (events : list StreamEvent.t)
    (ending : result unit) (s : StreamingScreen.t) (e : exn) :
  snd (StreamingScreen.consume py_str mounted events ending s) = Raise e ->
  if mounted then rendering_error e \/ ending = Raise e
  else e = NoMatches "#streaming-box".
Proof.
  unfold StreamingScreen.consume. destruct mounted.
  - revert s e.
    change (raises_only (fun e => rendering_error e \/ ending = Raise e)
              (StreamingScreen.query_one true;;
               StreamingScreen.init_locals;;
               for_each (StreamingScreen.process_event py_str) events;;
               lift ending)).
    apply raises_only_bind; [apply raises_only_ret | intros _].
    apply raises_only_bind; [apply raises_only_modify | intros _].
    apply raises_only_bind; [| intros _].
    + apply raises_only_for_each. intros ev s e H. left.
      exact (process_event_raises ev s e H).
    + apply raises_only_lift. intros e H. now right.
  - cbn. intros H. now injection H as <-.
Qed.

End EventLoop.



(** X14.  When the stream was consumed to its normal end, the counter
    holds the number of events the iterator yielded.  So the warning
    about a silent stream is shown exactly when the iterator yielded
    nothing: then the box shows the warning alone and the screen waits
    two seconds before it dismisses; after at least one event, whatever
    its kind, the rendering is left as the last event left it. *)
Theorem warning_only_for_silent_stream
    (py_str : pyval -> string) (id : string) (mounted : bool)
    (events : list StreamEvent.t) (ending : result unit)
    (s : StreamingScreen.t) :
  let streamed := StreamingScreen.consume py_str mounted events ending s in
  let out := StreamingScreen.start_streaming py_str id mounted events ending s in
  snd streamed = Ok tt ->
  StreamingScreen.event_count (fst streamed) = len events
  /\ match events with
     | [] =>
         StreamingScreen.content (fst out) = [no_events_warning]
         /\ StreamingScreen.streaming_box (fst out) = [no_events_warning]
         /\ StreamingScreen.effects (fst out)
            = StreamingScreen.effects s
              ++ [StreamingScreen.Sleep 2; StreamingScreen.Dismiss (Some id)]
     | _ :: _ =>
         out = StreamingScreen.perform (StreamingScreen.Dismiss (Some id))
                 (fst streamed)
         /\ StreamingScreen.effects (fst out)
            = StreamingScreen.effects s ++ [StreamingScreen.Dismiss (Some id)]
     end.
Proof.
  intros streamed out Hok.
  assert (Hmounted : mounted = true).
  { destruct mounted; [reflexivity|]. discriminate Hok. }
  subst mounted.
  pose proof (consume_is_quiet py_str true events ending s) as Hquiet.
  fold streamed in Hquiet. unfold StreamingScreen.same_effects in Hquiet.
  assert (Hcount : StreamingScreen.event_count (fst streamed) = len events).
  { revert Hok. unfold streamed, StreamingScreen.consume.
    unfold mbind, M_bind, StreamingScreen.query_one, mret, M_ret,
      StreamingScreen.init_locals, modify, lift.
    pose proof (for_each_counts py_str events
      {| StreamingScreen.content := [];
         StreamingScreen.current_block_type := PNone;
         StreamingScreen.event_count := 0;
         StreamingScreen.streaming_box := StreamingScreen.streaming_box s;
         StreamingScreen.effects := StreamingScreen.effects s |}) as Hloop.
    cbn zeta in Hloop.
    destruct (for_each (StreamingScreen.process_event py_str) events _)
      as [s1 [[]|e]]; cbn [fst snd] in *; [|discriminate].
    intros _. rewrite (Hloop eq_refl). cbn. lia. }
  split; [exact Hcount|].
  assert (Hout : out =
    (s1 ← get_state;
     when (StreamingScreen.event_count s1 =? 0)
       (StreamingScreen.append
          (PStr (nl +:+ "[yellow]Warning: No events received from stream[/yellow]"))
          (Some "yellow");;
        StreamingScreen.update_content;;
        StreamingScreen.perform (StreamingScreen.Sleep 2));;
     StreamingScreen.perform (StreamingScreen.Dismiss (Some id)))
      (fst streamed)).
  { unfold out, StreamingScreen.start_streaming. rewrite try_except_bind.
    fold streamed. destruct streamed as [s1 [[]|e]]; cbn [fst snd] in *;
      [|discriminate].
    unfold try_except. 
    destruct ((s1 ← get_state;
     when (StreamingScreen.event_count s1 =? 0)
       (StreamingScreen.append
          (PStr (nl +:+ "[yellow]Warning: No events received from stream[/yellow]"))
          (Some "yellow");;
        StreamingScreen.update_content;;
        StreamingScreen.perform (StreamingScreen.Sleep 2));;
     StreamingScreen.perform (StreamingScreen.Dismiss (Some id))) s1)
      as [s2 [[]|e]] eqn:Hrun; [reflexivity|].
    exfalso. revert Hrun. run_monad.
    destruct (StreamingScreen.event_count s1 =? 0); discriminate. }
  destruct events as [|ev events].
  - rewrite Hout.
    unfold streamed, StreamingScreen.consume, StreamingScreen.init_locals,
      for_each, no_events_warning.
    run_monad. change (0 =? 0) with true. cbv iota beta.
    cbn [StreamingScreen.content StreamingScreen.streaming_box
         StreamingScreen.effects fst snd app].
    rewrite <- app_assoc. repeat split; reflexivity.
  - assert (Hnz : (StreamingScreen.event_count (fst streamed) =? 0) = false).
    { apply Z.eqb_neq. rewrite Hcount. unfold len. cbn [length]. lia. }
    rewrite Hout. run_monad. rewrite Hnz. cbn [fst StreamingScreen.effects].
    rewrite Hquiet. split; reflexivity.
Qed.

Lemma warning_only_for_silent_stream_witness :
  let streamed :=
    StreamingScreen.consume (fun _ => "") true [] (Ok tt)
      StreamingScreen.initial in
  let out :=
    StreamingScreen.start_streaming (fun _ => "") "t-2" true [] (Ok tt)
      StreamingScreen.initial in
  snd streamed = Ok tt
  /\ StreamingScreen.streaming_box (fst out) = [no_events_warning].
Proof.
  intros streamed out.
  assert (Hok : snd streamed = Ok tt) by reflexivity.
  split; [exact Hok|].
  exact (proj1 (proj2 (proj2 (warning_only_for_silent_stream (fun _ => "") "t-2"
                                true [] (Ok tt) StreamingScreen.initial Hok)))).
Defined.

(** X15.  A delta that names its block type, a non-empty string, is
    rendered as a [block_start] for that type followed by the same
    delta: the accumulated text, the current block type, what the box
    shows, the effects and the outcome are the same; only the event
    counter tells the two apart, by one. *)
Theorem delta_naming_its_block_starts_it
    (py_str : pyval -> string) (items : list (string * pyval))
    (block_type : string) (s : StreamingScreen.t) :
  dict_get items "block_type" PNone = PStr block_type ->
  block_type <> "" ->
  let delta := StreamEvent.mk "block_delta" (PDict items) in
  let start :=
    StreamEvent.mk "block_start" (PDict [("block_type", PStr block_type)]) in
  let one := StreamingScreen.process_event py_str delta s in
  let two :=
    (StreamingScreen.process_event py_str start;;
     StreamingScreen.process_event py_str delta) s in
  snd two = snd one
  /\ StreamingScreen.content (fst two) = StreamingScreen.content (fst one)
  /\ StreamingScreen.current_block_type (fst two)
     = StreamingScreen.current_block_type (fst one)
  /\ StreamingScreen.streaming_box (fst two)
     = StreamingScreen.streaming_box (fst one)
  /\ StreamingScreen.effects (fst two) = StreamingScreen.effects (fst one)
  /\ StreamingScreen.event_count (fst two)
     = StreamingScreen.event_count (fst one) + 1.
Proof.
  intros Hbt Hne delta start one two.
  assert (Htruthy : py_truthy (PStr block_type) = true).
  { cbn. unfold str_truthy. now rewrite (proj2 (String.eqb_neq _ _) Hne). }
  assert (Hsame : py_eqb (PStr block_type) (PStr block_type) = true)
    by apply String.eqb_refl.
  unfold two, one, start, delta, StreamingScreen.process_event,
    StreamingScreen.switch_on_delta, StreamingScreen.render_delta,
    StreamingScreen.set_current_block_type, StreamingScreen.count_event,
    py_get.
  cbn [StreamEvent.event StreamEvent.data].
  change (String.eqb "block_start" "block_start") with true.
  change (String.eqb "block_delta" "block_start") with false.
  change (String.eqb "block_delta" "block_delta") with true.
  change (dict_get [("block_type", PStr block_type)] "block_type" PNone)
    with (PStr block_type).
  rewrite Hbt. run_monad. rewrite Htruthy. cbn [andb].
  assert (Hcases : StreamingScreen.current_block_type s = PStr block_type
                   \/ py_eqb (PStr block_type)
                        (StreamingScreen.current_block_type s) = false).
  { destruct (StreamingScreen.current_block_type s) as [| | |c| |];
      try (right; reflexivity).
    cbn [py_eqb]. destruct (String.eqb_spec block_type c) as [->|Hc];
      [now left | now right]. }
  destruct Hcases as [Hcur|Hcur];
    repeat (repeat (progress
              (cbv beta iota;
               cbn [fst snd StreamingScreen.content
                    StreamingScreen.current_block_type
                    StreamingScreen.streaming_box StreamingScreen.effects
                    StreamingScreen.event_count negb andb py_truthy];
               rewrite ?Hsame, ?Hcur));
            match goal with
            | |- context [if ?c then _ else _] =>
                lazymatch c with
                | true => fail
                | false => fail
                | _ => destruct c eqn:?
                end
            | |- context [match ?v with PStr _ => _ | _ => _ end] =>
                lazymatch v with
                | PStr _ => fail
                | _ => destruct v eqn:?
                end
            end);
    repeat split; reflexivity.
Qed.

Lemma delta_naming_its_block_starts_it_witness :
  let items := ("block_type", PStr "text") :: Streams.text_delta in
  let delta := StreamEvent.mk "block_delta" (PDict items) in
  let start :=
    StreamEvent.mk "block_start" (PDict [("block_type", PStr "text")]) in
  let one :=
    StreamingScreen.process_event Streams.no_str delta StreamingScreen.initial in
  let two :=
    (StreamingScreen.process_event Streams.no_str start;;
     StreamingScreen.process_event Streams.no_str delta)
      StreamingScreen.initial in
  dict_get items "block_type" PNone = PStr "text"
  /\ "text" <> ""
  /\ StreamingScreen.content (fst two) = StreamingScreen.content (fst one)
  /\ StreamingScreen.event_count (fst two)
     = StreamingScreen.event_count (fst one) + 1.
Proof.
  intros items delta start one two.
  assert (H1 : dict_get items "block_type" PNone = PStr "text") by reflexivity.
  assert (H2 : "text" <> "") by discriminate.
  pose proof (delta_naming_its_block_starts_it Streams.no_str items "text"
                StreamingScreen.initial H1 H2) as H.
  split; [exact H1|]. split; [exact H2|].
  split; [exact (proj1 (proj2 H)) | exact (proj2 (proj2 (proj2 (proj2 (proj2 H)))))].
Defined.

(** ** Double Ctrl+C *)

Lemma step_consistent (ev : MeridianCLI.event) (s s' : MeridianCLI.t) :
  MeridianCLI.consistent s ->
  MeridianCLI.step ev s = Some s' ->
  MeridianCLI.consistent s'
  /\ MeridianCLI._ctrl_c_pressed_once s'
     = match ev with MeridianCLI.Press => true | _ => false end.
Proof.
  intros (Hflag & Hwait & Hheld) Hstep. destruct ev as [|i]; cbn in Hstep.
  - injection Hstep as <-. unfold MeridianCLI.action_handle_ctrl_c.
    destruct (MeridianCLI._ctrl_c_pressed_once s) eqn:Hp.
    + split; [|reflexivity]. unfold MeridianCLI.consistent. cbn.
      split; [exact Hflag|]. split.
      * intros i. destruct (MeridianCLI._ctrl_c_timer s) as [j|] eqn:Hj.
        -- unfold MeridianCLI.stop.
           destruct (MeridianCLI.timers s !! j) as [[| |]|] eqn:Htj;
             try (intros H; now apply Hwait).
           intros H. destruct (decide (i = j)) as [->|Hne]; [reflexivity|].
           rewrite list_lookup_insert_ne in H by congruence.
           specialize (Hwait i H). congruence.
        -- intros H. now apply Hwait.
      * intros i Hi. specialize (Hheld i Hi).
        destruct (MeridianCLI._ctrl_c_timer s) as [j|]; [|discriminate].
        unfold MeridianCLI.stop.
        destruct (MeridianCLI.timers s !! j) as [[| |]|]; try exact Hheld.
        now rewrite length_insert.
    + split; [|reflexivity]. unfold MeridianCLI.consistent. cbn.
      split; [split; [discriminate | reflexivity]|]. split.
      * intros i H. f_equal.
        destruct (lookup_app_Some (MeridianCLI.timers s) [MeridianCLI.Waiting]
                    i MeridianCLI.Waiting) as [Hsplit _].
        destruct (Hsplit H) as [Hold|[Hlen Hnew]].
        -- specialize (Hwait i Hold).
           assert (MeridianCLI._ctrl_c_timer s <> None) by congruence.
           apply Hflag in H0. congruence.
        -- apply lookup_lt_Some in Hnew. cbn in Hnew. lia.
      * intros i Hi. injection Hi as <-. rewrite length_app. cbn. lia.
  - destruct (MeridianCLI.timers s !! i) as [[| |]|] eqn:Hti; try discriminate.
    injection Hstep as <-. split; [|reflexivity].
    unfold MeridianCLI.consistent. cbn.
    split; [split; [discriminate | congruence]|]. split; [|discriminate].
    intros j H. exfalso. destruct (decide (j = i)) as [->|Hne].
    + apply lookup_lt_Some in Hti.
      rewrite list_lookup_insert_eq in H by exact Hti. discriminate.
    + rewrite list_lookup_insert_ne in H by congruence.
      pose proof (Hwait j H) as Hj. pose proof (Hwait i Hti) as Hi. congruence.
Qed.

Lemma step_counts (ev : MeridianCLI.event) (s s' : MeridianCLI.t) :
  MeridianCLI.step ev s = Some s' ->
  (MeridianCLI.exits s'
   = MeridianCLI.exits s
     + MeridianCLI.second_presses (MeridianCLI._ctrl_c_pressed_once s) [ev]
   /\ length (MeridianCLI.notifications s') + MeridianCLI.exits s'
      = length (MeridianCLI.notifications s) + MeridianCLI.exits s
        + MeridianCLI.presses [ev])%nat.
Proof.
  destruct ev as [|i]; cbn.
  - intros H. injection H as <-. unfold MeridianCLI.action_handle_ctrl_c.
    destruct (MeridianCLI._ctrl_c_pressed_once s); cbn;
      rewrite ?length_app; cbn; lia.
  - destruct (MeridianCLI.timers s !! i) as [[| |]|]; try discriminate.
    intros H. injection H as <-. cbn. lia.
Qed.

(** X16.  Over any course of presses and timer expiries, the app calls
    [exit] exactly at the presses that directly follow a press, and
    notifies at every other press.  At most one timer is ever waiting,
    the one made at the latest notified press, so an expiry can only
    come directly after a press, and it always disarms the app; the
    flag is set exactly when the last thing that happened was a press. *)
Theorem exit_on_second_press_only
    (evs : list MeridianCLI.event) (s' : MeridianCLI.t) :
  MeridianCLI.run evs MeridianCLI.initial = Some s' ->
  MeridianCLI.exits s' = MeridianCLI.second_presses false evs
  /\ (length (MeridianCLI.notifications s') + MeridianCLI.exits s'
      = MeridianCLI.presses evs)%nat
  /\ MeridianCLI.consistent s'
  /\ (MeridianCLI._ctrl_c_pressed_once s' = true
      <-> exists before, evs = before ++ [MeridianCLI.Press])
  /\ (forall before i after,
        evs = before ++ MeridianCLI.Expire i :: after ->
        exists earlier, before = earlier ++ [MeridianCLI.Press]).
Proof.
  assert (Hgen : forall evs s s',
    MeridianCLI.consistent s ->
    MeridianCLI.run evs s = Some s' ->
    (MeridianCLI.exits s'
     = MeridianCLI.exits s
       + MeridianCLI.second_presses (MeridianCLI._ctrl_c_pressed_once s) evs
     /\ length (MeridianCLI.notifications s') + MeridianCLI.exits s'
        = length (MeridianCLI.notifications s) + MeridianCLI.exits s
          + MeridianCLI.presses evs)%nat
    /\ MeridianCLI.consistent s'
    /\ (MeridianCLI._ctrl_c_pressed_once s' = true
        <-> (evs = [] /\ MeridianCLI._ctrl_c_pressed_once s = true)
            \/ exists before, evs = before ++ [MeridianCLI.Press])
    /\ (forall before i after,
          evs = before ++ MeridianCLI.Expire i :: after ->
          (before = [] /\ MeridianCLI._ctrl_c_pressed_once s = true)
          \/ exists earlier, before = earlier ++ [MeridianCLI.Press])).
  { clear. induction evs as [|ev evs IH]; intros s s' Hs Hrun; cbn in Hrun.
    - injection Hrun as <-. cbn. repeat split; try lia; try apply Hs.
      + intros H. left. now split.
      + intros [[_ H]|[before H]]; [exact H|]. now destruct before.
      + intros before i after H. now destruct before.
    - destruct (MeridianCLI.step ev s) as [s1|] eqn:Hstep; [|discriminate].
      destruct (step_consistent ev s s1 Hs Hstep) as [Hs1 Hflag1].
      destruct (step_counts ev s s1 Hstep) as [Hex1 Hno1].
      destruct (IH s1 s' Hs1 Hrun) as ((Hex & Hno) & Hs' & Hlast & Hexp).
      split; [|split; [exact Hs'|split]].
      + rewrite Hflag1 in Hex. split.
        * rewrite Hex, Hex1. destruct ev; cbn; lia.
        * rewrite Hno, Hno1. unfold MeridianCLI.presses. destruct ev; cbn; lia.
      + rewrite Hlast. split.
        * intros [[-> H]|[before ->]]; right.
          -- exists []. rewrite Hflag1 in H. destruct ev; [reflexivity|discriminate].
          -- exists (ev :: before). reflexivity.
        * intros [[H _]|[before H]]; [discriminate|].
          destruct before as [|b before]; cbn in H.
          -- injection H as -> <-. left. split; [reflexivity|].
             now rewrite Hflag1.
          -- injection H as -> ->. right. now exists before.
      + intros before i after H. destruct before as [|b before]; cbn in H.
        * injection H as -> ->. left. split; [reflexivity|].
          cbn in Hstep.
          destruct (MeridianCLI.timers s !! i) as [[| |]|] eqn:Hti;
            try discriminate.
          destruct Hs as (Hflag & Hwait & _). apply Hflag.
          rewrite (Hwait i Hti). discriminate.
        * injection H as <- ->. right.
          destruct (Hexp before i after eq_refl) as [[-> H]|[earlier ->]].
          -- exists []. rewrite Hflag1 in H.
             destruct ev; [reflexivity|discriminate].
          -- exists (ev :: earlier). reflexivity. }
  intros Hrun.
  assert (Hinit : MeridianCLI.consistent MeridianCLI.initial).
  { unfold MeridianCLI.consistent. cbn. split; [split; [discriminate|congruence]|].
    split; [|discriminate]. intros i H. now rewrite lookup_nil in H. }
  destruct (Hgen evs _ s' Hinit Hrun) as ((Hex & Hno) & Hs' & Hlast & Hexp).
  cbn in Hex, Hno, Hlast, Hexp.
  split; [exact Hex|]. split; [exact Hno|]. split; [exact Hs'|]. split.
  - rewrite Hlast. split; [intros [[_ H]|H]; [discriminate | exact H] | now right].
  - intros before i after H.
    destruct (Hexp before i after H) as [[_ Hf]|Hpress];
      [discriminate | exact Hpress].
Qed.

Lemma exit_on_second_press_only_witness :
  exists s',
    MeridianCLI.run
      [MeridianCLI.Press; MeridianCLI.Expire 0; MeridianCLI.Press;
       MeridianCLI.Press] MeridianCLI.initial = Some s'
    /\ MeridianCLI.exits s' = 1%nat
    /\ length (MeridianCLI.notifications s') = 2%nat.
Proof.
  eexists. split; [reflexivity|].
  pose proof (exit_on_second_press_only
    [MeridianCLI.Press; MeridianCLI.Expire 0; MeridianCLI.Press;
     MeridianCLI.Press] _ eq_refl) as (Hex & Hno & _).
  split; [exact Hex|]. rewrite Hex in Hno. cbn in Hno. cbn. lia.
Defined.

(** ** Old log files *)

Lemma insert_Permutation (f : Logs.file) (l : list Logs.file) :
  Permutation (f :: l) (Logs.insert f l).
Proof.
  induction l as [|g l IH]; cbn; [reflexivity|].
  destruct (Logs.st_mtime f <? Logs.st_mtime g); [|reflexivity].
  rewrite Permutation_swap. now constructor.
Qed.

Lemma sorted_Permutation (files : list Logs.file) :
  Permutation files (Logs.sorted files).
Proof.
  induction files as [|f files IH]; cbn; [reflexivity|].
  rewrite <- insert_Permutation. now constructor.
Qed.

(** Newest first: no file comes before a newer one. *)
Lemma insert_newest_first (f : Logs.file) (l : list Logs.file) :
  StronglySorted (fun a b => Logs.st_mtime b <= Logs.st_mtime a) l ->
  StronglySorted (fun a b => Logs.st_mtime b <= Logs.st_mtime a)
    (Logs.insert f l).
Proof.
  induction 1 as [|g l Hl IH Hg]; cbn.
  - repeat constructor.
  - destruct (Z.ltb_spec (Logs.st_mtime f) (Logs.st_mtime g)) as [Hlt|Hge].
    + constructor; [exact IH|].
      rewrite <- (insert_Permutation f l).
      constructor; [lia | exact Hg].
    + constructor; [now constructor|].
      constructor; [lia|].
      eapply Forall_impl; [exact Hg|]. cbn. intros h Hh. lia.
Qed.

Lemma sorted_newest_first (files : list Logs.file) :
  StronglySorted (fun a b => Logs.st_mtime b <= Logs.st_mtime a)
    (Logs.sorted files).
Proof.
  induction files as [|f files IH]; cbn; [constructor|].
  now apply insert_newest_first.
Qed.

Lemma newest_first_split (l : list Logs.file) (n : nat) :
  StronglySorted (fun a b => Logs.st_mtime b <= Logs.st_mtime a) l ->
  forall k d, In k (take n l) -> In d (drop n l) ->
              Logs.st_mtime d <= Logs.st_mtime k.
Proof.
  intros Hl. revert n. induction Hl as [|g l Hl IH Hg]; intros n k d.
  - rewrite take_nil. intros [].
  - destruct n as [|n]; cbn; [intros []|].
    intros [<-|Hk] Hd.
    + rewrite List.Forall_forall in Hg. apply Hg.
      rewrite <- (firstn_skipn n l). apply in_or_app. now right.
    + now apply (IH n).
Qed.

(** The loop over the old files: each is tried, whatever became of the
    ones before it. *)
Lemma unlink_loop (outcome : Logs.file -> result unit)
    (old : list Logs.file) (s : Logs.t) :
  (forall f e, outcome f = Raise e -> is_Exception e = true) ->
  let out :=
    for_each
      (fun old_file =>
         try_except
           (Logs.unlink outcome old_file;;
            Logs.debug ("Deleted old log file: " +:+ Logs.name old_file))
           (fun e =>
              Logs.warning ("Failed to delete old log " +:+ Logs.name old_file
                            +:+ ": " +:+ exn_str e)))
      old s in
  snd out = Ok tt
  /\ Logs.unlinked (fst out)
     = Logs.unlinked s ++ List.filter (Logs.removable outcome) old
  /\ (length (Logs.debugs (fst out)) + length (Logs.warnings (fst out))
      = length (Logs.debugs s) + length (Logs.warnings s) + length old)%nat.
Proof.
  intros Hexn.
  assert (Hbody : forall f (s : Logs.t),
    try_except
      (Logs.unlink outcome f;;
       Logs.debug ("Deleted old log file: " +:+ Logs.name f))
      (fun e =>
         Logs.warning ("Failed to delete old log " +:+ Logs.name f
                       +:+ ": " +:+ exn_str e)) s
    = (match outcome f with
       | Ok _ =>
           {| Logs.unlinked := Logs.unlinked s ++ [f];
              Logs.debugs := Logs.debugs s
                             ++ ["Deleted old log file: " +:+ Logs.name f];
              Logs.warnings := Logs.warnings s |}
       | Raise e =>
           {| Logs.unlinked := Logs.unlinked s;
              Logs.debugs := Logs.debugs s;
              Logs.warnings := Logs.warnings s
                               ++ ["Failed to delete old log " +:+ Logs.name f
                                   +:+ ": " +:+ exn_str e] |}
       end, Ok tt)).
  { intros f s0.
    unfold try_except, Logs.unlink, Logs.debug, Logs.warning, mbind, M_bind,
      lift, modify.
    destruct (outcome f) as [[]|e] eqn:Hf; [reflexivity|].
    now rewrite (Hexn f e Hf). }
  revert s. induction old as [|f old IH]; intros s; cbn zeta.
  - cbn. rewrite app_nil_r. repeat split; lia.
  - rewrite for_each_cons, Hbody. cbn [List.filter].
    unfold Logs.removable at 1.
    destruct (outcome f) as [[]|e] eqn:Hf.
    + destruct (IH
        {| Logs.unlinked := Logs.unlinked s ++ [f];
           Logs.debugs := Logs.debugs s
                          ++ ["Deleted old log file: " +:+ Logs.name f];
           Logs.warnings := Logs.warnings s |}) as (Hret & Hun & Hlog).
      cbn [Logs.unlinked Logs.debugs Logs.warnings] in *.
      split; [exact Hret|]. split.
      * rewrite Hun, <- app_assoc. reflexivity.
      * rewrite Hlog, length_app. cbn. lia.
    + destruct (IH
        {| Logs.unlinked := Logs.unlinked s;
           Logs.debugs := Logs.debugs s;
           Logs.warnings := Logs.warnings s
                            ++ ["Failed to delete old log " +:+ Logs.name f
                                +:+ ": " +:+ exn_str e] |}) as (Hret & Hun & Hlog).
      cbn [Logs.unlinked Logs.debugs Logs.warnings] in *.
      split; [exact Hret|]. split; [exact Hun|].
      rewrite Hlog, length_app. cbn. lia.
Qed.

(** X17.  [cleanup_old_logs] with a count that is not negative, on a
    directory it could list, where a failing [unlink] raises an
    exception: it returns; the listed files fall into those it keeps, as
    many as the count allows, and those it tries to remove, none of which
    is newer than a kept one; every file of the second part is tried,
    whatever became of the ones before it, with one log line each, and
    exactly those the file system lets go are removed.  Nothing is
    removed when the listing has no more files than the count. *)
Theorem cleanup_keeps_the_newest
    (files : list Logs.file) (keep_count : Z)
    (outcome : Logs.file -> result unit) :
  0 <= keep_count ->
  (forall f e, outcome f = Raise e -> is_Exception e = true) ->
  let out :=
    Logs.cleanup_old_logs (Ok files) keep_count outcome Logs.initial in
  snd out = Ok tt
  /\ exists kept old,
       Permutation files (kept ++ old)
       /\ len kept = Z.min (len files) keep_count
       /\ (forall k d, In k kept -> In d old ->
             Logs.st_mtime d <= Logs.st_mtime k)
       /\ Logs.unlinked (fst out) = List.filter (Logs.removable outcome) old
       /\ (length (Logs.debugs (fst out)) + length (Logs.warnings (fst out))
           = length old)%nat
       /\ (len files <= keep_count -> Logs.unlinked (fst out) = []).
Proof.
  intros Hkeep Hexn out.
  set (n := Z.to_nat keep_count).
  pose proof (unlink_loop outcome (drop n (Logs.sorted files)) Logs.initial Hexn)
    as Hloop. cbn zeta in Hloop.
  assert (Hout : out =
    for_each
      (fun old_file =>
         try_except
           (Logs.unlink outcome old_file;;
            Logs.debug ("Deleted old log file: " +:+ Logs.name old_file))
           (fun e =>
              Logs.warning ("Failed to delete old log " +:+ Logs.name old_file
                            +:+ ": " +:+ exn_str e)))
      (drop n (Logs.sorted files)) Logs.initial).
  { unfold out, Logs.cleanup_old_logs, Logs.py_slice_from.
    replace (keep_count <? 0) with false by (symmetry; apply Z.ltb_ge; lia).
    fold n. unfold try_except at 1. unfold mbind at 1, M_bind at 1, lift.
    destruct Hloop as (Hret & _).
    destruct (for_each _ (drop n (Logs.sorted files)) Logs.initial)
      as [s1 [[]|e]]; [reflexivity | discriminate Hret]. }
  rewrite Hout. destruct Hloop as (Hret & Hun & Hlog).
  split; [exact Hret|].
  exists (take n (Logs.sorted files)), (drop n (Logs.sorted files)).
  pose proof (sorted_Permutation files) as Hperm.
  assert (Hlen : length (Logs.sorted files) = length files)
    by (symmetry; now apply Permutation_length).
  split; [now rewrite take_drop|]. split.
  { unfold len. rewrite length_take, Hlen. subst n. lia. }
  split; [apply newest_first_split, sorted_newest_first|].
  split; [exact Hun|]. split; [exact Hlog|].
  intros Hfew. rewrite Hun. cbn [Logs.initial Logs.unlinked app].
  rewrite drop_ge; [reflexivity|]. rewrite Hlen. unfold len in Hfew. subst n. lia.
Qed.

Lemma cleanup_keeps_the_newest_witness :
  let files :=
    [Logs.mk_file "meridian_a.log" 10; Logs.mk_file "meridian_b.log" 30;
     Logs.mk_file "meridian_c.log" 20] in
  let outcome (f : Logs.file) : result unit := Ok tt in
  0 <= 2
  /\ (forall f e, outcome f = Raise e -> is_Exception e = true)
  /\ snd (Logs.cleanup_old_logs (Ok files) 2 outcome Logs.initial) = Ok tt.
Proof.
  intros files outcome.
  assert (H1 : 0 <= 2) by lia.
  assert (H2 : forall f e, outcome f = Raise e -> is_Exception e = true)
    by discriminate.
  split; [exact H1|]. split; [exact H2|].
  exact (proj1 (cleanup_keeps_the_newest files 2 outcome H1 H2)).
Defined.

(** ** The parameter editor *)

Lemma py_in_strings (v : pyval) (ss : list string) :
  py_in v ss = true -> exists s, v = PStr s /\ In s ss.
Proof.
  unfold py_in, py_is. intros H. apply existsb_exists in H as (s & Hs & Heq).
  destruct v; try discriminate Heq. cbn in Heq.
  apply String.eqb_eq in Heq as ->. now exists s.
Qed.

Lemma py_in_member (s : string) (ss : list string) :
  In s ss -> py_in (PStr s) ss = true.
Proof.
  intros H. unfold py_in, py_is. apply existsb_exists. exists s.
  split; [exact H | apply String.eqb_refl].
Qed.

(** X18.  Whatever the current params hold, [compose] either raises
    [TypeError], which it does exactly when the provider or the model
    kept there is a list or a dict, or opens the two selects on a
    provider of the provider select and on one of the models offered for
    that provider.  A valid pair found in the params is kept as it is;
    and when the provider select changes to one of its providers, the
    model select is set to a model of that provider. *)
Theorem selects_open_on_valid_pair (params : list (string * pyval)) :
  let provider := dict_get params "provider"
                    (PStr ParamsEditorScreen.DEFAULT_PROVIDER) in
  let model := dict_get params "model" PNone in
  match ParamsEditorScreen.compose params with
  | Ok sel =>
      ParamsEditorScreen.unhashable provider = false
      /\ ParamsEditorScreen.unhashable model = false
      /\ exists p m,
           ParamsEditorScreen.provider_value sel = PStr p
           /\ ParamsEditorScreen.model_value sel = PStr m
           /\ ParamsEditorScreen.valid_pair p m
           /\ ParamsEditorScreen.model_options sel
              = ParamsEditorScreen.options_get
                  ParamsEditorScreen.MODEL_OPTIONS_BY_PROVIDER p
  | Raise e =>
      (exists msg, e = TypeError msg)
      /\ (ParamsEditorScreen.unhashable provider = true
          \/ ParamsEditorScreen.unhashable model = true)
  end
  /\ (forall p m,
        provider = PStr p -> model = PStr m ->
        ParamsEditorScreen.valid_pair p m ->
        exists options,
          ParamsEditorScreen.compose params
          = Ok (ParamsEditorScreen.mk_selection (PStr p) options (PStr m)))
  /\ (forall p,
        In p (map snd ParamsEditorScreen.PROVIDER_OPTIONS) ->
        exists m,
          snd (ParamsEditorScreen._update_model_options p) = Some m
          /\ ParamsEditorScreen.valid_pair p m).
Proof.
  intros provider model.
  assert (Hfirst : forall p,
    In p (map snd ParamsEditorScreen.PROVIDER_OPTIONS) ->
    exists label m rest,
      ParamsEditorScreen.options_get
        ParamsEditorScreen.MODEL_OPTIONS_BY_PROVIDER p = (label, m) :: rest).
  { intros p Hp. cbn in Hp. destruct Hp as [<-|[<-|[<-|[]]]];
      do 3 eexists; reflexivity. }
  split; [|split].
  - unfold ParamsEditorScreen.compose. fold provider model.
    destruct (ParamsEditorScreen.py_in_set provider _) as [known|e] eqn:Hprov.
    + assert (Hhash : ParamsEditorScreen.unhashable provider = false)
        by (destruct provider; try reflexivity; discriminate Hprov).
      assert (Hp : exists p,
        (if known then provider else PStr ParamsEditorScreen.DEFAULT_PROVIDER)
        = PStr p
        /\ In p (map snd ParamsEditorScreen.PROVIDER_OPTIONS)).
      { destruct known.
        - assert (Hin : py_in provider
                          (map snd ParamsEditorScreen.PROVIDER_OPTIONS) = true)
            by (destruct provider; cbn in Hprov; try discriminate Hprov;
                now injection Hprov).
          exact (py_in_strings _ _ Hin).
        - exists "lorem". split; [reflexivity|]. cbn. tauto. }
      destruct Hp as (p & -> & Hp). cbn [ParamsEditorScreen.model_options_for].
      destruct (Hfirst p Hp) as (label & m0 & rest & Hoptions).
      destruct (ParamsEditorScreen.py_in_set model _) as [known_model|e] eqn:Hmod.
      * assert (Hhash' : ParamsEditorScreen.unhashable model = false)
          by (destruct model; try reflexivity; discriminate Hmod).
        split; [exact Hhash|]. split; [exact Hhash'|].
        cbn [ParamsEditorScreen.provider_value ParamsEditorScreen.model_value
             ParamsEditorScreen.model_options].
        destruct known_model.
        -- assert (Hin : py_in model
                     (map snd (ParamsEditorScreen.options_get
                                 ParamsEditorScreen.MODEL_OPTIONS_BY_PROVIDER p))
                   = true)
             by (destruct model; cbn in Hmod; try discriminate Hmod;
                 now injection Hmod).
           destruct (py_in_strings _ _ Hin) as (m & -> & Hm).
           exists p, m. repeat split; assumption.
        -- exists p, m0. rewrite Hoptions. repeat split; try assumption.
           rewrite Hoptions. now left.
      * split.
        -- destruct model; cbn in Hmod; try discriminate Hmod;
             injection Hmod as <-; eexists; reflexivity.
        -- right. destruct model; cbn in Hmod; try discriminate Hmod; reflexivity.
    + split.
      * destruct provider; cbn in Hprov; try discriminate Hprov;
          injection Hprov as <-; eexists; reflexivity.
      * left. destruct provider; cbn in Hprov; try discriminate Hprov; reflexivity.
  - intros p m Hprov Hmod [Hp Hm]. unfold ParamsEditorScreen.compose.
    fold provider model. rewrite Hprov, Hmod.
    cbn [ParamsEditorScreen.py_in_set]. rewrite (py_in_member p _ Hp).
    cbn [ParamsEditorScreen.model_options_for]. rewrite (py_in_member m _ Hm).
    eexists. reflexivity.
  - intros p Hp. destruct (Hfirst p Hp) as (label & m & rest & Hoptions).
    exists m. unfold ParamsEditorScreen._update_model_options.
    rewrite Hoptions. split; [reflexivity|]. split; [exact Hp|].
    rewrite Hoptions. now left.
Qed.

(** ** The chat list *)

Lemma append_items (chats : list Chat.t) (s : ChatListScreen.t) :
  for_each (fun chat => ChatListScreen.append (ChatListScreen.item_of chat))
    chats s
  = ({| ChatListScreen.list_view :=
          ChatListScreen.list_view s ++ map ChatListScreen.item_of chats;
        ChatListScreen.list_focused := ChatListScreen.list_focused s;
        ChatListScreen.notifications := ChatListScreen.notifications s;
        ChatListScreen.current_chat_id := ChatListScreen.current_chat_id s;
        ChatListScreen.pushed := ChatListScreen.pushed s |}, Ok tt).
Proof.
  revert s. induction chats as [|chat chats IH]; intros s.
  - cbn. rewrite app_nil_r. now destruct s.
  - rewrite for_each_cons. cbn [ChatListScreen.append modify]. rewrite IH.
    cbn. now rewrite <- app_assoc.
Qed.

Lemma on_mount_loaded (chats : list Chat.t) (s : ChatListScreen.t) :
  ChatListScreen.on_mount (Ok chats) s
  = ({| ChatListScreen.list_view :=
          ChatListScreen.list_view s ++ ChatListScreen.items_for chats;
        ChatListScreen.list_focused := true;
        ChatListScreen.notifications := ChatListScreen.notifications s;
        ChatListScreen.current_chat_id := ChatListScreen.current_chat_id s;
        ChatListScreen.pushed := ChatListScreen.pushed s |}, Ok tt).
Proof.
  unfold ChatListScreen.on_mount. rewrite try_except_bind. cbn [lift].
  destruct chats as [|chat chats].
  - reflexivity.
  - rewrite try_except_bind, append_items. reflexivity.
Qed.

(** X19.  Loading the chat list never clears it: a load that succeeds
    adds the items of the chats it got, or the one placeholder when it
    got none, after the items already there, and a load that fails adds
    nothing and notifies.  So after a chat was created, the reload that
    follows lists the answer of the server after what the first load
    listed, the placeholder included.  Selecting an item opens the turn
    browser, on the chat of the item, exactly when the item was made for
    a chat. *)
Theorem reload_adds_to_the_list
    (first reload : list Chat.t) (title : string) (created : Chat.t)
    (e : exn) (selected : ChatListScreen.item) (s : ChatListScreen.t) :
  is_Exception e = true ->
  let loaded := fst (ChatListScreen.on_mount (Ok first) s) in
  let again :=
    fst (ChatListScreen.create_chat title (Ok created) (Ok reload) loaded) in
  let opened := fst (ChatListScreen.on_list_view_selected selected again) in
  ChatListScreen.list_view loaded
  = ChatListScreen.list_view s ++ ChatListScreen.items_for first
  /\ ChatListScreen.list_view again
     = ChatListScreen.list_view s ++ ChatListScreen.items_for first
       ++ ChatListScreen.items_for reload
  /\ ChatListScreen.notifications again
     = ChatListScreen.notifications s ++ ["Created chat: " +:+ title]
  /\ ChatListScreen.on_mount (Raise e) s
     = ChatListScreen.notify ("Error loading chats: " +:+ exn_str e) s
  /\ ChatListScreen.create_chat title (Raise e) (Ok reload) loaded
     = ChatListScreen.notify ("Error creating chat: " +:+ exn_str e) loaded
  /\ match ChatListScreen.chat_data selected with
     | Some chat =>
         ChatListScreen.current_chat_id opened = Some (Chat.id chat)
         /\ ChatListScreen.pushed opened
            = ChatListScreen.pushed s ++ ["turn_browser"]
     | None => opened = again
     end
  /\ (In selected (ChatListScreen.list_view again) ->
      ChatListScreen.list_view s = [] ->
      ChatListScreen.chat_data selected = None ->
      selected = ChatListScreen.placeholder
      /\ (first = [] \/ reload = [])).
Proof.
  intros He loaded again opened.
  assert (Hloaded : loaded =
    {| ChatListScreen.list_view :=
         ChatListScreen.list_view s ++ ChatListScreen.items_for first;
       ChatListScreen.list_focused := true;
       ChatListScreen.notifications := ChatListScreen.notifications s;
       ChatListScreen.current_chat_id := ChatListScreen.current_chat_id s;
       ChatListScreen.pushed := ChatListScreen.pushed s |})
    by (unfold loaded; now rewrite on_mount_loaded).
  assert (Hagain : again =
    {| ChatListScreen.list_view :=
         (ChatListScreen.list_view s ++ ChatListScreen.items_for first)
         ++ ChatListScreen.items_for reload;
       ChatListScreen.list_focused := true;
       ChatListScreen.notifications :=
         ChatListScreen.notifications s ++ ["Created chat: " +:+ title];
       ChatListScreen.current_chat_id := ChatListScreen.current_chat_id s;
       ChatListScreen.pushed := ChatListScreen.pushed s |}).
  { unfold again, ChatListScreen.create_chat.
    rewrite try_except_bind. cbn [lift]. rewrite try_except_bind.
    cbn [ChatListScreen.notify modify]. unfold try_except.
    rewrite on_mount_loaded, Hloaded. reflexivity. }
  split; [now rewrite Hloaded|]. split; [now rewrite Hagain, <- app_assoc|].
  split; [now rewrite Hagain|]. split.
  { unfold ChatListScreen.on_mount. rewrite try_except_bind. cbn [lift].
    now rewrite He. }
  split.
  { unfold ChatListScreen.create_chat. rewrite try_except_bind. cbn [lift].
    now rewrite He. }
  split.
  { unfold opened, ChatListScreen.on_list_view_selected.
    destruct (ChatListScreen.chat_data selected) as [chat|]; [|reflexivity].
    rewrite Hagain. split; reflexivity. }
  intros Hin Hempty Hnone. rewrite Hagain in Hin.
  cbn [ChatListScreen.list_view] in Hin. rewrite Hempty in Hin. cbn [app] in Hin.
  assert (Hitems : forall chats,
    In selected (ChatListScreen.items_for chats) ->
    selected = ChatListScreen.placeholder /\ chats = []).
  { intros chats H. destruct chats as [|chat chats].
    - destruct H as [<-|[]]. now split.
    - exfalso. change (In selected (map ChatListScreen.item_of (chat :: chats))) in H.
      apply in_map_iff in H as (c & <- & _). discriminate Hnone. }
  apply in_app_or in Hin as [H|H]; destruct (Hitems _ H) as [-> ->];
    split; auto.
Qed.

Lemma reload_adds_to_the_list_witness :
  let chat := Chat.mk "c-1" "Notes" "p-1" "2025-01-01" "2025-01-01" in
  let loaded :=
    fst (ChatListScreen.on_mount (Ok []) ChatListScreen.initial) in
  let again :=
    fst (ChatListScreen.create_chat "Notes" (Ok chat) (Ok [chat]) loaded) in
  is_Exception ValueError = true
  /\ ChatListScreen.list_view again
     = [ChatListScreen.placeholder; ChatListScreen.item_of chat].
Proof.
  intros chat loaded again. split; [reflexivity|].
  exact (proj1 (proj2 (reload_adds_to_the_list [] [chat] "Notes" chat
                         ValueError ChatListScreen.placeholder
                         ChatListScreen.initial eq_refl))).
Defined.

(** ** Submitting a message *)

Section StripProofs.

Variable isspace : Ascii.ascii -> bool.

Local Abbreviation lstrip := (Submission.lstrip isspace).
Local Abbreviation rstrip := (Submission.rstrip isspace).
Local Abbreviation strip := (Submission.strip isspace).
Local Abbreviation blank := (Submission.blank isspace).

Lemma lstrip_blank (s : string) : lstrip s = "" <-> blank s = true.
Proof.
  induction s as [|c s IH]; cbn; [tauto|].
  destruct (isspace c); cbn; [exact IH|]. split; discriminate.
Qed.

Lemma rstrip_blank (s : string) : rstrip s = "" <-> blank s = true.
Proof.
  induction s as [|c s IH]; cbn; [tauto|].
  destruct (rstrip s) as [|d r].
  - destruct (isspace c); cbn.
    + split; [intros _; now apply IH | reflexivity].
    + split; discriminate.
  - split; [discriminate|]. intros H. apply andb_true_iff in H as [_ H].
    apply IH in H. discriminate H.
Qed.

Lemma blank_lstrip (s : string) : blank (lstrip s) = blank s.
Proof.
  induction s as [|c s IH]; cbn; [reflexivity|].
  destruct (isspace c) eqn:Hc; cbn; [exact IH|]. now rewrite Hc.
Qed.

Lemma strip_blank (s : string) : strip s = "" <-> blank s = true.
Proof.
  unfold Submission.strip. now rewrite rstrip_blank, blank_lstrip.
Qed.

Lemma lstrip_first (s : string) (c : Ascii.ascii) :
  Submission.first_char (lstrip s) = Some c -> isspace c = false.
Proof.
  induction s as [|d s IH]; cbn; [discriminate|].
  destruct (isspace d) eqn:Hd; [exact IH|]. cbn. now intros [= <-].
Qed.

Lemma rstrip_first (s : string) :
  (forall c, Submission.first_char s = Some c -> isspace c = false) ->
  Submission.first_char (rstrip s) = Submission.first_char s.
Proof.
  destruct s as [|c s]; [reflexivity|]. cbn. intros H.
  destruct (rstrip s); [|reflexivity]. now rewrite (H c eq_refl).
Qed.

Lemma rstrip_last (s : string) (c : Ascii.ascii) :
  Submission.last_char (rstrip s) = Some c -> isspace c = false.
Proof.
  induction s as [|d s IH]; cbn; [discriminate|].
  destruct (rstrip s) as [|e r].
  - destruct (isspace d) eqn:Hd; cbn; [discriminate|]. now intros [= <-].
  - exact IH.
Qed.

Lemma rstrip_idempotent (s : string) : rstrip (rstrip s) = rstrip s.
Proof.
  induction s as [|c s IH]; [reflexivity|]. cbn.
  destruct (rstrip s) as [|d r] eqn:Hr.
  - destruct (isspace c) eqn:Hc; [reflexivity|]. cbn. now rewrite Hc.
  - change (rstrip (String c (String d r))) with
      (match rstrip (String d r) with
       | EmptyString => if isspace c then EmptyString else String c EmptyString
       | String d' r' => String c (String d' r')
       end).
    now rewrite IH.
Qed.

Lemma lstrip_fixed (s : string) :
  (forall c, Submission.first_char s = Some c -> isspace c = false) ->
  lstrip s = s.
Proof.
  destruct s as [|c s]; [reflexivity|]. cbn. intros H.
  now rewrite (H c eq_refl).
Qed.

Lemma strip_first (s : string) (c : Ascii.ascii) :
  Submission.first_char (strip s) = Some c -> isspace c = false.
Proof.
  unfold Submission.strip. rewrite rstrip_first by apply lstrip_first.
  apply lstrip_first.
Qed.

Lemma strip_idempotent (s : string) : strip (strip s) = strip s.
Proof.
  unfold Submission.strip at 1. rewrite lstrip_fixed by apply strip_first.
  unfold Submission.strip. apply rstrip_idempotent.
Qed.

End StripProofs.



(** X21.  [submit_message], with no other navigation going on: the
    request carries the id of the turn on display, or [None] when there
    is none.  When [create_turn] fails with an exception, the browser
    notifies, does not navigate and pushes no streaming screen.  When it
    returns, the browser is left as [_do_navigate] to the user turn
    leaves it, and one streaming screen for the two new turns is pushed
    whether that navigation showed the turn, failed or was cancelled.
    When the streaming screen is dismissed, the browser is sent to the
    assistant turn exactly when the screen reported an id that is not
    empty. *)
Theorem submit_message_outcomes
    (content : string) (created : result CreateTurnResponse.t)
    (page : fetch_outcome) (reported : option string) (s : Submission.t) :
  let out := Submission.submit_message content created page s in
  let prev :=
    match TurnBrowserScreen.current_turn (Submission.browser s) with
    | Some turn => Some (Turn.id turn)
    | None => None
    end in
  let done := fst (Submission.on_streaming_done reported (fst out)) in
  Submission.requests (fst out) = Submission.requests s ++ [(prev, content)]
  /\ match created with
     | Ok response =>
         snd out = Ok tt
         /\ Submission.browser (fst out)
            = fst (TurnBrowserScreen._do_navigate
                     (Turn.id (CreateTurnResponse.user_turn response)) page
                     (Submission.browser s))
         /\ Submission.streaming_screens (fst out)
            = Submission.streaming_screens s
              ++ [(CreateTurnResponse.user_turn response,
                   CreateTurnResponse.assistant_turn response)]
     | Raise e =>
         Submission.streaming_screens (fst out) = Submission.streaming_screens s
         /\ if is_Exception e
            then snd out = Ok tt
                 /\ Submission.browser (fst out)
                    = fst (TurnBrowserScreen.notify
                             ("Error submitting message: " +:+ exn_str e)
                             (Submission.browser s))
            else snd out = Raise e
                 /\ Submission.browser (fst out) = Submission.browser s
     end
  /\ Submission.navigations done
     = Submission.navigations s
       ++ match reported with
          | Some id => if String.eqb id "" then [] else [id]
          | None => []
          end.
Proof.
  intros out prev done.
  assert (Hnav : forall id b,
    exists b', Submission.navigate_to_turn id page b = (b', Ok tt)
               /\ b' = fst (TurnBrowserScreen._do_navigate id page b)).
  { intros id b. unfold Submission.navigate_to_turn.
    destruct (do_navigate_result id page b) as [H|H];
      destruct (TurnBrowserScreen._do_navigate id page b) as [b' r];
      cbn [snd fst] in *; subst r; now exists b'. }
  assert (Hout :
    Submission.requests (fst out) = Submission.requests s ++ [(prev, content)]
    /\ Submission.navigations (fst out) = Submission.navigations s
    /\ match created with
       | Ok response =>
           snd out = Ok tt
           /\ Submission.browser (fst out)
              = fst (TurnBrowserScreen._do_navigate
                       (Turn.id (CreateTurnResponse.user_turn response)) page
                       (Submission.browser s))
           /\ Submission.streaming_screens (fst out)
              = Submission.streaming_screens s
                ++ [(CreateTurnResponse.user_turn response,
                     CreateTurnResponse.assistant_turn response)]
       | Raise e =>
           Submission.streaming_screens (fst out)
           = Submission.streaming_screens s
           /\ if is_Exception e
              then snd out = Ok tt
                   /\ Submission.browser (fst out)
                      = fst (TurnBrowserScreen.notify
                               ("Error submitting message: " +:+ exn_str e)
                               (Submission.browser s))
              else snd out = Raise e
                   /\ Submission.browser (fst out) = Submission.browser s
       end).
  { unfold out, Submission.submit_message.
    rewrite try_except_bind. cbn [get_state]. rewrite try_except_bind.
    cbn [modify]. rewrite try_except_bind. fold prev. cbn [lift].
    destruct created as [response|e].
    - destruct (Hnav (Turn.id (CreateTurnResponse.user_turn response))
                  (Submission.browser s)) as (b' & Hrun & Hb').
      unfold try_except, mbind, M_bind, Submission.on_browser, modify.
      cbn [Submission.browser]. rewrite Hrun, Hb'.
      cbn. repeat split; reflexivity.
    - destruct (is_Exception e); cbn; repeat split; reflexivity. }
  destruct Hout as (Hreq & Hnavs & Hcases).
  split; [exact Hreq|]. split; [exact Hcases|].
  unfold done, Submission.on_streaming_done.
  destruct reported as [id|]; cbn.
  - unfold str_truthy. destruct (String.eqb id ""); cbn;
      rewrite Hnavs; [now rewrite app_nil_r | reflexivity].
  - now rewrite Hnavs, app_nil_r.
Qed.

(** ** The user message box of the streaming screen *)

Lemma write_blocks (blocks : list TurnBlock.t) (lines : UserMessageBox.t) :
  for_each UserMessageBox.write_block blocks lines
  = (lines ++ flat_map TurnBrowserScreen.render_block blocks, Ok tt).
Proof.
  revert lines. induction blocks as [|block blocks IH]; intros lines.
  - cbn. now rewrite app_nil_r.
  - rewrite for_each_cons. cbn [flat_map].
    assert (Hblock : UserMessageBox.write_block block lines
                     = (lines ++ TurnBrowserScreen.render_block block, Ok tt)).
    { unfold UserMessageBox.write_block, TurnBrowserScreen.render_block.
      destruct (String.eqb (TurnBlock.block_type block) "thinking");
        [|destruct (String.eqb (TurnBlock.block_type block) "text")];
        destruct (opt_truthy (TurnBlock.text_content block));
        unfold UserMessageBox.write, mbind, M_bind, when, modify, mret, M_ret;
        cbn [app]; now rewrite <- ?app_assoc. }
    rewrite Hblock, IH. now rewrite <- app_assoc.
Qed.


